(** * GDPC world-state consistency layer: a shallow embedding

    The development follows the two Python modules that carry the
    behaviour under study:

    - [worldLoader]  (src/gdpc/worldLoader.py): decoding of a fetched
      chunk payload into cached sections and height-maps;
    - [editor]       (src/gdpc/editor.py): the read / write orchestration
      with its lookup cache, write buffer and decay mask.

    Python integers are [Z]; [>>] is [Z.shiftr], [%] and [//] with a
    positive right operand are [Z.modulo] and [Z.div] (both floor).
    Exceptions are values of [exn]; a fallible pure computation returns
    a [result]. *)

From stdpp Require Import base option list strings.
From Stdlib Require Import ZArith Lia DecimalString.

Open Scope Z_scope.

(** ** Python runtime: exceptions, dicts, numpy indexing *)

(** The exception classes that the code raises or names in an [except]
    clause, and [DecodeFailure] for the failure of the bit-array decoder
    on a malformed payload, which no [except] clause names. *)
Inductive exn : Type :=
| IndexError
| KeyError
| ValueError
| TypeError
| RuntimeError
| DecodeFailure.

Inductive result (A : Type) : Type :=
| Ok (a : A)
| Raise (e : exn).

Arguments Ok {A} a.
Arguments Raise {A} e.

Definition rbind {A B : Type} (r : result A) (k : A -> result B) : result B :=
  match r with
  | Ok a => k a
  | Raise e => Raise e
  end.

Declare Scope result_scope.
Delimit Scope result_scope with result.
Notation "'let!' x ':=' c 'in' k" := (rbind c (fun x => k))
  (at level 10, x pattern, c at level 100, k at level 200) : result_scope.

(** [for v in l: acc = body(acc, v)], where the body may raise. *)
Fixpoint for_each {A S : Type} (l : list A) (body : S -> A -> result S) (s : S)
  : result S :=
  match l with
  | [] => Ok s
  | v :: l' => rbind (body s v) (for_each l' body)
  end.

(** [range(n)] *)
Definition range (n : Z) : list Z := seqZ 0 n.

(** A Python [dict]: keys keep their insertion order, and assigning to a
    key that is present replaces its value in place. *)
Section dict.
Context {K V : Type} `{EqDecision K}.

Fixpoint dict_get (d : list (K * V)) (k : K) : option V :=
  match d with
  | [] => None
  | (k', v) :: d' => if decide (k = k') then Some v else dict_get d' k
  end.

Fixpoint dict_set (d : list (K * V)) (k : K) (v : V) : list (K * V) :=
  match d with
  | [] => [(k, v)]
  | (k', v') :: d' =>
      if decide (k = k') then (k, v) :: d' else (k', v') :: dict_set d' k v
  end.

(** [d[k]] *)
Definition dict_getitem (d : list (K * V)) (k : K) : result V :=
  match dict_get d k with
  | Some v => Ok v
  | None => Raise KeyError
  end.
End dict.

(** numpy resolves an integer index [i] on an axis of length [n]:
    [0 <= i < n] is taken as it is, [-n <= i < 0] counts from the end,
    anything else is an [IndexError]. *)
Definition np_index (n : nat) (i : Z) : result nat :=
  if decide (0 <= i < Z.of_nat n) then Ok (Z.to_nat i)
  else if decide (- Z.of_nat n <= i < 0) then Ok (Z.to_nat (i + Z.of_nat n))
  else Raise IndexError.

(** [np.zeros((r, c), dtype=int)] *)
Definition np_zeros2 (r c : Z) : result (list (list Z)) :=
  if decide (r < 0 \/ c < 0) then Raise ValueError
  else Ok (replicate (Z.to_nat r) (replicate (Z.to_nat c) 0)).

(** [a[i, j]] *)
Definition np_getitem2 (a : list (list Z)) (i j : Z) : result Z :=
  (let! i' := np_index (length a) i in
   match a !! i' with
   | Some row =>
       let! j' := np_index (length row) j in
       match row !! j' with
       | Some v => Ok v
       | None => Raise IndexError
       end
   | None => Raise IndexError
   end)%result.

(** [a[i, j] = v] *)
Definition np_setitem2 (a : list (list Z)) (i j v : Z) : result (list (list Z)) :=
  (let! i' := np_index (length a) i in
   match a !! i' with
   | Some row =>
       let! j' := np_index (length row) j in
       Ok (<[i' := <[j' := v]> row]> a)
   | None => Raise IndexError
   end)%result.

(** [np.zeros((a, b, c), dtype=bool)] *)
Definition np_zeros3 (a b c : Z) : result (list (list (list bool))) :=
  if decide (a < 0 \/ b < 0 \/ c < 0) then Raise ValueError
  else Ok (replicate (Z.to_nat a)
             (replicate (Z.to_nat b) (replicate (Z.to_nat c) false))).

(** [m[i, j, k]] *)
Definition np_getitem3 (m : list (list (list bool))) (i j k : Z) : result bool :=
  (let! i' := np_index (length m) i in
   match m !! i' with
   | Some plane =>
       let! j' := np_index (length plane) j in
       match plane !! j' with
       | Some row =>
           let! k' := np_index (length row) k in
           match row !! k' with
           | Some v => Ok v
           | None => Raise IndexError
           end
       | None => Raise IndexError
       end
   | None => Raise IndexError
   end)%result.

(** [m[i, j, k] = v] *)
Definition np_setitem3 (m : list (list (list bool))) (i j k : Z) (v : bool)
  : result (list (list (list bool))) :=
  (let! i' := np_index (length m) i in
   match m !! i' with
   | Some plane =>
       let! j' := np_index (length plane) j in
       match plane !! j' with
       | Some row =>
           let! k' := np_index (length row) k in
           Ok (<[i' := <[j' := <[k' := v]> row]> plane]> m)
       | None => Raise IndexError
       end
   | None => Raise IndexError
   end)%result.

(** [math.ceil(math.log2(n))].  [math.log2] raises [ValueError] on a
    non-positive argument.  The float result is exact on powers of two
    and far from an integer otherwise for every [n] a palette can have
    (at most 4096 entries), so the ceiling is [Z.log2_up]. *)
Definition ceil_log2 (n : Z) : result Z :=
  if decide (n <= 0) then Raise ValueError else Ok (Z.log2_up n).

(** A Python [str] is a sequence of Unicode code points; a [string] here
    holds its UTF-8 encoding, one byte per character.  [utf8_decode]
    gives the code points back, and [None] on bytes that are not the
    encoding of any [str] (a stray continuation byte, an overlong form, a
    surrogate, a truncated sequence, a value above U+10FFFF). *)
Definition byte_of (c : Ascii.ascii) : Z := Z.of_nat (Ascii.nat_of_ascii c).

Definition is_continuation (b : Z) : bool := ((128 <=? b) && (b <? 192))%bool.

Fixpoint utf8_decode (s : string) : option (list Z) :=
  match s with
  | EmptyString => Some []
  | String c0 s1 =>
      let b0 := byte_of c0 in
      if b0 <? 128 then cons b0 <$> utf8_decode s1
      else if b0 <? 194 then None
      else if b0 <? 224 then
        match s1 with
        | String c1 s2 =>
            let b1 := byte_of c1 in
            if is_continuation b1
            then cons ((b0 - 192) * 64 + (b1 - 128)) <$> utf8_decode s2
            else None
        | EmptyString => None
        end
      else if b0 <? 240 then
        match s1 with
        | String c1 (String c2 s3) =>
            let b1 := byte_of c1 in
            let b2 := byte_of c2 in
            let cp := (b0 - 224) * 4096 + (b1 - 128) * 64 + (b2 - 128) in
            if (is_continuation b1 && is_continuation b2 && (2048 <=? cp)
                && negb ((55296 <=? cp) && (cp <=? 57343)))%bool
            then cons cp <$> utf8_decode s3
            else None
        | _ => None
        end
      else if b0 <? 245 then
        match s1 with
        | String c1 (String c2 (String c3 s4)) =>
            let b1 := byte_of c1 in
            let b2 := byte_of c2 in
            let b3 := byte_of c3 in
            let cp := (b0 - 240) * 262144 + (b1 - 128) * 4096
                      + (b2 - 128) * 64 + (b3 - 128) in
            if (is_continuation b1 && is_continuation b2 && is_continuation b3
                && (65536 <=? cp) && (cp <=? 1114111))%bool
            then cons cp <$> utf8_decode s4
            else None
        | _ => None
        end
      else None
  end.

(** The characters that [str.isnumeric] accepts: the code points with a
    numeric value (Numeric_Type Decimal, Digit or Numeric) of the Unicode
    Character Database, version 14.0, as inclusive ranges in ascending
    order.  The ASCII digits are the first range; superscripts and
    fractions such as U+00B2 and U+00BD follow. *)
Definition numeric_ranges : list (Z * Z) :=
  [(48, 57); (178, 179); (185, 185); (188, 190); (1632, 1641); (1776, 1785);
   (1984, 1993); (2406, 2415); (2534, 2543); (2548, 2553); (2662, 2671);
   (2790, 2799); (2918, 2927); (2930, 2935); (3046, 3058); (3174, 3183);
   (3192, 3198); (3302, 3311); (3416, 3422); (3430, 3448); (3558, 3567);
   (3664, 3673); (3792, 3801); (3872, 3891); (4160, 4169); (4240, 4249);
   (4969, 4988); (5870, 5872); (6112, 6121); (6128, 6137); (6160, 6169);
   (6470, 6479); (6608, 6618); (6784, 6793); (6800, 6809); (6992, 7001);
   (7088, 7097); (7232, 7241); (7248, 7257); (8304, 8304); (8308, 8313);
   (8320, 8329); (8528, 8578); (8581, 8585); (9312, 9371); (9450, 9471);
   (10102, 10131); (11517, 11517); (12295, 12295); (12321, 12329);
   (12344, 12346); (12690, 12693); (12832, 12841); (12872, 12879);
   (12881, 12895); (12928, 12937); (12977, 12991); (13317, 13317);
   (13443, 13443); (14378, 14378); (15181, 15181); (19968, 19968);
   (19971, 19971); (19975, 19975); (19977, 19977); (20061, 20061);
   (20108, 20108); (20116, 20116); (20118, 20118); (20159, 20160);
   (20191, 20191); (20200, 20200); (20237, 20237); (20336, 20336);
   (20740, 20740); (20806, 20806); (20841, 20841); (20843, 20843);
   (20845, 20845); (21313, 21313); (21315, 21317); (21324, 21324);
   (21441, 21444); (22235, 22235); (22769, 22769); (22777, 22777);
   (24186, 24186); (24318, 24319); (24332, 24334); (24336, 24336);
   (25342, 25342); (25420, 25420); (26578, 26578); (28422, 28422);
   (29590, 29590); (30334, 30334); (32902, 32902); (33836, 33836);
   (36014, 36014); (36019, 36019); (36144, 36144); (38433, 38433);
   (38470, 38470); (38476, 38476); (38520, 38520); (38646, 38646);
   (42528, 42537); (42726, 42735); (43056, 43061); (43216, 43225);
   (43264, 43273); (43472, 43481); (43504, 43513); (43600, 43609);
   (44016, 44025); (63851, 63851); (63859, 63859); (63864, 63864);
   (63922, 63922); (63953, 63953); (63955, 63955); (63997, 63997);
   (65296, 65305); (65799, 65843); (65856, 65912); (65930, 65931);
   (66273, 66299); (66336, 66339); (66369, 66369); (66378, 66378);
   (66513, 66517); (66720, 66729); (67672, 67679); (67705, 67711);
   (67751, 67759); (67835, 67839); (67862, 67867); (68028, 68029);
   (68032, 68047); (68050, 68095); (68160, 68168); (68221, 68222);
   (68253, 68255); (68331, 68335); (68440, 68447); (68472, 68479);
   (68521, 68527); (68858, 68863); (68912, 68921); (69216, 69246);
   (69405, 69414); (69457, 69460); (69573, 69579); (69714, 69743);
   (69872, 69881); (69942, 69951); (70096, 70105); (70113, 70132);
   (70384, 70393); (70736, 70745); (70864, 70873); (71248, 71257);
   (71360, 71369); (71472, 71483); (71904, 71922); (72016, 72025);
   (72784, 72812); (73040, 73049); (73120, 73129); (73664, 73684);
   (74752, 74862); (92768, 92777); (92864, 92873); (93008, 93017);
   (93019, 93025); (93824, 93846); (119520, 119539); (119648, 119672);
   (120782, 120831); (123200, 123209); (123632, 123641); (125127, 125135);
   (125264, 125273); (126065, 126123); (126125, 126127); (126129, 126132);
   (126209, 126253); (126255, 126269); (127232, 127244); (130032, 130041);
   (131073, 131073); (131172, 131172); (131298, 131298); (131361, 131361);
   (133418, 133418); (133507, 133507); (133516, 133516); (133532, 133532);
   (133866, 133866); (133885, 133885); (133913, 133913); (140176, 140176);
   (141720, 141720); (146203, 146203); (156269, 156269); (194704, 194704)].

Definition is_numeric_char (c : Z) : bool :=
  existsb (fun r => ((r.1 <=? c) && (c <=? r.2))%bool) numeric_ranges.

(** [str.isnumeric()]: the string is not empty and each of its characters
    is numeric. *)
Definition isnumeric (s : string) : bool :=
  match utf8_decode s with
  | Some (c :: cs) => forallb is_numeric_char (c :: cs)
  | _ => false
  end.

(** The separator of ["\n".join(...)]. *)
Definition newline : string := String (Ascii.ascii_of_nat 10) EmptyString.

(** [f"{n}"] for an [int]: its decimal writing, with a leading [-] when
    it is negative. *)
Definition str_of_int (n : Z) : string := NilZero.string_of_int (Z.to_int n).

(** One-dimensional numpy arrays of integers.  [np.min] and [np.max]
    raise [ValueError] on an empty array. *)
Definition np_min (a : list Z) : result Z :=
  match a with
  | [] => Raise ValueError
  | v :: a' => Ok (foldl Z.min v a')
  end.

Definition np_max (a : list Z) : result Z :=
  match a with
  | [] => Raise ValueError
  | v :: a' => Ok (foldl Z.max v a')
  end.

(** [a == v], element by element. *)
Definition np_equal (a : list Z) (v : Z) : list bool :=
  map (fun x => bool_decide (x = v)) a.

(** [np.nonzero(mask)[0]]: the indices of the true entries, ascending. *)
Definition np_nonzero (mask : list bool) : list Z :=
  (List.filter (fun p => p.2) (zip (seqZ 0 (Z.of_nat (length mask))) mask)).*1.

(** [l[i] for i in idx], and [a[idx]] with an integer index array: each
    index is resolved as [np_index] does. *)
Definition take_each {A : Type} (l : list A) (idx : list Z) : result (list A) :=
  for_each idx
    (fun acc i =>
       rbind (np_index (length l) i)
         (fun i' =>
            match l !! i' with
            | Some v => Ok (acc ++ [v])
            | None => Raise IndexError
            end))
    [].

(** [a[mask]] with a boolean mask: the mask must have the length of the
    array. *)
Definition np_compress (a : list Z) (mask : list bool) : result (list Z) :=
  if decide (length mask = length a) then
    Ok ((List.filter (fun p => p.2) (zip a mask)).*1)
  else Raise IndexError.

(** ** bitarray.BitArray *)

Module bitarray.

(** Modelled from the spec: the [BitArray] class of the [bitarray]
    module, which the loader imports and which is not among the
    sources.  Section 4.1: elements are packed low-bit-first, a 64-bit
    word holds [floor(64 / w)] elements and no element spans two words;
    [get(i)] fails with an IndexError-class condition outside
    [0 <= i < n].  Section 7: a malformed or short payload is a decode
    failure that propagates to the caller, so the decoder is built only
    over a payload of exactly the words that [n] elements take; that
    failure is [DecodeFailure].  An absent payload ([None]) is taken
    without a check, as an empty one; reading a word that is not there is
    the [IndexError] of a list. *)
Record BitArray : Type := mkBitArray {
  bitsPerEntry : Z;
  arraySize : Z;
  longArray : list Z
}.

(** The number of words that [arraySizeIn] elements of [bitsPerEntryIn]
    bits take. *)
Definition wordsNeeded (bitsPerEntryIn arraySizeIn : Z) : Z :=
  (arraySizeIn + 64 / bitsPerEntryIn - 1) / (64 / bitsPerEntryIn).

Definition new (bitsPerEntryIn arraySizeIn : Z) (data : option (list Z))
  : result BitArray :=
  match data with
  | Some words =>
      if decide (Z.of_nat (length words) = wordsNeeded bitsPerEntryIn arraySizeIn)
      then Ok (mkBitArray bitsPerEntryIn arraySizeIn words)
      else Raise DecodeFailure
  | None => Ok (mkBitArray bitsPerEntryIn arraySizeIn [])
  end.

Definition entriesPerWord (ba : BitArray) : Z := 64 / bitsPerEntry ba.

Definition getAt (ba : BitArray) (i : Z) : result Z :=
  if decide (0 <= i < arraySize ba) then
    let wordIndex := i / entriesPerWord ba in
    let bitOffset := (i mod entriesPerWord ba) * bitsPerEntry ba in
    match longArray ba !! Z.to_nat wordIndex with
    | Some word =>
        Ok (Z.land (Z.shiftr word bitOffset)
              (Z.shiftl 1 (bitsPerEntry ba) - 1))
    | None => Raise IndexError
    end
  else Raise IndexError.

End bitarray.

(** ** worldLoader.py *)

Module worldLoader.

Import bitarray.

(** The payload of [di.getChunks], after NBT parsing.  A palette entry
    is a block compound with its ["Name"] and its properties. *)
Record BlockCompound : Type := mkBlockCompound {
  Name : string;
  Properties : list (string * string)
}.

(** [section['block_states']] and [section['biomes']]: compounds whose
    keys ['palette'] and ['data'] may each be absent. *)
Record BlockStatesNBT : Type := mkBlockStatesNBT {
  bs_palette : option (list BlockCompound);
  bs_data : option (list Z)
}.

Record BiomesNBT : Type := mkBiomesNBT {
  bm_palette : option (list string);
  bm_data : option (list Z)
}.

Record SectionNBT : Type := mkSectionNBT {
  sec_Y : Z;
  sec_block_states : option BlockStatesNBT;
  sec_biomes : option BiomesNBT
}.

Record ChunkNBT : Type := mkChunkNBT {
  Heightmaps : list (string * list Z);
  chunk_sections : list SectionNBT
}.

Record NBTFile : Type := mkNBTFile {
  Chunks : list ChunkNBT
}.

(** [len(compound)]: the number of keys present. *)
Definition len_block_states (bs : BlockStatesNBT) : Z :=
  (match bs_palette bs with Some _ => 1 | None => 0 end)
  + (match bs_data bs with Some _ => 1 | None => 0 end).

(** [compound[key]] on an optional key. *)
Definition getitem {A : Type} (o : option A) : result A :=
  match o with
  | Some a => Ok a
  | None => Raise KeyError
  end.

(** [self.nbtfile['Chunks'][chunkID]] *)
Definition chunk_at (nbt : NBTFile) (chunkID : Z) : result ChunkNBT :=
  (let! i := np_index (length (Chunks nbt)) chunkID in
   match Chunks nbt !! i with
   | Some c => Ok c
   | None => Raise IndexError
   end)%result.

Record CachedSection : Type := mkCachedSection {
  x : Z;
  y : Z;
  z : Z;
  blockPalette : list BlockCompound;
  blockStatesBitArray : BitArray;
  biomesPalette : list string;
  biomesBitArray : BitArray
}.

Record WorldSlice : Type := mkWorldSlice {
  rect : Z * Z * Z * Z;
  chunkRect : Z * Z * Z * Z;
  heightmapTypes : list string;
  nbtfile : NBTFile;
  heightmaps : list (string * list (list Z));
  sections : list CachedSection
}.

Definition default_heightmapTypes : list string :=
  ["MOTION_BLOCKING"; "MOTION_BLOCKING_NO_LEAVES"; "OCEAN_FLOOR"; "WORLD_SURFACE"]%string.

(** Lines 53-58. *)
Definition make_rect (x1 z1 x2 z2 : Z) : Z * Z * Z * Z :=
  (x1, z1, x2 - x1, z2 - z1).

Definition make_chunkRect (r : Z * Z * Z * Z) : Z * Z * Z * Z :=
  let '(r0, r1, r2, r3) := r in
  (Z.shiftr r0 4, Z.shiftr r1 4,
   Z.shiftr (r0 + r2 - 1) 4 - Z.shiftr r0 4 + 1,
   Z.shiftr (r1 + r3 - 1) 4 - Z.shiftr r1 4 + 1).

(** Lines 86-91: one cell of one chunk's height-map.  The assignment and
    the [getAt] call are both inside the [try]; an [IndexError] of either
    is swallowed and the array is left as it was. *)
Definition store_height (rectOffset : Z * Z) (x z : Z) (ba : BitArray)
  (cz : Z) (heightmap : list (list Z)) (cx : Z) : result (list (list Z)) :=
  match
    (let! v := getAt ba (cz * 16 + cx) in
     np_setitem2 heightmap
       (- rectOffset.1 + x * 16 + cx) (- rectOffset.2 + z * 16 + cz)
       (v - 64))%result
  with
  | Ok heightmap' => Ok heightmap'
  | Raise IndexError => Ok heightmap
  | Raise e => Raise e
  end.

(** Lines 84-85: [for cz in range(16): for cx in range(16): ...] *)
Definition decode_row (rectOffset : Z * Z) (x z : Z) (ba : BitArray)
  (heightmap : list (list Z)) (cz : Z) : result (list (list Z)) :=
  for_each (range 16) (store_height rectOffset x z ba cz) heightmap.

Definition decode_heightmap (rectOffset : Z * Z) (x z : Z) (ba : BitArray)
  (heightmap : list (list Z)) : result (list (list Z)) :=
  for_each (range 16) (decode_row rectOffset x z ba) heightmap.

(** Lines 80-83: one height-map kind of one chunk.  [heightmap] aliases
    the array held by the dict, so the writes land in the dict entry. *)
Definition load_heightmap (rectOffset : Z * Z) (x z : Z)
  (hms : list (string * list Z))
  (hmaps : list (string * list (list Z))) (hmName : string)
  : result (list (string * list (list Z))) :=
  (let! hmRaw := dict_getitem hms hmName in
   let! heightmapBitArray := bitarray.new 9 (16 * 16) (Some hmRaw) in
   let! heightmap := dict_getitem hmaps hmName in
   let! heightmap' := decode_heightmap rectOffset x z heightmapBitArray heightmap in
   Ok (dict_set hmaps hmName heightmap'))%result.

(** Lines 75-79: the loop over the chunks of the slice. *)
Definition load_chunk_heightmaps (nbt : NBTFile) (cr : Z * Z * Z * Z)
  (types : list string) (rectOffset : Z * Z) (x : Z)
  (hmaps : list (string * list (list Z))) (z : Z)
  : result (list (string * list (list Z))) :=
  (let chunkID := x + z * cr.1.2 in
   let! chunk := chunk_at nbt chunkID in
   for_each types (load_heightmap rectOffset x z (Heightmaps chunk)) hmaps)%result.

Definition load_heightmaps (nbt : NBTFile) (cr : Z * Z * Z * Z)
  (types : list string) (rectOffset : Z * Z)
  (hmaps : list (string * list (list Z)))
  : result (list (string * list (list Z))) :=
  for_each (range cr.1.2)
    (fun hm x =>
       for_each (range cr.2)
         (load_chunk_heightmaps nbt cr types rectOffset x) hm)
    hmaps.

(** Lines 69-72: one zero array of [(rect[2] + 1, rect[3] + 1)] cells per
    height-map kind. *)
Definition init_heightmaps (r : Z * Z * Z * Z) (types : list string)
  : result (list (string * list (list Z))) :=
  for_each types
    (fun hmaps hmName =>
       (let! zeros := np_zeros2 (r.1.2 + 1) (r.2 + 1) in
        Ok (dict_set hmaps hmName zeros))%result)
    [].

(** Lines 113 and 120. *)
Definition blockPaletteBitsPerEntry (paletteLen : Z) : result Z :=
  (let! l := ceil_log2 paletteLen in Ok (Z.max 4 l))%result.

Definition biomesBitsPerEntry (paletteLen : Z) : result Z :=
  (let! l := ceil_log2 paletteLen in Ok (Z.max 1 l))%result.

(** Lines 105-106:
    [not ('block_states' in section) or len(section['block_states']) == 0] *)
Definition section_is_empty (section : SectionNBT) : bool :=
  match sec_block_states section with
  | None => true
  | Some bs => bool_decide (len_block_states bs = 0)
  end.

(** Lines 102-125: one section of one chunk.  A section without
    ['block_states'], or with an empty one, is skipped. *)
Definition load_section (x z : Z) (secs : list CachedSection)
  (section : SectionNBT) : result (list CachedSection) :=
  let y := sec_Y section in
  if section_is_empty section then Ok secs
  else
    (let! bs := getitem (sec_block_states section) in
     let! blockPalette := getitem (bs_palette bs) in
     let blockData := bs_data bs in
     let! bitsB := blockPaletteBitsPerEntry (Z.of_nat (length blockPalette)) in
     let! blockDataBitArray := bitarray.new bitsB (16 * 16 * 16) blockData in
     let! biomes := getitem (sec_biomes section) in
     let! biomesPalette := getitem (bm_palette biomes) in
     let biomesData := bm_data biomes in
     let! bitsM := biomesBitsPerEntry (Z.of_nat (length biomesPalette)) in
     let! biomesDataBitArray := bitarray.new bitsM 64 biomesData in
     Ok (secs ++ [mkCachedSection x y z blockPalette blockDataBitArray
                    biomesPalette biomesDataBitArray]))%result.

(** Lines 96-101. *)
Definition load_chunk_sections (nbt : NBTFile) (cr : Z * Z * Z * Z) (x : Z)
  (secs : list CachedSection) (z : Z) : result (list CachedSection) :=
  (let chunkID := x + z * cr.1.2 in
   let! chunk := chunk_at nbt chunkID in
   for_each (chunk_sections chunk) (load_section x z) secs)%result.

Definition load_sections (nbt : NBTFile) (cr : Z * Z * Z * Z)
  : result (list CachedSection) :=
  for_each (range cr.1.2)
    (fun secs x => for_each (range cr.2) (load_chunk_sections nbt cr x) secs)
    [].

(** [WorldSlice.__init__].  [getChunks] stands for
    [di.getChunks(..., rtype='bytes')] followed by the NBT parse. *)
Definition WorldSlice_init (getChunks : Z * Z * Z * Z -> NBTFile)
  (x1 z1 x2 z2 : Z) (heightmapTypes : option (list string))
  : result WorldSlice :=
  (let types := default default_heightmapTypes heightmapTypes in
   let r := make_rect x1 z1 x2 z2 in
   let cr := make_chunkRect r in
   let nbt := getChunks cr in
   let rectOffset := (r.1.1.1 mod 16, r.1.1.2 mod 16) in
   let! hmaps0 := init_heightmaps r types in
   let! hmaps := load_heightmaps nbt cr types rectOffset hmaps0 in
   let! secs := load_sections nbt cr in
   Ok (mkWorldSlice r cr types nbt hmaps secs))%result.

(** Lines 141-144: the linear scan for the section of a coordinate. *)
Definition find_section (secs : list CachedSection) (chunkX chunkY chunkZ : Z)
  : option CachedSection :=
  List.find
    (fun s => bool_decide (x s = chunkX /\ y s = chunkY /\ z s = chunkZ)) secs.

(** [palette[i]] on a Python list. *)
Definition list_getitem {A : Type} (l : list A) (i : Z) : result A :=
  (let! i' := np_index (length l) i in
   match l !! i' with
   | Some a => Ok a
   | None => Raise IndexError
   end)%result.

(** [WorldSlice.getBlockCompoundAt]; [None] is the "no data" answer. *)
Definition getBlockCompoundAt (self : WorldSlice) (x y z : Z)
  : result (option BlockCompound) :=
  let chunkX := Z.shiftr x 4 - (chunkRect self).1.1.1 in
  let chunkZ := Z.shiftr z 4 - (chunkRect self).1.1.2 in
  let chunkY := Z.shiftr y 4 in
  match find_section (sections self) chunkX chunkY chunkZ with
  | None => Ok None
  | Some cachedSection =>
      let bitarray := blockStatesBitArray cachedSection in
      let palette := blockPalette cachedSection in
      let blockIndex := (y mod 16) * 16 * 16 + (z mod 16) * 16 + x mod 16 in
      (let! i := getAt bitarray blockIndex in
       let! c := list_getitem palette i in
       Ok (Some c))%result
  end.

(** [WorldSlice.getBlockAt] *)
Definition getBlockAt (self : WorldSlice) (x y z : Z) : result string :=
  (let! blockCompound := getBlockCompoundAt self x y z in
   match blockCompound with
   | None => Ok "minecraft:void_air"%string
   | Some c => Ok (Name c)
   end)%result.

(** [WorldSlice.getBiomeAt]: the same section lookup, then the biome
    palette read through the biome bit array at the block index. *)
Definition getBiomeAt (self : WorldSlice) (x y z : Z) : result (option string) :=
  let chunkX := Z.shiftr x 4 - (chunkRect self).1.1.1 in
  let chunkZ := Z.shiftr z 4 - (chunkRect self).1.1.2 in
  let chunkY := Z.shiftr y 4 in
  match find_section (sections self) chunkX chunkY chunkZ with
  | None => Ok None
  | Some cachedSection =>
      let bitArray := biomesBitArray cachedSection in
      let palette := biomesPalette cachedSection in
      let blockIndex := (y mod 16) * 16 * 16 + (z mod 16) * 16 + x mod 16 in
      (let! i := getAt bitArray blockIndex in
       let! c := list_getitem palette i in
       Ok (Some c))%result
  end.

End worldLoader.

(** ** utility.OrderedByLookupDict *)

Module utility.

Section OrderedByLookupDict.
Context {K V : Type} `{EqDecision K}.

(** Modelled from the spec: the [OrderedByLookupDict] class of the
    [utility] module, which the editor imports and which is not among
    the sources.  Section 4.4: a bounded mapping whose entries are kept
    in recency order (least recently used first); [get] fails with "not
    present" on an absent key and otherwise marks the key as most
    recently used; [put] inserts or overwrites, counts as a use, and
    evicts least-recently-used entries until the size constraint holds.
    The class is a dict, subscripted as [d[k]]: its "not present" failure
    is the [KeyError] of a mapping. *)
Record OrderedByLookupDict : Type := mkOrderedByLookupDict {
  maxSize : Z;
  entries : list (K * V)
}.

Definition remove_key (k : K) (l : list (K * V)) : list (K * V) :=
  List.filter (fun e => negb (bool_decide (e.1 = k))) l.

Definition move_to_end (k : K) (v : V) (l : list (K * V)) : list (K * V) :=
  remove_key k l ++ [(k, v)].

Definition evict (limit : Z) (l : list (K * V)) : list (K * V) :=
  drop (Z.to_nat (Z.of_nat (length l) - limit)) l.

(** [d[k]]: the value and the dict with the key promoted. *)
Definition getitem (d : OrderedByLookupDict) (k : K)
  : result (V * OrderedByLookupDict) :=
  match dict_get (entries d) k with
  | Some v => Ok (v, mkOrderedByLookupDict (maxSize d) (move_to_end k v (entries d)))
  | None => Raise KeyError
  end.

(** [d[k] = v] *)
Definition setitem (d : OrderedByLookupDict) (k : K) (v : V)
  : OrderedByLookupDict :=
  mkOrderedByLookupDict (maxSize d)
    (evict (maxSize d) (move_to_end k v (entries d))).

End OrderedByLookupDict.

Arguments OrderedByLookupDict K V : clear implicits.

End utility.

(** ** editor.py *)

Module editor.

Definition ivec2 : Type := Z * Z.
Definition ivec3 : Type := Z * Z * Z.

(** [vector_tools.dropY], [vector_tools.addY] and vector subtraction. *)
Definition dropY (v : ivec3) : ivec2 := (v.1.1, v.2).
Definition addY (v : ivec2) (y : Z) : ivec3 := (v.1, y, v.2).
Definition sub3 (a b : ivec3) : ivec3 :=
  (a.1.1 - b.1.1, a.1.2 - b.1.2, a.2 - b.2).

(** Modelled from the spec: [vector_tools.Rect], the rectangular XZ
    region descriptor of a snapshot, which is not among the sources: an
    offset and a size, containing the cells from the offset (inclusive)
    to offset + size (exclusive). *)
Record Rect : Type := mkRect {
  offset : ivec2;
  size : ivec2
}.

Definition Rect_contains (r : Rect) (v : ivec2) : bool :=
  bool_decide ((offset r).1 <= v.1 < (offset r).1 + (size r).1 /\
               (offset r).2 <= v.2 < (offset r).2 + (size r).2).

(** [replace]: [Optional[Union[str, Iterable[str]]]] *)
Inductive ReplaceArg : Type :=
| ReplaceStr (s : string)
| ReplaceList (l : list string).

(** [position]: [Union[ivec3, Iterable[ivec3]]] *)
Inductive PositionArg : Type :=
| OnePosition (p : ivec3)
| ManyPositions (l : list ivec3).

Section Editor.
Context {Block WorldSlice Cache : Type}.

(** Requests sent through [self._interface], in the order they were
    issued.  [retries] is [None] where the caller leaves the default. *)
Inductive Event : Type :=
| EvGetBlocks (position : ivec3) (includeState includeData : bool)
| EvPlaceBlocks (blocks : list (ivec3 * Block)) (doBlockUpdates : bool)
    (retries : option Z)
| EvRunCommand (command : string)
| EvGetBuildArea
| EvGetChunks (rect : Rect).

(** The yellow warnings printed with [eprint]. *)
Inductive Warning : Type :=
| WarnPlacingBlock (result : list string)
| WarnPlacingBufferedBlock (line : string)
| WarnSendingBufferedCommand (line : string).

(** The collaborators of [editor.py] that are not among the sources:
    the constants of [lookup], the operations of [block.Block] the
    editor uses, the cache class behind [self._cache], the [WorldSlice]
    of the [world_slice] module, and the [Interface].  The remote host
    answers a request as a function of the requests issued before it. *)
Class Collaborators : Type := {
  (* lookup *)
  BUILD_Y_MIN : Z;
  BUILD_HEIGHT : Z;
  (* block.Block *)
  block_id : Block -> string;
  chooseId : Block -> Block;
  block_eq_str : Block -> string -> bool;      (* [blk == s], for [blk in replace] *)
  str_in_block : string -> Block -> bool;      (* [s in blk] *)
  fromBlockCompound : option worldLoader.BlockCompound -> result Block;
  (* utility.OrderedByLookupDict; a lookup returns the value and the
     cache as the lookup leaves it, or raises and leaves the cache alone *)
  cache_getitem : Cache -> ivec3 -> result (Block * Cache);
  cache_setitem : Cache -> ivec3 -> Block -> Cache;
  (* world_slice.WorldSlice *)
  ws_rect : WorldSlice -> Rect;
  ws_getBlockCompoundAt :
    WorldSlice -> ivec3 -> result (option worldLoader.BlockCompound);
  (* interface.Interface *)
  iface_getBlocks : list Event -> ivec3 -> bool -> bool -> list (ivec3 * Block);
  iface_placeBlocks :
    list Event -> list (ivec3 * Block) -> bool -> option Z -> list string;
  iface_runCommand : list Event -> string -> list string;
  iface_getBuildArea : list Event -> bool * Rect;
  iface_WorldSlice : list Event -> Rect -> result WorldSlice
}.

(** A detached buffer handed to the flush executor.  The worker threads
    run outside this model: a submitted task stays in
    [bufferFlushFutures]. *)
Record FlushTask : Type := mkFlushTask {
  task_blockBuffer : list (ivec3 * Block);
  task_commandBuffer : list string;
  task_retries : Z
}.

(** The fields of [Editor] that the read and write paths use, with the
    requests and warnings the instance has produced so far. *)
Record Editor : Type := mkEditor {
  buffering : bool;
  bufferLimit : Z;
  buffer : list (ivec3 * Block);
  commandBuffer : list string;
  caching : bool;
  cache : Cache;
  multithreading : bool;
  bufferFlushFutures : list FlushTask;
  doBlockUpdates : bool;
  bufferDoBlockUpdates : bool;
  worldSlice : option WorldSlice;
  worldSliceDecay : option (list (list (list bool)));
  trace : list Event;
  warnings : list Warning
}.

Definition set_buffering (v : bool) (e : Editor) : Editor :=
  let '(mkEditor _ a2 a3 a4 a5 a6 a7 a8 a9 a10 a11 a12 a13 a14) := e in
  mkEditor v a2 a3 a4 a5 a6 a7 a8 a9 a10 a11 a12 a13 a14.
Definition set_bufferLimit (v : Z) (e : Editor) : Editor :=
  let '(mkEditor a1 _ a3 a4 a5 a6 a7 a8 a9 a10 a11 a12 a13 a14) := e in
  mkEditor a1 v a3 a4 a5 a6 a7 a8 a9 a10 a11 a12 a13 a14.
Definition set_buffer (v : list (ivec3 * Block)) (e : Editor) : Editor :=
  let '(mkEditor a1 a2 _ a4 a5 a6 a7 a8 a9 a10 a11 a12 a13 a14) := e in
  mkEditor a1 a2 v a4 a5 a6 a7 a8 a9 a10 a11 a12 a13 a14.
Definition set_commandBuffer (v : list string) (e : Editor) : Editor :=
  let '(mkEditor a1 a2 a3 _ a5 a6 a7 a8 a9 a10 a11 a12 a13 a14) := e in
  mkEditor a1 a2 a3 v a5 a6 a7 a8 a9 a10 a11 a12 a13 a14.
Definition set_caching (v : bool) (e : Editor) : Editor :=
  let '(mkEditor a1 a2 a3 a4 _ a6 a7 a8 a9 a10 a11 a12 a13 a14) := e in
  mkEditor a1 a2 a3 a4 v a6 a7 a8 a9 a10 a11 a12 a13 a14.
Definition set_cache (v : Cache) (e : Editor) : Editor :=
  let '(mkEditor a1 a2 a3 a4 a5 _ a7 a8 a9 a10 a11 a12 a13 a14) := e in
  mkEditor a1 a2 a3 a4 a5 v a7 a8 a9 a10 a11 a12 a13 a14.
Definition set_bufferFlushFutures (v : list FlushTask) (e : Editor) : Editor :=
  let '(mkEditor a1 a2 a3 a4 a5 a6 a7 _ a9 a10 a11 a12 a13 a14) := e in
  mkEditor a1 a2 a3 a4 a5 a6 a7 v a9 a10 a11 a12 a13 a14.
Definition set_doBlockUpdates (v : bool) (e : Editor) : Editor :=
  let '(mkEditor a1 a2 a3 a4 a5 a6 a7 a8 _ a10 a11 a12 a13 a14) := e in
  mkEditor a1 a2 a3 a4 a5 a6 a7 a8 v a10 a11 a12 a13 a14.
Definition set_bufferDoBlockUpdates (v : bool) (e : Editor) : Editor :=
  let '(mkEditor a1 a2 a3 a4 a5 a6 a7 a8 a9 _ a11 a12 a13 a14) := e in
  mkEditor a1 a2 a3 a4 a5 a6 a7 a8 a9 v a11 a12 a13 a14.
Definition set_worldSlice (v : option WorldSlice) (e : Editor) : Editor :=
  let '(mkEditor a1 a2 a3 a4 a5 a6 a7 a8 a9 a10 _ a12 a13 a14) := e in
  mkEditor a1 a2 a3 a4 a5 a6 a7 a8 a9 a10 v a12 a13 a14.
Definition set_worldSliceDecay (v : option (list (list (list bool))))
  (e : Editor) : Editor :=
  let '(mkEditor a1 a2 a3 a4 a5 a6 a7 a8 a9 a10 a11 _ a13 a14) := e in
  mkEditor a1 a2 a3 a4 a5 a6 a7 a8 a9 a10 a11 v a13 a14.
Definition set_trace (v : list Event) (e : Editor) : Editor :=
  let '(mkEditor a1 a2 a3 a4 a5 a6 a7 a8 a9 a10 a11 a12 _ a14) := e in
  mkEditor a1 a2 a3 a4 a5 a6 a7 a8 a9 a10 a11 a12 v a14.
Definition set_warnings (v : list Warning) (e : Editor) : Editor :=
  let '(mkEditor a1 a2 a3 a4 a5 a6 a7 a8 a9 a10 a11 a12 a13 _) := e in
  mkEditor a1 a2 a3 a4 a5 a6 a7 a8 a9 a10 a11 a12 a13 v.

(** A method of [Editor]: it runs on the instance, returns a value or
    raises, and leaves the instance as mutated up to that point. *)
Definition M (A : Type) : Type := Editor -> result A * Editor.

Definition ret {A : Type} (a : A) : M A := fun st => (Ok a, st).

Definition raise {A : Type} (e : exn) : M A := fun st => (Raise e, st).

Definition bind {A B : Type} (m : M A) (k : A -> M B) : M B :=
  fun st =>
    match m st with
    | (Ok a, st') => k a st'
    | (Raise e, st') => (Raise e, st')
    end.

Definition gets {A : Type} (f : Editor -> A) : M A := fun st => (Ok (f st), st).

Definition modify (f : Editor -> Editor) : M unit := fun st => (Ok tt, f st).

Definition lift {A : Type} (r : result A) : M A := fun st => (r, st).

End Editor.

Arguments Event Block : clear implicits.
Arguments Warning : clear implicits.
Arguments FlushTask Block : clear implicits.
Arguments Collaborators Block WorldSlice Cache : clear implicits.
Arguments Editor Block WorldSlice Cache : clear implicits.
Arguments M Block WorldSlice Cache A : clear implicits.

Declare Scope editor_scope.
Delimit Scope editor_scope with editor.
Notation "'do' x <- m ; k" := (bind m (fun x => k))
  (at level 10, x pattern, m at level 100, k at level 200) : editor_scope.
Notation "m ;; k" := (bind m (fun _ => k))
  (at level 100, k at level 200, right associativity) : editor_scope.

Open Scope editor_scope.

Section Methods.
Context {Block WorldSlice Cache : Type}.
Context `{!Collaborators Block WorldSlice Cache}.

Abbreviation Editor := (Editor Block WorldSlice Cache).
Abbreviation M := (M Block WorldSlice Cache).

(** Calls on [self._interface]: the request is appended to the trace and
    the host's answer is returned. *)
Definition interface_getBlocks (position : ivec3)
  (includeState includeData : bool) : M (list (ivec3 * Block)) :=
  fun st =>
    (Ok (iface_getBlocks (trace st) position includeState includeData),
     set_trace (trace st ++ [EvGetBlocks position includeState includeData]) st).

Definition interface_placeBlocks (blocks : list (ivec3 * Block))
  (doBlockUpdates : bool) (retries : option Z) : M (list string) :=
  fun st =>
    (Ok (iface_placeBlocks (trace st) blocks doBlockUpdates retries),
     set_trace (trace st ++ [EvPlaceBlocks blocks doBlockUpdates retries]) st).

Definition interface_runCommand (command : string) : M (list string) :=
  fun st =>
    (Ok (iface_runCommand (trace st) command),
     set_trace (trace st ++ [EvRunCommand command]) st).

Definition interface_getBuildArea : M (bool * Rect) :=
  fun st =>
    (Ok (iface_getBuildArea (trace st)),
     set_trace (trace st ++ [EvGetBuildArea]) st).

(** [WorldSlice(self.interface, rect)] *)
Definition new_WorldSlice (rect : Rect) : M WorldSlice :=
  fun st =>
    (iface_WorldSlice (trace st) rect,
     set_trace (trace st ++ [EvGetChunks rect]) st).

Definition eprint (w : Warning) : M unit :=
  modify (fun st => set_warnings (warnings st ++ [w]) st).

(** [for line in response: if not line.isnumeric(): eprint(...)] *)
Fixpoint warn_lines (mk : string -> Warning) (response : list string) : M unit :=
  match response with
  | [] => ret tt
  | line :: rest =>
      (if negb (isnumeric line) then eprint (mk line) else ret tt) ;;
      warn_lines mk rest
  end.

(** [Editor.sendBufferedBlocks], the inner [flush] run on the live
    buffers (no multithreading): [blockBuffer] and [commandBuffer] are
    [self._buffer] and [self._commandBuffer] themselves, which [clear()]
    empties. *)
Definition flush (retries : Z) : M unit :=
  (do blockBuffer <- gets buffer;
   match blockBuffer with
   | [] => ret tt
   | _ :: _ =>
       do flag <- gets bufferDoBlockUpdates;
       do response <- interface_placeBlocks blockBuffer flag (Some retries);
       modify (set_buffer []) ;;
       warn_lines WarnPlacingBufferedBlock response
   end) ;;
  (do commandBuffer <- gets commandBuffer;
   match commandBuffer with
   | [] => ret tt
   | _ :: _ =>
       do response <- interface_runCommand (String.concat newline commandBuffer);
       modify (set_commandBuffer []) ;;
       warn_lines WarnSendingBufferedCommand response
   end).

(** With multithreading the two live buffers are handed to a task for
    the executor and replaced by fresh empty ones.  Which earlier
    futures are done depends on the worker threads, so the pruning of
    finished futures is left out: the list only grows. *)
Definition sendBufferedBlocks (retries : Z) : M unit :=
  do mt <- gets multithreading;
  if mt then
    modify (fun st =>
      set_commandBuffer []
        (set_buffer []
           (set_bufferFlushFutures
              (bufferFlushFutures st
                 ++ [mkFlushTask (buffer st) (commandBuffer st) retries]) st)))
  else flush retries.

(** The default of the [retries] parameter. *)
Definition default_retries : Z := 5.

(** The index into the decay mask:
    [tuple(position - addY(self._worldSlice.rect.offset, lookup.BUILD_Y_MIN))] *)
Definition decay_index (ws : WorldSlice) (position : ivec3) : ivec3 :=
  sub3 position (addY (offset (ws_rect ws)) BUILD_Y_MIN).

(** [self._worldSliceDecay[idx]]; subscripting [None] is a [TypeError]. *)
Definition decay_getitem (idx : ivec3) : M bool :=
  do decay <- gets worldSliceDecay;
  match decay with
  | None => raise TypeError
  | Some m => lift (np_getitem3 m idx.1.1 idx.1.2 idx.2)
  end.

(** [self._worldSliceDecay[idx] = True] *)
Definition decay_setitem (idx : ivec3) : M unit :=
  do decay <- gets worldSliceDecay;
  match decay with
  | None => raise TypeError
  | Some m =>
      do m' <- lift (np_setitem3 m idx.1.1 idx.1.2 idx.2 true);
      modify (set_worldSliceDecay (Some m'))
  end.

(** Lines 257-261: the condition under which the cached slice answers;
    [and] evaluates its operands left to right and stops at the first
    false one. *)
Definition slice_to_read (position : ivec3) : M (option WorldSlice) :=
  do slice <- gets worldSlice;
  match slice with
  | None => ret None
  | Some ws =>
      if Rect_contains (ws_rect ws) (dropY position) then
        do decayed <- decay_getitem (decay_index ws position);
        ret (if decayed then None else Some ws)
      else ret None
  end.

(** [self._cache[position] = block] when caching is on. *)
Definition cache_store (position : ivec3) (block : Block) : M unit :=
  do c <- gets caching;
  if c then modify (fun st => set_cache (cache_setitem (cache st) position block) st)
  else ret tt.

(** Lines 257-269 of [getBlockGlobal]: neither the cache nor the buffer
    answered. *)
Definition getBlockGlobal_fetch (position : ivec3)
  (getBlockStates getBlockData : bool) : M Block :=
  do slice <- slice_to_read position;
  do block <-
    match slice with
    | Some ws =>
        lift (let! c := ws_getBlockCompoundAt ws position in
              fromBlockCompound c)%result
    | None =>
        do r <- interface_getBlocks position getBlockStates getBlockData;
        do r0 <- lift (worldLoader.list_getitem r 0);
        ret r0.2
    end;
  cache_store position block ;;
  ret block.

(** Lines 252-255. *)
Definition getBlockGlobal_buffer (position : ivec3)
  (getBlockStates getBlockData : bool) : M Block :=
  do b <- gets buffering;
  do block <-
    (if b : bool then gets (fun st => dict_get (buffer st) position)
     else ret None);
  match block with
  | Some block => ret block
  | None => getBlockGlobal_fetch position getBlockStates getBlockData
  end.

(** Lines 247-250: [try: return copy(self._cache[position])] with
    [except TypeError: pass].  Only a [TypeError] of the lookup is let
    pass; any other exception leaves the method. *)
Definition cache_try (position : ivec3) : M (option Block) :=
  fun st =>
    match cache_getitem (cache st) position with
    | Ok (block, cache') => (Ok (Some block), set_cache cache' st)
    | Raise TypeError => (Ok None, st)
    | Raise e => (Raise e, st)
    end.

(** [Editor.getBlockGlobal] *)
Definition getBlockGlobal (position : ivec3)
  (getBlockStates getBlockData : bool) : M Block :=
  do c <- gets caching;
  do hit <- (if c : bool then cache_try position else ret None);
  match hit with
  | Some block => ret block
  | None => getBlockGlobal_buffer position getBlockStates getBlockData
  end.

(** [Editor._placeSingleBlockGlobalDirect] *)
Definition _placeSingleBlockGlobalDirect (position : ivec3) (block : Block)
  (doBlockUpdates_ : option bool) : M bool :=
  do dflt <- gets doBlockUpdates;
  let doBlockUpdates := default dflt doBlockUpdates_ in
  do result <- interface_placeBlocks [(position, block)] doBlockUpdates None;
  do r0 <- lift (worldLoader.list_getitem result 0);
  if negb (isnumeric r0) then
    eprint (WarnPlacingBlock result) ;; ret false
  else ret true.

(** [Editor._placeSingleBlockGlobalBuffered] *)
Definition _placeSingleBlockGlobalBuffered (position : ivec3) (block : Block)
  (doBlockUpdates_ : option bool) : M bool :=
  do dflt <- gets doBlockUpdates;
  let doBlockUpdates := default dflt doBlockUpdates_ in
  do flag <- gets bufferDoBlockUpdates;
  do len <- gets (fun st => Z.of_nat (length (buffer st)));
  do limit <- gets bufferLimit;
  (if negb (eqb doBlockUpdates flag) then
     sendBufferedBlocks default_retries ;;
     modify (set_bufferDoBlockUpdates doBlockUpdates)
   else if bool_decide (len >= limit) then
     sendBufferedBlocks default_retries
   else ret tt) ;;
  modify (fun st => set_buffer (dict_set (buffer st) position block) st) ;;
  ret true.

(** [blk not in replace], after a lone [str] has been wrapped in a list. *)
Definition replace_list (replace : ReplaceArg) : list string :=
  match replace with
  | ReplaceStr s => [s]
  | ReplaceList l => l
  end.

Definition block_in (block : Block) (l : list string) : bool :=
  existsb (block_eq_str block) l.

(** Lines 327-342 of [_placeSingleBlockGlobal]: the checks that end the
    call early with [True].  [None]: the placement is skipped;
    [Some b]: [b] is the chosen block to place. *)
Definition placement_checks (position : ivec3) (block : Block)
  (replace : option ReplaceArg) : M (option Block) :=
  do pass <-
    match replace with
    | None => ret true
    | Some r =>
        do current <- getBlockGlobal position true false;
        ret (block_in current (replace_list r))
    end;
  if negb pass then ret None
  else
    let block := chooseId block in
    if bool_decide (block_id block = ""%string) then ret None
    else
      do c <- gets caching;
      do same <-
        (if c : bool then
           do current <- getBlockGlobal position true false;
           ret (str_in_block (block_id block) current)
         else ret false);
      if same : bool then ret None else ret (Some block).

(** Lines 355-356. *)
Definition mark_decayed (position : ivec3) : M unit :=
  do slice <- gets worldSlice;
  match slice with
  | None => ret tt
  | Some ws =>
      if Rect_contains (ws_rect ws) (dropY position) then
        decay_setitem (decay_index ws position)
      else ret tt
  end.

(** Lines 344-358 of [_placeSingleBlockGlobal]. *)
Definition place_chosen (position : ivec3) (block : Block)
  (doBlockUpdates_ : option bool) : M bool :=
  do b <- gets buffering;
  do success <-
    (if b : bool then _placeSingleBlockGlobalBuffered position block doBlockUpdates_
     else _placeSingleBlockGlobalDirect position block doBlockUpdates_);
  if negb success then ret false
  else
    cache_store position block ;;
    mark_decayed position ;;
    ret true.

(** [Editor._placeSingleBlockGlobal] *)
Definition _placeSingleBlockGlobal (position : ivec3) (block : Block)
  (replace : option ReplaceArg) (doBlockUpdates_ : option bool) : M bool :=
  do chosen <- placement_checks position block replace;
  match chosen with
  | None => ret true
  | Some block => place_chosen position block doBlockUpdates_
  end.

(** The [buffering] property setter. *)
Definition buffering_setter (value : bool) : M unit :=
  do b <- gets buffering;
  (if (b && negb value)%bool then sendBufferedBlocks default_retries else ret tt) ;;
  modify (set_buffering value).

(** The [bufferLimit] property setter. *)
Definition bufferLimit_setter (value : Z) : M unit :=
  modify (set_bufferLimit value) ;;
  do len <- gets (fun st => Z.of_nat (length (buffer st)));
  if bool_decide (len >= value) then sendBufferedBlocks default_retries else ret tt.

(** The [doBlockUpdates] property setter. *)
Definition doBlockUpdates_setter (value : bool) : M unit :=
  modify (set_doBlockUpdates value).

(** [eagerAll(f(pos) for pos in position)]: every call is made. *)
Fixpoint eagerAll (f : ivec3 -> M bool) (l : list ivec3) : M bool :=
  match l with
  | [] => ret true
  | pos :: rest =>
      do r <- f pos;
      do rs <- eagerAll f rest;
      ret (r && rs)%bool
  end.

(** [Editor.placeBlockGlobal] *)
Definition placeBlockGlobal (position : PositionArg) (block : Block)
  (replace : option ReplaceArg) (doBlockUpdates_ : option bool) : M bool :=
  match position with
  | OnePosition p => _placeSingleBlockGlobal p block replace doBlockUpdates_
  | ManyPositions l =>
      do oldBuffering <- gets buffering;
      buffering_setter true ;;
      do success <-
        eagerAll (fun pos => _placeSingleBlockGlobal pos block replace doBlockUpdates_) l;
      buffering_setter oldBuffering ;;
      ret success
  end.

(** [Editor.runCommand] *)
Definition runCommand (command : string) (syncWithBuffer : bool) : M unit :=
  do b <- gets buffering;
  if (b && syncWithBuffer)%bool then
    modify (fun st => set_commandBuffer (commandBuffer st ++ [command]) st)
  else
    interface_runCommand command ;; ret tt.

(** [Editor.getBuildArea]; the build area is kept as its XZ rectangle. *)
Definition getBuildArea : M Rect :=
  do r <- interface_getBuildArea;
  if negb r.1 then raise RuntimeError else ret r.2.

(** [Editor.loadWorldSlice] *)
Definition loadWorldSlice (rect : option Rect) (cache : bool) : M WorldSlice :=
  do rect <-
    match rect with
    | None => getBuildArea
    | Some r => ret r
    end;
  do worldSlice_ <- new_WorldSlice rect;
  (if cache then
     modify (set_worldSlice (Some worldSlice_)) ;;
     let sz := addY (size (ws_rect worldSlice_)) BUILD_HEIGHT in
     do zeros <- lift (np_zeros3 sz.1.1 sz.1.2 sz.2);
     modify (set_worldSliceDecay (Some zeros))
   else ret tt) ;;
  ret worldSlice_.

(** [Editor.updateWorldSlice]: [loadWorldSlice] is called with the
    rectangle only, so [cache] takes its default, [False]. *)
Definition updateWorldSlice : M WorldSlice :=
  do slice <- gets worldSlice;
  match slice with
  | None => raise RuntimeError
  | Some ws => loadWorldSlice (Some (ws_rect ws)) false
  end.

(** The [caching] property setter. *)
Definition caching_setter (value : bool) : M unit :=
  modify (set_caching value).

Definition set_multithreading (v : bool) (e : Editor) : Editor :=
  let '(mkEditor a1 a2 a3 a4 a5 a6 _ a8 a9 a10 a11 a12 a13 a14) := e in
  mkEditor a1 a2 a3 a4 a5 a6 v a8 a9 a10 a11 a12 a13 a14.

(** The [multithreading] property setter called with [False], as
    [__del__] calls it: when multithreading is on, the executor is shut
    down with [wait=True] (the submitted tasks finish on their threads,
    outside this model, and stay listed in [_bufferFlushFutures]); then
    the flag is cleared. *)
Definition multithreading_setter_False : M unit :=
  modify (set_multithreading false).

(** [Editor.__del__] *)
Definition __del__ : M unit :=
  multithreading_setter_False ;;
  sendBufferedBlocks default_retries.

End Methods.

End editor.

(** ** editor_tools.py *)

Module editor_tools.

Import editor.

Section tools.
Context {Block WorldSlice Cache : Type}.
Context `{!Collaborators Block WorldSlice Cache}.

(** [(size - 1) // 2], component by component. *)
Definition radius_of (size : ivec3) : ivec3 :=
  ((size.1.1 - 1) / 2, (size.1.2 - 1) / 2, (size.2 - 1) / 2).

(** The command text of [centerBuildAreaOnPlayer]. *)
Definition setbuildarea_command (radius : ivec3) : string :=
  "execute at @p run setbuildarea "
  +:+ "~" +:+ str_of_int (- radius.1.1)
  +:+ " ~" +:+ str_of_int (- radius.1.2)
  +:+ " ~" +:+ str_of_int (- radius.2)
  +:+ " ~" +:+ str_of_int radius.1.1
  +:+ " ~" +:+ str_of_int radius.1.2
  +:+ " ~" +:+ str_of_int radius.2.

(** [centerBuildAreaOnPlayer(editor, size)]; [runCommand] is called
    without [syncWithBuffer], which is then [False]. *)
Definition centerBuildAreaOnPlayer (size : ivec3) : M Block WorldSlice Cache Rect :=
  let radius := radius_of size in
  runCommand (setbuildarea_command radius) false ;;
  getBuildArea.

End tools.

(** [getOptimalFacingDirection], lines 130 and 135-138: the choice among
    the four directions, given the array [obtrusivenesses] that lines
    131-134 build from the four neighbouring blocks. *)
Definition directions : list string := ["north"; "east"; "south"; "west"]%string.

Definition getOptimalFacingDirection (obtrusivenesses : list Z)
  : result (list string) :=
  (let! lowest := np_min obtrusivenesses in
   let candidates := np_nonzero (np_equal obtrusivenesses lowest) in
   let! oppositeObtrusivenesses :=
     take_each obtrusivenesses (map (fun c => (c + 2) mod 4) candidates) in
   let! highest := np_max oppositeObtrusivenesses in
   let! winners :=
     np_compress candidates (np_equal oppositeObtrusivenesses highest) in
   take_each directions winners)%result.

End editor_tools.

(** * Vocabulary of the statements *)

(** ** Loader *)

(** Where a cached section comes from: a section of the payload's chunk
    at the same place that was not skipped. *)
Definition section_origin (nbt : worldLoader.NBTFile) (cw : Z)
  (s : worldLoader.CachedSection) : Prop :=
  exists chunk section,
    worldLoader.chunk_at nbt (worldLoader.x s + worldLoader.z s * cw) = Ok chunk /\
    section ∈ worldLoader.chunk_sections chunk /\
    worldLoader.sec_Y section = worldLoader.y s /\
    worldLoader.section_is_empty section = false.

(** A cell of a 2D array, and its shape. *)
Definition cell (a : list (list Z)) (i k : nat) : option Z :=
  match a !! i with
  | Some row => row !! k
  | None => None
  end.

Definition has_shape (a : list (list Z)) (r c : nat) : Prop :=
  length a = r /\ Forall (fun row => length row = c) a.

(** The place of a cell write in the loop nest of the height-map
    decoding, after the write that carries the value of the column [i],
    [k] of the rectangle ([off] is [rectOffset]): the loops run over the
    chunk [x], the chunk [z], the row [cz] and the column [cx]. *)
Definition after_source (off : Z * Z) (i k : Z) (x z cz cx : Z) : Prop :=
  x > (i + off.1) / 16 \/
  (x = (i + off.1) / 16 /\
   (z > (k + off.2) / 16 \/
    (z = (k + off.2) / 16 /\
     (cz > (k + off.2) mod 16 \/
      (cz = (k + off.2) mod 16 /\ cx > (i + off.1) mod 16))))).

(** The array of the height-map [n] has the shape [r], [c]; its cell
    [i], [k] holds [val]. *)
Definition hm_shaped (n : string) (r c : nat)
  (hmaps : list (string * list (list Z))) : Prop :=
  exists a, dict_get hmaps n = Some a /\ has_shape a r c.

Definition hm_holds (n : string) (i k : nat)
  (hmaps : list (string * list (list Z))) (val : Z) : Prop :=
  exists a, dict_get hmaps n = Some a /\ cell a i k = Some val.

(** ** Loader: what a read of a loaded slice decodes *)

(** The section of a chunk of the payload that answers for the section
    height [cY]: the first one at that height that has block states. *)
Definition payload_section (chunk : worldLoader.ChunkNBT) (cY : Z)
  : option worldLoader.SectionNBT :=
  List.find
    (fun s =>
       (negb (worldLoader.section_is_empty s)
        && bool_decide (worldLoader.sec_Y s = cY))%bool)
    (worldLoader.chunk_sections chunk).

(** The palette entry that the block states of a payload section hold
    for a block position. *)
Definition decode_block (section : worldLoader.SectionNBT) (x y z : Z)
  : result worldLoader.BlockCompound :=
  (let! bs := worldLoader.getitem (worldLoader.sec_block_states section) in
   let! palette := worldLoader.getitem (worldLoader.bs_palette bs) in
   let! bits := worldLoader.blockPaletteBitsPerEntry (Z.of_nat (length palette)) in
   let! ba := bitarray.new bits (16 * 16 * 16) (worldLoader.bs_data bs) in
   let! i := bitarray.getAt ba
               ((y mod 16) * 16 * 16 + (z mod 16) * 16 + x mod 16) in
   worldLoader.list_getitem palette i)%result.

(** A cached section carries the block states of a payload section. *)
Definition holds_section (s : worldLoader.CachedSection)
  (section : worldLoader.SectionNBT) : Prop :=
  exists bs pal,
    worldLoader.sec_block_states section = Some bs /\
    worldLoader.bs_palette bs = Some pal /\
    1 <= Z.of_nat (length pal) /\
    worldLoader.blockPalette s = pal /\
    bitarray.new (Z.max 4 (Z.log2_up (Z.of_nat (length pal)))) (16 * 16 * 16)
      (worldLoader.bs_data bs) = Ok (worldLoader.blockStatesBitArray s).

(** ** Loader: payloads that can be loaded *)

(** Packed data fit a decoder of [n] elements of [bits] bits: they are
    absent, or they have exactly the words that the elements take. *)
Definition data_fits (bits n : Z) (data : option (list Z)) : Prop :=
  forall words, data = Some words ->
    Z.of_nat (length words) = bitarray.wordsNeeded bits n.

(** A section can be loaded: it is skipped, or it has a non-empty block
    palette and a non-empty biome palette, each with packed data that
    fit the palette's bit-width. *)
Definition section_ok (section : worldLoader.SectionNBT) : Prop :=
  worldLoader.section_is_empty section = true \/
  exists bs pal bio bpal,
    worldLoader.sec_block_states section = Some bs /\ worldLoader.bs_palette bs = Some pal /\ pal <> [] /\
    data_fits (Z.max 4 (Z.log2_up (Z.of_nat (length pal)))) (16 * 16 * 16)
      (worldLoader.bs_data bs) /\
    worldLoader.sec_biomes section = Some bio /\ worldLoader.bm_palette bio = Some bpal /\ bpal <> [] /\
    data_fits (Z.max 1 (Z.log2_up (Z.of_nat (length bpal)))) 64
      (worldLoader.bm_data bio).

(** A chunk can be loaded: it has every requested height-map, as packed
    data of 256 elements of 9 bits, and each of its sections can be
    loaded. *)
Definition chunk_ok (types : list string) (chunk : worldLoader.ChunkNBT) : Prop :=
  (forall n, n ∈ types ->
     exists raw, dict_get (worldLoader.Heightmaps chunk) n = Some raw /\
                 data_fits 9 (16 * 16) (Some raw)) /\
  Forall section_ok (worldLoader.chunk_sections chunk).

(** A payload can be loaded for a chunk rectangle: it has a chunk that
    can be loaded at every place of the rectangle. *)
Definition payload_ok (nbt : worldLoader.NBTFile) (cr : Z * Z * Z * Z) (types : list string)
  : Prop :=
  forall x z, 0 <= x < cr.1.2 -> 0 <= z < cr.2 ->
    exists chunk, worldLoader.chunk_at nbt (x + z * cr.1.2) = Ok chunk /\ chunk_ok types chunk.

(** A height-map dict has an array for every requested kind. *)
Definition has_types (types : list string) (hmaps : list (string * list (list Z)))
  : Prop :=
  forall n, n ∈ types -> is_Some (dict_get hmaps n).

(** A cell of the decay mask. *)
Definition mask_cell (m : list (list (list bool))) (i j k : nat) : option bool :=
  match m !! i with
  | Some plane =>
      match plane !! j with
      | Some row => row !! k
      | None => None
      end
  | None => None
  end.

(** ** Result tokens *)

(** The decimal writing of a numeral with at least one digit. *)
Definition nonneg_integer_syntax (t : string) : Prop :=
  exists d : Decimal.uint, d <> Decimal.Nil /\ NilEmpty.string_of_uint d = t.

(** Strings of decimal digits, and strings of ASCII characters. *)
Definition is_digit (c : Ascii.ascii) : bool :=
  let n := Ascii.nat_of_ascii c in
  (Nat.leb 48 n && Nat.leb n 57)%bool.

Fixpoint all_digits (s : string) : bool :=
  match s with
  | EmptyString => true
  | String c s' => (is_digit c && all_digits s')%bool
  end.

Fixpoint is_ascii (s : string) : bool :=
  match s with
  | EmptyString => true
  | String c s' => ((byte_of c <? 128) && is_ascii s')%bool
  end.

(** The one-character string of U+00B2, superscript two, in UTF-8. *)
Definition superscript_two : string :=
  String (Ascii.ascii_of_nat 194) (String (Ascii.ascii_of_nat 178) EmptyString).

(** ** Editor *)

Import editor.
Open Scope editor_scope.

Section vocabulary.
Context {Block WorldSlice Cache : Type}.
Context `{!Collaborators Block WorldSlice Cache}.
#[local] Abbreviation Editor := (Editor Block WorldSlice Cache).
#[local] Abbreviation M := (M Block WorldSlice Cache).

Definition rejected (response : list string) : list string :=
  List.filter (fun line => negb (isnumeric line)) response.

(** The state in which [flush] leaves the instance. *)
Definition flushed (retries : Z) (st : Editor) : Editor :=
  let st1 :=
    match buffer st with
    | [] => st
    | _ :: _ =>
        set_warnings
          (warnings st ++
             map WarnPlacingBufferedBlock
               (rejected (iface_placeBlocks (trace st) (buffer st)
                            (bufferDoBlockUpdates st) (Some retries))))
          (set_buffer []
             (set_trace
                (trace st ++ [EvPlaceBlocks (buffer st) (bufferDoBlockUpdates st)
                                (Some retries)]) st))
    end in
  match commandBuffer st1 with
  | [] => st1
  | _ :: _ =>
      set_warnings
        (warnings st1 ++
           map WarnSendingBufferedCommand
             (rejected (iface_runCommand (trace st1)
                          (String.concat newline (commandBuffer st1)))))
        (set_commandBuffer []
           (set_trace
              (trace st1 ++ [EvRunCommand (String.concat newline (commandBuffer st1))])
              st1))
  end.

(** The state in which [sendBufferedBlocks] leaves the instance. *)
Definition sent (retries : Z) (st : Editor) : Editor :=
  if multithreading st then
    set_commandBuffer []
      (set_buffer []
         (set_bufferFlushFutures
            (bufferFlushFutures st
               ++ [mkFlushTask (buffer st) (commandBuffer st) retries]) st))
  else flushed retries st.

Definition is_getBlocks (ev : Event Block) : Prop :=
  match ev with
  | EvGetBlocks _ _ _ => True
  | _ => False
  end.

(** What a read may change: the trace grows by [getBlocks] requests, the
    cache is touched only when caching is on, and nothing else moves. *)
Definition read_frame (st st' : Editor) : Prop :=
  set_cache (cache st) (set_trace (trace st) st') = st /\
  (exists reads, trace st' = trace st ++ reads /\ Forall is_getBlocks reads) /\
  (caching st = false -> cache st' = cache st).

(** The mask cell a read or a write at [position] looks at. *)
Definition decayed_at (st : Editor) (ws : WorldSlice) (position : ivec3) : result bool :=
  match worldSliceDecay st with
  | None => Raise TypeError
  | Some m =>
      let idx := decay_index ws position in
      np_getitem3 m idx.1.1 idx.1.2 idx.2
  end.

(** The source that answers a read, in the priority order of section
    4.7 of the specification. *)
Inductive Source : Type :=
| FromCache (block : Block) (cache' : Cache)
| FromBuffer (block : Block)
| FromSnapshot (ws : WorldSlice)
| FromNetwork.

(** What the lookup cache answers at the start of a read: a hit with
    the cache as the lookup leaves it, nothing when caching is off or the
    lookup raised the [TypeError] that the read lets pass, or the other
    exception of the lookup, which ends the read. *)
Definition cache_lookup (st : Editor) (position : ivec3)
  : result (option (Block * Cache)) :=
  if caching st then
    match cache_getitem (cache st) position with
    | Ok hit => Ok (Some hit)
    | Raise TypeError => Ok None
    | Raise e => Raise e
    end
  else Ok None.

Definition read_source (st : Editor) (position : ivec3) : result Source :=
  rbind (cache_lookup st position)
    (fun hit =>
       match hit with
       | Some (block, cache') => Ok (FromCache block cache')
       | None =>
           match (if buffering st then dict_get (buffer st) position else None) with
           | Some block => Ok (FromBuffer block)
           | None =>
               match worldSlice st with
               | Some ws =>
                   if Rect_contains (ws_rect ws) (dropY position) then
                     rbind (decayed_at st ws position)
                       (fun d => Ok (if d : bool then FromNetwork else FromSnapshot ws))
                   else Ok FromNetwork
               | None => Ok FromNetwork
               end
           end
       end).

(** The instance after the resolved block was put into the lookup cache
    (when caching is on). *)
Definition cached (position : ivec3) (block : Block) (st : Editor) : Editor :=
  if caching st then set_cache (cache_setitem (cache st) position block) st else st.

(** The flag a placement asks for:
    [if doBlockUpdates is None: doBlockUpdates = self.doBlockUpdates]. *)
Definition effective_flag (st : Editor) (doBlockUpdates_ : option bool) : bool :=
  default (doBlockUpdates st) doBlockUpdates_.

(** The state in which [_placeSingleBlockGlobalBuffered] leaves the
    instance. *)
Definition staged (position : ivec3) (block : Block)
  (doBlockUpdates_ : option bool) (st : Editor) : Editor :=
  let flag := effective_flag st doBlockUpdates_ in
  let st1 :=
    if negb (eqb flag (bufferDoBlockUpdates st)) then
      set_bufferDoBlockUpdates flag (sent default_retries st)
    else if bool_decide (Z.of_nat (length (buffer st)) >= bufferLimit st) then
      sent default_retries st
    else st in
  set_buffer (dict_set (buffer st1) position block) st1.

(** What the write path leaves alone besides the buffers, the trace and
    the warnings. *)
Definition keeps_slice_and_cache (st st' : Editor) : Prop :=
  worldSlice st' = worldSlice st /\ worldSliceDecay st' = worldSliceDecay st /\
  caching st' = caching st /\ cache st' = cache st.

(** A client of the write buffer: buffered placements, changes of the
    [doBlockUpdates] and [bufferLimit] properties, and explicit flushes. *)
Inductive BufferOp : Type :=
| OpPlace (position : ivec3) (block : Block) (doBlockUpdates_ : option bool)
| OpSetDoBlockUpdates (value : bool)
| OpSetBufferLimit (value : Z)
| OpSend (retries : Z).

Definition run_op (op : BufferOp) : M unit :=
  match op with
  | OpPlace position block doBlockUpdates_ =>
      _placeSingleBlockGlobalBuffered position block doBlockUpdates_ ;; ret tt
  | OpSetDoBlockUpdates value => doBlockUpdates_setter value
  | OpSetBufferLimit value => bufferLimit_setter value
  | OpSend retries => sendBufferedBlocks retries
  end.

Fixpoint run_ops (ops : list BufferOp) : M unit :=
  match ops with
  | [] => ret tt
  | op :: rest => run_op op ;; run_ops rest
  end.

(** Staging writes one at a time. *)
Definition stage_each (writes : list (ivec3 * Block))
  (doBlockUpdates_ : option bool) : M unit :=
  run_ops (map (fun w => OpPlace w.1 w.2 doBlockUpdates_) writes).

(** The batches of block writes handed to the interface. *)
Definition is_placeBlocks (ev : Event Block) : bool :=
  match ev with
  | EvPlaceBlocks _ _ _ => true
  | _ => false
  end.

Definition placeBlocks_events (tr : list (Event Block)) : list (Event Block) :=
  List.filter is_placeBlocks tr.

(** Provenance of buffered writes.  [flagOf] reads off a block the
    [doBlockUpdates] setting of the placement that staged it (a label the
    client attaches; the editor never inspects blocks on this path). *)
Definition all_labelled (flagOf : Block -> bool) (flag : bool)
  (blocks : list (ivec3 * Block)) : Prop :=
  Forall (fun e => flagOf e.2 = flag) blocks.

Definition buffer_uniform (flagOf : Block -> bool) (st : Editor) : Prop :=
  all_labelled flagOf (bufferDoBlockUpdates st) (buffer st).

Definition batch_uniform (flagOf : Block -> bool) (ev : Event Block) : Prop :=
  match ev with
  | EvPlaceBlocks blocks flag _ => all_labelled flagOf flag blocks
  | _ => True
  end.

Definition task_uniform (flagOf : Block -> bool) (task : FlushTask Block) : Prop :=
  exists flag, all_labelled flagOf flag (task_blockBuffer task).

Definition uniform (flagOf : Block -> bool) (st : Editor) : Prop :=
  buffer_uniform flagOf st /\
  Forall (batch_uniform flagOf) (trace st) /\
  Forall (task_uniform flagOf) (bufferFlushFutures st).

(** Every placement of the run stages a block labelled with the flag the
    placement asks for. *)
Fixpoint labelled (flagOf : Block -> bool) (ops : list BufferOp) (st : Editor)
  : Prop :=
  match ops with
  | [] => True
  | op :: rest =>
      match op with
      | OpPlace _ block doBlockUpdates_ =>
          flagOf block = effective_flag st doBlockUpdates_
      | _ => True
      end /\
      labelled flagOf rest (run_op op st).2
  end.

(** *** Calls of a client, and what holds between them *)

(** A call of a client on the editor. *)
Inductive Call : Type :=
| CallGetBlockGlobal (position : ivec3) (getBlockStates getBlockData : bool)
| CallPlaceBlockGlobal (position : PositionArg) (block : Block)
    (replace : option ReplaceArg) (doBlockUpdates_ : option bool)
| CallRunCommand (command : string) (syncWithBuffer : bool)
| CallSendBufferedBlocks (retries : Z)
| CallSetBuffering (value : bool)
| CallSetBufferLimit (value : Z)
| CallSetCaching (value : bool)
| CallSetDoBlockUpdates (value : bool)
| CallGetBuildArea
| CallLoadWorldSlice (rect : option Rect) (cache : bool)
| CallUpdateWorldSlice.

(** The instance after a call, whether the call returned or raised. *)
Definition after_call (st : Editor) (c : Call) : Editor :=
  match c with
  | CallGetBlockGlobal position gs gd => (getBlockGlobal position gs gd st).2
  | CallPlaceBlockGlobal position block replace dbu =>
      (placeBlockGlobal position block replace dbu st).2
  | CallRunCommand command syncWithBuffer => (runCommand command syncWithBuffer st).2
  | CallSendBufferedBlocks retries => (sendBufferedBlocks retries st).2
  | CallSetBuffering value => (buffering_setter value st).2
  | CallSetBufferLimit value => (bufferLimit_setter value st).2
  | CallSetCaching value => (caching_setter value st).2
  | CallSetDoBlockUpdates value => (doBlockUpdates_setter value st).2
  | CallGetBuildArea => (getBuildArea st).2
  | CallLoadWorldSlice rect cache => (loadWorldSlice rect cache st).2
  | CallUpdateWorldSlice => (updateWorldSlice st).2
  end.

Definition after_calls (st : Editor) (calls : list Call) : Editor :=
  foldl after_call st calls.

(** With buffering off nothing waits in the two buffers. *)
Definition nothing_pending (st : Editor) : Prop :=
  buffering st = false -> buffer st = [] /\ commandBuffer st = [].

(** The write buffer holds at most [bufferLimit] blocks, and at most one
    when the limit is below one. *)
Definition within_limit (st : Editor) : Prop :=
  Z.of_nat (length (buffer st)) <= Z.max 1 (bufferLimit st).

(** The shape of a decay mask. *)
Definition mask_shape (m : list (list (list bool))) (a b c : Z) : Prop :=
  Z.of_nat (length m) = a /\
  Forall (fun plane =>
            Z.of_nat (length plane) = b /\
            Forall (fun row => Z.of_nat (length row) = c) plane) m.

(** The decay mask is there exactly when a slice is cached, and has one
    cell for each block of the slice's rectangle over the build height. *)
Definition mask_matches_slice (st : Editor) : Prop :=
  match worldSlice st, worldSliceDecay st with
  | None, None => True
  | Some ws, Some m =>
      mask_shape m (size (ws_rect ws)).1 BUILD_HEIGHT (size (ws_rect ws)).2
  | _, _ => False
  end.

(** Slices of the host have a rectangle of non-negative size. *)
Definition slices_have_size : Prop :=
  0 <= BUILD_HEIGHT /\
  forall tr r ws, iface_WorldSlice tr r = Ok ws ->
    0 <= (size (ws_rect ws)).1 /\ 0 <= (size (ws_rect ws)).2.

(** A step that leaves [buffering] and [bufferLimit] as they are and
    keeps each of the three invariants. *)
Definition keeps (st st' : Editor) : Prop :=
  buffering st' = buffering st /\ bufferLimit st' = bufferLimit st /\
  (nothing_pending st -> nothing_pending st') /\
  (within_limit st -> within_limit st') /\
  (mask_matches_slice st -> mask_matches_slice st').

(** A step that keeps each of the three invariants. *)
Definition keeps_invariants (st st' : Editor) : Prop :=
  (nothing_pending st -> nothing_pending st') /\
  (within_limit st -> within_limit st') /\
  (mask_matches_slice st -> mask_matches_slice st').

(** Every lookup in the cache fails, with an exception that a read does
    not let pass: what an empty dict does, with its [KeyError]. *)
Definition every_lookup_fails (c : Cache) : Prop :=
  forall p, exists e, cache_getitem c p = Raise e /\ e <> TypeError.

(** *** What a run of placements hands to the interface *)

(** The dict that staging writes one after the other builds from an
    empty buffer. *)
Definition build (writes : list (ivec3 * Block)) : list (ivec3 * Block) :=
  foldl (fun d w => dict_set d w.1 w.2) [] writes.

(** The batches of blocks handed to the interface, oldest first. *)
Definition batches (tr : list (Event Block)) : list (list (ivec3 * Block)) :=
  omap (fun ev =>
          match ev with
          | EvPlaceBlocks blocks _ _ => Some blocks
          | _ => None
          end) tr.

End vocabulary.

(** ** Facing directions *)

(** The index of the direction opposite to the direction of index [i]. *)
Definition opposite (i : nat) : nat := (i + 2) mod 4.

(** No direction is less obtrusive than the direction [i]. *)
Definition least_obtrusive (o : list Z) (i : nat) : Prop :=
  exists v, o !! i = Some v /\ forall x, x ∈ o -> v <= x.

(** The direction [i] is among the least obtrusive ones, and none of
    these has a more obtrusive opposite. *)
Definition best_facing (o : list Z) (i : nat) : Prop :=
  least_obtrusive o i /\
  forall j x y,
    least_obtrusive o j -> o !! opposite j = Some x -> o !! opposite i = Some y ->
    x <= y.

(** * A concrete host, for the examples *)

Module demo.


(** A remote host for the examples: blocks are their identifiers; a write
    is accepted when the identifier is in the [minecraft:] namespace and
    rejected with an error line otherwise; a read returns the block last
    accepted at the position, air where there is none. *)
Definition Block : Type := string.

Fixpoint is_substring (s t : string) : bool :=
  (String.prefix s t
   || match t with
      | EmptyString => false
      | String _ t' => is_substring s t'
      end)%bool.

Definition accepted (b : Block) : bool := String.prefix "minecraft:" b.

Definition place_item (position : ivec3) (cur : Block) (item : ivec3 * Block)
  : Block :=
  if (bool_decide (item.1 = position) && accepted item.2)%bool then item.2 else cur.

Definition apply_event (position : ivec3) (cur : Block) (ev : Event Block) : Block :=
  match ev with
  | EvPlaceBlocks blocks _ _ => foldl (place_item position) cur blocks
  | _ => cur
  end.

Definition world_at (tr : list (Event Block)) (position : ivec3) : Block :=
  foldl (apply_event position) "minecraft:air" tr.

Definition token (item : ivec3 * Block) : string :=
  if accepted item.2 then "1" else "unknown block".

(** One chunk: height 70 at column (0, 0) and 100 at column (1, 0), 0
    elsewhere; one stone block at (0, 64, 0) in the section Y = 4, and a
    section Y = 5 without block states. *)
Definition hm_raw : list Z := (70 + 100 * 512) :: replicate 36 0.

Definition air : worldLoader.BlockCompound :=
  worldLoader.mkBlockCompound "minecraft:air" [].
Definition stone : worldLoader.BlockCompound :=
  worldLoader.mkBlockCompound "minecraft:stone" [].

Definition section4 : worldLoader.SectionNBT :=
  worldLoader.mkSectionNBT 4
    (Some (worldLoader.mkBlockStatesNBT (Some [air; stone])
             (Some (1 :: replicate 255 0))))
    (Some (worldLoader.mkBiomesNBT (Some ["minecraft:plains"]) None)).

Definition section5 : worldLoader.SectionNBT :=
  worldLoader.mkSectionNBT 5 None
    (Some (worldLoader.mkBiomesNBT (Some ["minecraft:plains"]) None)).

Definition chunk0 : worldLoader.ChunkNBT :=
  worldLoader.mkChunkNBT
    [("MOTION_BLOCKING", hm_raw); ("MOTION_BLOCKING_NO_LEAVES", hm_raw);
     ("OCEAN_FLOOR", hm_raw); ("WORLD_SURFACE", hm_raw)]
    [section4; section5].

Definition nbt : worldLoader.NBTFile := worldLoader.mkNBTFile [chunk0].

Definition getChunks (cr : Z * Z * Z * Z) : worldLoader.NBTFile := nbt.

Definition Cache : Type := utility.OrderedByLookupDict ivec3 Block.

#[export] Instance collaborators : Collaborators Block worldLoader.WorldSlice Cache := {|
  BUILD_Y_MIN := -64;
  BUILD_HEIGHT := 384;
  block_id := fun b => b;
  chooseId := fun b => b;
  block_eq_str := fun b s => bool_decide (b = s);
  str_in_block := is_substring;
  fromBlockCompound := fun c =>
    match c with
    | Some c => Ok (worldLoader.Name c)
    | None => Ok "minecraft:void_air"
    end;
  cache_getitem := utility.getitem;
  cache_setitem := utility.setitem;
  ws_rect := fun ws =>
    mkRect ((worldLoader.rect ws).1.1.1, (worldLoader.rect ws).1.1.2)
      ((worldLoader.rect ws).1.2, (worldLoader.rect ws).2);
  ws_getBlockCompoundAt := fun ws p =>
    worldLoader.getBlockCompoundAt ws p.1.1 p.1.2 p.2;
  iface_getBlocks := fun tr position _ _ => [(position, world_at tr position)];
  iface_placeBlocks := fun _ blocks _ _ => map token blocks;
  iface_runCommand := fun _ _ => ["1"];
  iface_getBuildArea := fun _ => (true, mkRect (0, 0) (1, 1));
  iface_WorldSlice := fun _ r =>
    worldLoader.WorldSlice_init getChunks (offset r).1 (offset r).2
      ((offset r).1 + (size r).1) ((offset r).2 + (size r).2) None
|}.

(** The same host, refusing a rectangle of negative size. *)
Definition sized_collaborators : Collaborators Block worldLoader.WorldSlice Cache := {|
  BUILD_Y_MIN := -64;
  BUILD_HEIGHT := 384;
  block_id := fun b => b;
  chooseId := fun b => b;
  block_eq_str := fun b s => bool_decide (b = s);
  str_in_block := is_substring;
  fromBlockCompound := fun c =>
    match c with
    | Some c => Ok (worldLoader.Name c)
    | None => Ok "minecraft:void_air"
    end;
  cache_getitem := utility.getitem;
  cache_setitem := utility.setitem;
  ws_rect := fun ws =>
    mkRect ((worldLoader.rect ws).1.1.1, (worldLoader.rect ws).1.1.2)
      ((worldLoader.rect ws).1.2, (worldLoader.rect ws).2);
  ws_getBlockCompoundAt := fun ws p =>
    worldLoader.getBlockCompoundAt ws p.1.1 p.1.2 p.2;
  iface_getBlocks := fun tr position _ _ => [(position, world_at tr position)];
  iface_placeBlocks := fun _ blocks _ _ => map token blocks;
  iface_runCommand := fun _ _ => ["1"];
  iface_getBuildArea := fun _ => (true, mkRect (0, 0) (1, 1));
  iface_WorldSlice := fun _ r =>
    if decide (0 <= (size r).1 /\ 0 <= (size r).2) then
      worldLoader.WorldSlice_init getChunks (offset r).1 (offset r).2
        ((offset r).1 + (size r).1) ((offset r).2 + (size r).2) None
    else Raise ValueError
|}.

Definition Editor : Type := editor.Editor Block worldLoader.WorldSlice Cache.

(** [Editor(buffering=..., bufferLimit=..., caching=...)] *)
Definition new_Editor (buffering : bool) (bufferLimit : Z) (caching : bool) : Editor :=
  mkEditor buffering bufferLimit [] [] caching
    (utility.mkOrderedByLookupDict 8192 []) false [] true true None None [] [].

Definition region : Rect := mkRect (0, 0) (1, 1).

(** An editor that has cached the slice of [region]. *)
Definition with_slice (st : Editor) : Editor :=
  (loadWorldSlice (Some region) true st).2.

(** A labelling of blocks by the [doBlockUpdates] setting they are placed
    with: the client of the examples places sand with block updates and
    everything else without. *)
Definition sand_updates (b : Block) : bool := bool_decide (b = "minecraft:sand").

End demo.

(** * Properties *)

(** ** Loops *)

Section for_each_facts.
Context {A S : Type}.
Implicit Types (l : list A) (body : S -> A -> result S).

Lemma for_each_app l1 l2 body s :
  for_each (l1 ++ l2) body s = rbind (for_each l1 body s) (for_each l2 body).
Proof.
  revert s. induction l1 as [|v l1 IH]; intros s; simpl; [reflexivity|].
  destruct (body s v); simpl; [apply IH | reflexivity].
Qed.

Lemma for_each_inv (P : S -> Prop) l body s s' :
  (forall t v t', v ∈ l -> P t -> body t v = Ok t' -> P t') ->
  P s -> for_each l body s = Ok s' -> P s'.
Proof.
  revert s. induction l as [|v l IH]; intros s Hstep Hs Hrun; simpl in Hrun.
  - congruence.
  - destruct (body s v) as [t|] eqn:Eb; simpl in Hrun; [|discriminate].
    apply (IH t); [| |exact Hrun].
    + intros t0 v0 t0' Hin. apply Hstep. by right.
    + eapply Hstep; [|exact Hs|exact Eb]. by left.
Qed.

(** A loop over a list in which the element [h] occurs: [I] is kept by
    every iteration, an iteration on [h] establishes [Q], and the
    iterations on other elements keep [Q]. *)
Lemma for_each_elem_hit `{EqDecision A} (I Q : S -> Prop) (h : A) l body s s' :
  (forall t v t', v ∈ l -> I t -> body t v = Ok t' -> I t') ->
  (forall t t', I t -> body t h = Ok t' -> Q t') ->
  (forall t v t', v ∈ l -> v <> h -> I t -> Q t -> body t v = Ok t' -> Q t') ->
  h ∈ l -> I s -> for_each l body s = Ok s' -> I s' /\ Q s'.
Proof.
  intros HI Hhit Hkeep Hin Hs Hrun.
  split; [eapply for_each_inv; eauto|].
  assert (Hor : Q s \/ h ∈ l) by (by right). clear Hin.
  revert s Hs Hrun HI Hkeep Hor.
  induction l as [|v l IH]; intros s Hs Hrun HI Hkeep Hor.
  - destruct Hor as [Hq|Hin]; [|by apply elem_of_nil in Hin].
    simpl in Hrun. congruence.
  - simpl in Hrun.
    destruct (body s v) as [t|] eqn:Eb; simpl in Hrun; [|discriminate].
    assert (It : I t) by (eapply HI; [by left|exact Hs|exact Eb]).
    apply (IH t); [exact It|exact Hrun| | |].
    + intros; eapply HI; eauto. by right.
    + intros; eapply Hkeep; eauto. by right.
    + destruct (decide (v = h)) as [->|Hne]; [left; apply (Hhit s t); [exact Hs|exact Eb]|].
      destruct Hor as [Hq|Hin].
      * left. eapply (Hkeep s v t); [by left|exact Hne|exact Hs|exact Hq|exact Eb].
      * right. apply elem_of_cons in Hin as [->|]; done.
Qed.
End for_each_facts.

(** The same for [range(n)], where the iterations after [h] are the
    larger indices. *)
Lemma for_each_range_hit {S : Type} (I Q : S -> Prop) (n h : Z)
  (body : S -> Z -> result S) (s s' : S) :
  0 <= h < n ->
  (forall t v t', 0 <= v < n -> I t -> body t v = Ok t' -> I t') ->
  (forall t t', I t -> body t h = Ok t' -> Q t') ->
  (forall t v t', h < v < n -> I t -> Q t -> body t v = Ok t' -> Q t') ->
  I s -> for_each (range n) body s = Ok s' -> I s' /\ Q s'.
Proof.
  intros Hh HI Hhit Hkeep Hs Hrun.
  unfold range in *.
  replace n with (h + (1 + (n - h - 1))) in Hrun by lia.
  rewrite seqZ_app, (seqZ_app _ 1) in Hrun by lia.
  rewrite for_each_app in Hrun.
  destruct (for_each (seqZ 0 h) body s) as [t|] eqn:E1; cbn [rbind] in Hrun; [|discriminate].
  rewrite for_each_app in Hrun.
  assert (It : I t).
  { eapply (for_each_inv I); [|exact Hs|exact E1].
    intros u v u' Hv. apply HI. apply elem_of_seqZ in Hv. lia. }
  change (seqZ (0 + h) 1) with [0 + h] in Hrun. cbn [for_each rbind] in Hrun.
  replace (0 + h) with h in Hrun by lia.
  destruct (body t h) as [t1|] eqn:E2; cbn [rbind] in Hrun; [|discriminate].
  assert (It1 : I t1) by (eapply (HI t h); [lia|exact It|exact E2]).
  assert (Qt1 : Q t1) by (apply (Hhit t t1); [exact It|exact E2]).
  eapply (for_each_inv (fun u => I u /\ Q u)); [| |exact Hrun]; [|done].
  intros u v u' Hv [Iu Qu] Hb. apply elem_of_seqZ in Hv. split.
  - eapply (HI u v); [lia|done|done].
  - eapply (Hkeep u v); [lia|done|done|done].
Qed.

Lemma for_each_range_inv {S : Type} (P : S -> Prop) (n : Z)
  (body : S -> Z -> result S) (s s' : S) :
  (forall t v t', 0 <= v < n -> P t -> body t v = Ok t' -> P t') ->
  P s -> for_each (range n) body s = Ok s' -> P s'.
Proof.
  intros HP. apply for_each_inv. intros t v t' Hv.
  apply HP. apply elem_of_seqZ in Hv. lia.
Qed.

(** ** Loader: sections *)

Import bitarray worldLoader.

(** The decoder that [new] builds is the record of its arguments. *)
Lemma new_cases bits n data :
  (exists e, new bits n data = Raise e) \/
  new bits n data = Ok (mkBitArray bits n (default [] data)).
Proof.
  unfold new. destruct data as [words|]; [|by right].
  destruct (decide _); [by right|left; by eexists].
Qed.

Lemma new_Ok bits n data ba :
  new bits n data = Ok ba ->
  ba = mkBitArray bits n (default [] data) /\ data_fits bits n data.
Proof.
  unfold new, data_fits. destruct data as [words|].
  - destruct (decide _) as [Hl|]; [|discriminate]. intros [= <-].
    split; [done|]. by intros ? [= <-].
  - intros [= <-]. split; [done|]. discriminate.
Qed.

Lemma new_fits bits n data :
  data_fits bits n data -> new bits n data = Ok (mkBitArray bits n (default [] data)).
Proof.
  unfold new, data_fits. destruct data as [words|]; [|done].
  intros H. by rewrite decide_True by by apply H.
Qed.

Lemma load_section_cases x z secs section secs' :
  load_section x z secs section = Ok secs' ->
  (section_is_empty section = true /\ secs' = secs) \/
  exists bs pal bio bpal,
    section_is_empty section = false /\
    sec_block_states section = Some bs /\
    bs_palette bs = Some pal /\ sec_biomes section = Some bio /\
    bm_palette bio = Some bpal /\
    1 <= Z.of_nat (length pal) /\ 1 <= Z.of_nat (length bpal) /\
    secs' = secs ++ [mkCachedSection x (sec_Y section) z pal
       (mkBitArray (Z.max 4 (Z.log2_up (Z.of_nat (length pal)))) (16*16*16)
          (default [] (bs_data bs)))
       bpal
       (mkBitArray (Z.max 1 (Z.log2_up (Z.of_nat (length bpal)))) 64
          (default [] (bm_data bio)))] /\
    data_fits (Z.max 4 (Z.log2_up (Z.of_nat (length pal)))) (16*16*16) (bs_data bs) /\
    data_fits (Z.max 1 (Z.log2_up (Z.of_nat (length bpal)))) 64 (bm_data bio).
Proof.
  unfold load_section. intros H.
  destruct (section_is_empty section) eqn:Ee; [left; split; congruence|].
  right.
  destruct (sec_block_states section) as [bs|]; simpl in H; [|discriminate].
  destruct (bs_palette bs) as [pal|] eqn:Epal; simpl in H; [|discriminate].
  unfold blockPaletteBitsPerEntry, biomesBitsPerEntry, ceil_log2 in H.
  destruct (decide (Z.of_nat (length pal) <= 0)); simpl in H; [discriminate|].
  destruct (new (Z.max 4 (Z.log2_up (Z.of_nat (length pal)))) (16 * 16 * 16)
              (bs_data bs)) as [ba|] eqn:Eba; simpl in H; [|discriminate].
  apply new_Ok in Eba as [-> Hfb].
  destruct (sec_biomes section) as [bio|]; simpl in H; [|discriminate].
  destruct (bm_palette bio) as [bpal|] eqn:Ebp; simpl in H; [|discriminate].
  destruct (decide (Z.of_nat (length bpal) <= 0)); simpl in H; [discriminate|].
  destruct (new (Z.max 1 (Z.log2_up (Z.of_nat (length bpal)))) 64
              (bm_data bio)) as [bm|] eqn:Ebm; simpl in H; [|discriminate].
  apply new_Ok in Ebm as [-> Hfm].
  exists bs, pal, bio, bpal. repeat split; try done; try lia.
  congruence.
Qed.

Lemma ceil_log2_least (p : Z) :
  1 <= p ->
  0 <= Z.log2_up p /\ p <= 2 ^ Z.log2_up p /\
  (forall k, 0 <= k -> p <= 2 ^ k -> Z.log2_up p <= k).
Proof.
  intros Hp. split; [apply Z.log2_up_nonneg|]. split.
  - destruct (Z.eq_dec p 1) as [->|Hne]; [reflexivity|].
    apply Z.log2_up_spec. lia.
  - intros k Hk Hle.
    destruct (Z.eq_dec p 1) as [->|Hne]; [rewrite Z.log2_up_1; lia|].
    apply Z.log2_up_le_pow2; lia.
Qed.

(** C8: a section of the payload is left out exactly when it has no
    block states; every other section that is loaded is built from the
    payload's two palettes, and a palette of size [p] gets the bit-width
    [max(minWidth, ceil(log2(p)))], with [minWidth = 4] for the block
    palette and [minWidth = 1] for the biome palette, where
    [ceil(log2(p))] is the least [k] with [p <= 2^k]; a palette of size 1
    gets [minWidth]. *)
Theorem section_bit_widths (x z : Z) (secs secs' : list CachedSection)
  (section : SectionNBT) :
  load_section x z secs section = Ok secs' ->
  (section_is_empty section = true /\ secs' = secs) \/
  (section_is_empty section = false /\
   exists s bs bio,
    secs' = secs ++ [s] /\
    sec_block_states section = Some bs /\ bs_palette bs = Some (blockPalette s) /\
    sec_biomes section = Some bio /\ bm_palette bio = Some (biomesPalette s) /\
    let p := Z.of_nat (length (blockPalette s)) in
    let q := Z.of_nat (length (biomesPalette s)) in
    1 <= p /\ 1 <= q /\
    blockPaletteBitsPerEntry p = Ok (bitsPerEntry (blockStatesBitArray s)) /\
    biomesBitsPerEntry q = Ok (bitsPerEntry (biomesBitArray s)) /\
    bitsPerEntry (blockStatesBitArray s) = Z.max 4 (Z.log2_up p) /\
    bitsPerEntry (biomesBitArray s) = Z.max 1 (Z.log2_up q) /\
    (p <= 2 ^ Z.log2_up p /\ forall k, 0 <= k -> p <= 2 ^ k -> Z.log2_up p <= k) /\
    (q <= 2 ^ Z.log2_up q /\ forall k, 0 <= k -> q <= 2 ^ k -> Z.log2_up q <= k) /\
    (p = 1 -> bitsPerEntry (blockStatesBitArray s) = 4) /\
    (q = 1 -> bitsPerEntry (biomesBitArray s) = 1)).
Proof.
  intros H.
  apply load_section_cases in H
    as [[He ->]|(bs & pal & bio & bpal & He & Hbs & Hpal & Hbio & Hbpal & Hp & Hq & -> & _)];
    [by left|right].
  split; [exact He|].
  eexists _, bs, bio. split; [reflexivity|]. cbv zeta. cbn [blockPalette biomesPalette
    blockStatesBitArray biomesBitArray bitsPerEntry].
  do 4 (split; [done|]).
  destruct (ceil_log2_least _ Hp) as (_ & Hp1 & Hp2).
  destruct (ceil_log2_least _ Hq) as (_ & Hq1 & Hq2).
  unfold blockPaletteBitsPerEntry, biomesBitsPerEntry, ceil_log2.
  rewrite !decide_False by lia. cbn [rbind].
  repeat split; try done.
  - intros ->. reflexivity.
  - intros ->. reflexivity.
Qed.

Lemma load_sections_origin nbt cr secs :
  load_sections nbt cr = Ok secs ->
  Forall (section_origin nbt cr.1.2) secs.
Proof.
  unfold load_sections. intros H.
  eapply (for_each_inv (Forall (section_origin nbt cr.1.2))); [| |exact H]; [|constructor].
  intros t cx t' _ Ht Hrow.
  eapply (for_each_inv (Forall (section_origin nbt cr.1.2))); [|exact Ht|exact Hrow].
  clear. intros t cz t' _ Ht Hchunk.
  unfold load_chunk_sections in Hchunk.
  destruct (chunk_at nbt (cx + cz * cr.1.2)) as [chunk|] eqn:Ec; simpl in Hchunk; [|discriminate].
  eapply (for_each_inv (Forall (section_origin nbt cr.1.2))); [|exact Ht|exact Hchunk].
  intros u section u' Hin Hu Hsec.
  apply load_section_cases in Hsec as [[_ ->]|(bs & pal & bio & bpal & He & _ & _ & _ & _ & _ & _ & -> & _)]; [exact Hu|].
  apply Forall_app. split; [exact Hu|].
  constructor; [|constructor].
  exists chunk, section. simpl. done.
Qed.

Lemma find_section_none secs cX cY cZ :
  (forall s, s ∈ secs -> ~ (x s = cX /\ y s = cY /\ z s = cZ)) ->
  find_section secs cX cY cZ = None.
Proof.
  induction secs as [|s secs IH]; intros H; [reflexivity|].
  unfold find_section. simpl. rewrite bool_decide_eq_false_2.
  - apply IH. intros s' Hs'. apply H. by right.
  - apply H. by left.
Qed.

Lemma getBlockCompoundAt_no_section ws x y z :
  find_section (sections ws)
    (Z.shiftr x 4 - (chunkRect ws).1.1.1) (Z.shiftr y 4)
    (Z.shiftr z 4 - (chunkRect ws).1.1.2) = None ->
  getBlockCompoundAt ws x y z = Ok None /\
  getBlockAt ws x y z = Ok "minecraft:void_air"%string.
Proof.
  intros H. unfold getBlockAt, getBlockCompoundAt. rewrite H. done.
Qed.

Lemma WorldSlice_init_fields getChunks x1 z1 x2 z2 types ws :
  WorldSlice_init getChunks x1 z1 x2 z2 types = Ok ws ->
  rect ws = make_rect x1 z1 x2 z2 /\
  chunkRect ws = make_chunkRect (rect ws) /\
  nbtfile ws = getChunks (chunkRect ws) /\
  heightmapTypes ws = default default_heightmapTypes types /\
  load_sections (nbtfile ws) (chunkRect ws) = Ok (sections ws) /\
  exists hm0,
    init_heightmaps (rect ws) (heightmapTypes ws) = Ok hm0 /\
    load_heightmaps (nbtfile ws) (chunkRect ws) (heightmapTypes ws)
      ((rect ws).1.1.1 mod 16, (rect ws).1.1.2 mod 16) hm0 = Ok (heightmaps ws).
Proof.
  unfold WorldSlice_init. intros H.
  destruct (init_heightmaps _ _) as [hm0|] eqn:E0; simpl in H; [|discriminate].
  destruct (load_heightmaps _ _ _ _ _) as [hm|] eqn:E1; simpl in H; [|discriminate].
  destruct (load_sections _ _) as [secs|] eqn:E2; simpl in H; [|discriminate].
  injection H as <-. simpl. repeat split; try done. eauto.
Qed.

(** C9: for a coordinate whose chunk section was left out of the slice
    (every section of the payload at that place has no block states),
    [getBlockCompoundAt] answers [None] ("no data", not an air
    compound) and [getBlockAt] answers ["minecraft:void_air"]; neither
    raises. *)
Theorem omitted_section_reads_void getChunks x1 z1 x2 z2 types ws (x y z : Z) :
  WorldSlice_init getChunks x1 z1 x2 z2 types = Ok ws ->
  (forall chunk section,
     chunk_at (nbtfile ws)
       ((Z.shiftr x 4 - (chunkRect ws).1.1.1)
        + (Z.shiftr z 4 - (chunkRect ws).1.1.2) * (chunkRect ws).1.2) = Ok chunk ->
     section ∈ chunk_sections chunk ->
     sec_Y section = Z.shiftr y 4 ->
     section_is_empty section = true) ->
  getBlockCompoundAt ws x y z = Ok None /\
  getBlockAt ws x y z = Ok "minecraft:void_air"%string.
Proof.
  intros Hinit Hempty.
  apply WorldSlice_init_fields in Hinit as (_ & _ & _ & _ & Hsecs & _).
  apply load_sections_origin in Hsecs.
  apply getBlockCompoundAt_no_section, find_section_none.
  intros s Hs (Hx & Hy & Hz).
  rewrite Forall_forall in Hsecs.
  destruct (Hsecs s Hs) as (chunk & section & Hc & Hin & HY & Hne).
  rewrite Hx, Hz in Hc. rewrite Hy in HY.
  rewrite (Hempty chunk section Hc Hin HY) in Hne. discriminate.
Qed.

(** ** Loader: height-maps *)

Lemma np_index_Ok n idx p :
  np_index n idx = Ok p ->
  (p < n)%nat /\ (idx = Z.of_nat p \/ idx = Z.of_nat p - Z.of_nat n).
Proof.
  unfold np_index. intros H.
  destruct (decide (0 <= idx < Z.of_nat n)).
  - injection H as <-. lia.
  - destruct (decide (- Z.of_nat n <= idx < 0)); [|discriminate].
    injection H as <-. lia.
Qed.

Lemma np_index_Raise n idx e : np_index n idx = Raise e -> e = IndexError.
Proof.
  unfold np_index. intros H.
  destruct (decide (0 <= idx < Z.of_nat n)); [discriminate|].
  destruct (decide (- Z.of_nat n <= idx < 0)); [discriminate|]. congruence.
Qed.

Lemma getAt_Raise ba i e : getAt ba i = Raise e -> e = IndexError.
Proof.
  unfold getAt. intros H.
  destruct (decide (0 <= i < arraySize ba)); [|congruence].
  destruct (longArray ba !! _); [discriminate|congruence].
Qed.

Lemma np_setitem2_Raise a i j v e : np_setitem2 a i j v = Raise e -> e = IndexError.
Proof.
  unfold np_setitem2. intros H.
  destruct (np_index (length a) i) as [p|e1] eqn:E1; simpl in H;
    [|apply np_index_Raise in E1; congruence].
  destruct (a !! p) as [row|]; [|congruence].
  destruct (np_index (length row) j) as [q|e2] eqn:E2; simpl in H;
    [discriminate|apply np_index_Raise in E2; congruence].
Qed.

Lemma np_setitem2_Ok a r c i j v a' :
  has_shape a r c ->
  np_setitem2 a i j v = Ok a' ->
  exists p q,
    np_index r i = Ok p /\ np_index c j = Ok q /\ has_shape a' r c /\
    forall p' q', cell a' p' q' = if decide (p' = p /\ q' = q) then Some v else cell a p' q'.
Proof.
  intros [Hr Hc] H. unfold np_setitem2 in H. rewrite Hr in H.
  destruct (np_index r i) as [p|] eqn:E1; simpl in H; [|discriminate].
  destruct (a !! p) as [row|] eqn:Erow; [|discriminate].
  assert (Hlen : length row = c).
  { rewrite Forall_forall in Hc. apply Hc. eapply list_elem_of_lookup_2, Erow. }
  rewrite Hlen in H.
  destruct (np_index c j) as [q|] eqn:E2; simpl in H; [|discriminate].
  injection H as <-.
  exists p, q. split; [done|]. split; [done|].
  apply np_index_Ok in E1 as [Hp _]. apply np_index_Ok in E2 as [Hq _].
  split.
  - split; [by rewrite length_insert|].
    apply Forall_insert; [exact Hc|]. by rewrite length_insert.
  - intros p' q'. unfold cell.
    destruct (decide (p' = p)) as [->|Hne].
    + rewrite list_lookup_insert_eq by lia. rewrite Erow.
      destruct (decide (q' = q)) as [->|Hne'].
      * rewrite list_lookup_insert_eq by lia. by rewrite decide_True.
      * rewrite list_lookup_insert_ne by done. rewrite decide_False; [done|]. intros [_ ?]; done.
    + rewrite list_lookup_insert_ne by done. rewrite decide_False; [done|]. intros [? _]; done.
Qed.

Lemma store_height_Ok off x z ba cz hm cx r c hm' :
  has_shape hm r c ->
  store_height off x z ba cz hm cx = Ok hm' ->
  has_shape hm' r c /\
  (forall p q,
     ~ (np_index r (- off.1 + x * 16 + cx) = Ok p /\
        np_index c (- off.2 + z * 16 + cz) = Ok q) ->
     cell hm' p q = cell hm p q) /\
  (forall v p q,
     getAt ba (cz * 16 + cx) = Ok v ->
     np_index r (- off.1 + x * 16 + cx) = Ok p ->
     np_index c (- off.2 + z * 16 + cz) = Ok q ->
     cell hm' p q = Some (v - 64)).
Proof.
  intros Hsh H. unfold store_height in H.
  destruct (getAt ba (cz * 16 + cx)) as [v|e] eqn:Eg; simpl in H.
  - destruct (np_setitem2 hm _ _ _) as [a'|e] eqn:Es.
    + injection H as <-.
      destruct (np_setitem2_Ok _ _ _ _ _ _ _ Hsh Es) as (p & q & Ep & Eq & Hsh' & Hcell).
      split; [done|]. split.
      * intros p' q' Hn. rewrite Hcell. rewrite decide_False; [done|].
        intros [-> ->]. apply Hn. done.
      * intros v' p' q' Hv Hp Hq. rewrite Hcell.
        assert (p' = p) as -> by congruence. assert (q' = q) as -> by congruence.
        rewrite decide_True by done. congruence.
    + assert (e = IndexError) as -> by (eapply np_setitem2_Raise; exact Es).
      injection H as <-.
      split; [done|]. split; [done|].
      intros v' p q Hv Hp Hq. exfalso.
      unfold np_setitem2 in Es. destruct Hsh as [Hr Hc]. rewrite Hr, Hp in Es. simpl in Es.
      apply np_index_Ok in Hp as [Hp _].
      destruct (hm !! p) as [row|] eqn:Erow.
      * assert (Hlen : length row = c).
        { rewrite Forall_forall in Hc. apply Hc. eapply list_elem_of_lookup_2, Erow. }
        rewrite Hlen, Hq in Es. discriminate.
      * apply lookup_ge_None in Erow. lia.
  - apply getAt_Raise in Eg as ->. injection H as <-.
    split; [done|]. split; [done|]. intros; discriminate.
Qed.

Section heightmap_cell.
Variables (off : Z * Z) (w d i k : Z).
Hypothesis Hox : 0 <= off.1 < 16.
Hypothesis Hoz : 0 <= off.2 < 16.
Hypothesis Hi : 0 <= i < w.
Hypothesis Hk : 0 <= k < d.

#[local] Abbreviation r := (Z.to_nat (w + 1)).
#[local] Abbreviation c := (Z.to_nat (d + 1)).
#[local] Abbreviation xs := ((i + off.1) / 16).
#[local] Abbreviation cxs := ((i + off.1) mod 16).
#[local] Abbreviation zs := ((k + off.2) / 16).
#[local] Abbreviation czs := ((k + off.2) mod 16).
#[local] Abbreviation target a := (cell a (Z.to_nat i) (Z.to_nat k)).
#[local] Abbreviation after_source := (after_source off i k).

Lemma row_index_hit x cx :
  0 <= x -> 0 <= cx < 16 ->
  np_index r (- off.1 + x * 16 + cx) = Ok (Z.to_nat i) ->
  (x = xs /\ cx = cxs) \/ x * 16 + cx < xs * 16 + cxs.
Proof.
  intros Hx Hcx H. apply np_index_Ok in H as [_ H].
  Z.div_mod_to_equations. lia.
Qed.

Lemma col_index_hit z cz :
  0 <= z -> 0 <= cz < 16 ->
  np_index c (- off.2 + z * 16 + cz) = Ok (Z.to_nat k) ->
  (z = zs /\ cz = czs) \/ z * 16 + cz < zs * 16 + czs.
Proof.
  intros Hz Hcz H. apply np_index_Ok in H as [_ H].
  Z.div_mod_to_equations. lia.
Qed.

Lemma source_index_hit :
  np_index r (- off.1 + xs * 16 + cxs) = Ok (Z.to_nat i) /\
  np_index c (- off.2 + zs * 16 + czs) = Ok (Z.to_nat k).
Proof.
  unfold np_index. split.
  - rewrite decide_True by (Z.div_mod_to_equations; lia).
    f_equal. f_equal. Z.div_mod_to_equations. lia.
  - rewrite decide_True by (Z.div_mod_to_equations; lia).
    f_equal. f_equal. Z.div_mod_to_equations. lia.
Qed.

Lemma after_source_misses x z cz cx :
  0 <= x -> 0 <= z -> 0 <= cz < 16 -> 0 <= cx < 16 ->
  after_source x z cz cx ->
  ~ (np_index r (- off.1 + x * 16 + cx) = Ok (Z.to_nat i) /\
     np_index c (- off.2 + z * 16 + cz) = Ok (Z.to_nat k)).
Proof.
  intros Hx Hz Hcz Hcx Hafter [Hr Hc].
  apply row_index_hit in Hr; [|done..]. apply col_index_hit in Hc; [|done..].
  unfold after_source in Hafter.
  assert (0 <= cxs < 16) by (apply Z.mod_pos_bound; lia).
  assert (0 <= czs < 16) by (apply Z.mod_pos_bound; lia).
  lia.
Qed.

Lemma decode_row_cell x z ba hm cz hm' :
  0 <= x -> 0 <= z -> 0 <= cz < 16 ->
  has_shape hm r c ->
  decode_row off x z ba hm cz = Ok hm' ->
  has_shape hm' r c /\
  (after_source x z cz 0 -> target hm' = target hm) /\
  (x = xs -> z = zs -> cz = czs ->
   forall v, getAt ba (czs * 16 + cxs) = Ok v -> target hm' = Some (v - 64)).
Proof.
  intros Hx Hz Hcz Hsh Hrun. unfold decode_row in Hrun.
  assert (Hcxs : 0 <= cxs < 16) by (apply Z.mod_pos_bound; lia).
  split; [|split].
  - eapply (for_each_range_inv (fun a => has_shape a r c)); [|exact Hsh|exact Hrun].
    intros t cx t' _ Ht Hb. eapply store_height_Ok; eauto.
  - intros Hafter.
    eapply (for_each_range_inv (fun a => has_shape a r c /\ target a = target hm));
      [| |exact Hrun]; [|done].
    intros t cx t' Hcx [Ht Htt] Hb.
    destruct (store_height_Ok _ _ _ _ _ _ _ _ _ _ Ht Hb) as (Ht' & Hmiss & _).
    split; [done|]. rewrite <- Htt. apply Hmiss.
    apply after_source_misses; try done.
    unfold after_source in *. lia.
  - intros -> -> -> v Hv.
    eapply (for_each_range_hit (fun a => has_shape a r c)
              (fun a => target a = Some (v - 64)) 16 cxs);
      [exact Hcxs| | | |exact Hsh|exact Hrun].
    + intros t cx t' _ Ht Hb. eapply store_height_Ok; eauto.
    + intros t t' Ht Hb.
      destruct (store_height_Ok _ _ _ _ _ _ _ _ _ _ Ht Hb) as (_ & _ & Hhit).
      apply (Hhit v); [exact Hv|apply source_index_hit..].
    + intros t cx t' Hcx Ht Htt Hb.
      destruct (store_height_Ok _ _ _ _ _ _ _ _ _ _ Ht Hb) as (_ & Hmiss & _).
      rewrite <- Htt. apply Hmiss.
      apply after_source_misses; try done; [lia|].
      unfold after_source. lia.
Qed.

Lemma decode_heightmap_cell x z ba hm hm' :
  0 <= x -> 0 <= z ->
  has_shape hm r c ->
  decode_heightmap off x z ba hm = Ok hm' ->
  has_shape hm' r c /\
  (after_source x z 0 0 -> target hm' = target hm) /\
  (x = xs -> z = zs ->
   forall v, getAt ba (czs * 16 + cxs) = Ok v -> target hm' = Some (v - 64)).
Proof.
  intros Hx Hz Hsh Hrun. unfold decode_heightmap in Hrun.
  assert (Hczs : 0 <= czs < 16) by (apply Z.mod_pos_bound; lia).
  split; [|split].
  - eapply (for_each_range_inv (fun a => has_shape a r c)); [|exact Hsh|exact Hrun].
    intros t cz t' Hcz Ht Hb.
    by destruct (decode_row_cell _ _ _ _ _ _ Hx Hz Hcz Ht Hb) as (Ht' & _).
  - intros Hafter.
    eapply (for_each_range_inv (fun a => has_shape a r c /\ target a = target hm));
      [| |exact Hrun]; [|done].
    intros t cz t' Hcz [Ht Htt] Hb.
    destruct (decode_row_cell _ _ _ _ _ _ Hx Hz Hcz Ht Hb) as (Ht' & Hkeep & _).
    split; [done|]. rewrite <- Htt. apply Hkeep.
    unfold after_source in *. lia.
  - intros -> -> v Hv.
    eapply (for_each_range_hit (fun a => has_shape a r c)
              (fun a => target a = Some (v - 64)) 16 czs);
      [exact Hczs| | | |exact Hsh|exact Hrun].
    + intros t cz t' Hcz Ht Hb.
      by destruct (decode_row_cell _ _ _ _ _ _ Hx Hz Hcz Ht Hb) as (Ht' & _).
    + intros t t' Ht Hb.
      destruct (decode_row_cell _ _ _ _ _ _ Hx Hz Hczs Ht Hb) as (_ & _ & Hhit).
      by apply Hhit.
    + intros t cz t' Hcz Ht Htt Hb.
      assert (Hcz' : 0 <= cz < 16) by lia.
      destruct (decode_row_cell _ _ _ _ _ _ Hx Hz Hcz' Ht Hb) as (_ & Hkeep & _).
      rewrite <- Htt. apply Hkeep. unfold after_source. lia.
Qed.

End heightmap_cell.

Section dict_facts.
Context {K V : Type} `{EqDecision K}.

Lemma dict_get_set_eq (d : list (K * V)) k v : dict_get (dict_set d k v) k = Some v.
Proof.
  induction d as [|[k' v'] d IH]; simpl.
  - by rewrite decide_True.
  - destruct (decide (k = k')) as [->|Hne]; simpl.
    + by rewrite decide_True.
    + by rewrite decide_False.
Qed.

Lemma dict_get_set_ne (d : list (K * V)) k k' v :
  k <> k' -> dict_get (dict_set d k v) k' = dict_get d k'.
Proof.
  intros Hne. induction d as [|[k0 v0] d IH]; simpl.
  - rewrite decide_False; [done|]. intros ->. done.
  - destruct (decide (k = k0)) as [->|Hne0]; simpl.
    + rewrite !decide_False; [done|intros ->; done..].
    + destruct (decide (k' = k0)); [done|exact IH].
Qed.
End dict_facts.

Lemma has_shape_zeros (r c : nat) : has_shape (replicate r (replicate c 0)) r c.
Proof.
  split; [apply length_replicate|].
  apply Forall_replicate. apply length_replicate.
Qed.

Section heightmap_dict.
Variables (off : Z * Z) (w d i k : Z) (n : string).
Hypothesis Hox : 0 <= off.1 < 16.
Hypothesis Hoz : 0 <= off.2 < 16.
Hypothesis Hi : 0 <= i < w.
Hypothesis Hk : 0 <= k < d.

#[local] Abbreviation r := (Z.to_nat (w + 1)).
#[local] Abbreviation c := (Z.to_nat (d + 1)).
#[local] Abbreviation xs := ((i + off.1) / 16).
#[local] Abbreviation cxs := ((i + off.1) mod 16).
#[local] Abbreviation zs := ((k + off.2) / 16).
#[local] Abbreviation czs := ((k + off.2) mod 16).
#[local] Abbreviation after x z := (after_source off i k x z 0 0).
#[local] Abbreviation shaped := (hm_shaped n r c).
#[local] Abbreviation holds := (hm_holds n (Z.to_nat i) (Z.to_nat k)).

Lemma load_heightmap_cell x z hms hmaps m hmaps' :
  0 <= x -> 0 <= z ->
  shaped hmaps ->
  load_heightmap off x z hms hmaps m = Ok hmaps' ->
  shaped hmaps' /\
  (forall val, m <> n \/ after x z -> holds hmaps val -> holds hmaps' val) /\
  (m = n -> x = xs -> z = zs ->
   forall raw v,
     dict_getitem hms n = Ok raw ->
     getAt (mkBitArray 9 (16 * 16) raw) (czs * 16 + cxs) = Ok v ->
     holds hmaps' (v - 64)).
Proof.
  intros Hx Hz (a & Ha & Hsh) Hrun. unfold load_heightmap in Hrun.
  destruct (dict_getitem hms m) as [raw|] eqn:Eraw; simpl in Hrun; [|discriminate].
  destruct (decide _); simpl in Hrun; [|discriminate].
  unfold dict_getitem in Hrun at 1.
  destruct (dict_get hmaps m) as [b|] eqn:Eb; simpl in Hrun; [|discriminate].
  destruct (decode_heightmap _ _ _ _ b) as [b'|] eqn:Ed; simpl in Hrun; [|discriminate].
  injection Hrun as <-.
  destruct (decide (m = n)) as [->|Hne].
  - assert (b = a) as -> by congruence.
    destruct (decode_heightmap_cell off w d i k Hox Hoz Hi Hk _ _ _ _ _ Hx Hz Hsh Ed)
      as (Hsh' & Hkeep & Hhit).
    split; [|split].
    + exists b'. by rewrite dict_get_set_eq.
    + intros val [?|Haft] (a0 & Ha0 & Hval); [done|].
      exists b'. rewrite dict_get_set_eq. split; [done|].
      rewrite Hkeep by done. congruence.
    + intros _ Hxs Hzs raw' v Hraw' Hv.
      exists b'. rewrite dict_get_set_eq. split; [done|].
      apply Hhit; [done..|]. congruence.
  - split; [|split].
    + exists a. by rewrite dict_get_set_ne.
    + intros val _ (a0 & Ha0 & Hval). exists a0. by rewrite dict_get_set_ne.
    + done.
Qed.

Variables (nbt : NBTFile) (cr : Z * Z * Z * Z) (types : list string).
Variables (chunk : ChunkNBT) (raw : list Z) (v : Z).
Hypothesis Hn : n ∈ types.
Hypothesis Hchunk : chunk_at nbt (xs + zs * cr.1.2) = Ok chunk.
Hypothesis Hraw : dict_getitem (Heightmaps chunk) n = Ok raw.
Hypothesis Hv : getAt (mkBitArray 9 (16 * 16) raw) (czs * 16 + cxs) = Ok v.

Lemma load_chunk_heightmaps_cell x z hmaps hmaps' :
  0 <= x -> 0 <= z ->
  shaped hmaps ->
  load_chunk_heightmaps nbt cr types off x hmaps z = Ok hmaps' ->
  shaped hmaps' /\
  (forall val, after x z -> holds hmaps val -> holds hmaps' val) /\
  (x = xs -> z = zs -> holds hmaps' (v - 64)).
Proof.
  intros Hx Hz Hsh Hrun. unfold load_chunk_heightmaps in Hrun.
  destruct (chunk_at nbt (x + z * cr.1.2)) as [ch|] eqn:Ec; simpl in Hrun; [|discriminate].
  split; [|split].
  - eapply (for_each_inv shaped); [|exact Hsh|exact Hrun].
    intros t m t' _ Ht Hb.
    by destruct (load_heightmap_cell _ _ _ _ _ _ Hx Hz Ht Hb) as (? & _).
  - intros val Haft Hval.
    eapply (for_each_inv (fun t => shaped t /\ holds t val)); [| |exact Hrun]; [|done].
    intros t m t' _ [Ht Htv] Hb.
    destruct (load_heightmap_cell _ _ _ _ _ _ Hx Hz Ht Hb) as (? & Hkeep & _).
    split; [done|]. apply Hkeep; [by right|done].
  - intros -> ->. rewrite Hchunk in Ec. injection Ec as <-.
    eapply (for_each_elem_hit shaped (fun t => holds t (v - 64)) n);
      [| | |exact Hn|exact Hsh|exact Hrun].
    + intros t m t' _ Ht Hb.
      by destruct (load_heightmap_cell _ _ _ _ _ _ Hx Hz Ht Hb) as (? & _).
    + intros t t' Ht Hb.
      destruct (load_heightmap_cell _ _ _ _ _ _ Hx Hz Ht Hb) as (_ & _ & Hhit).
      by apply (Hhit eq_refl eq_refl eq_refl raw v).
    + intros t m t' _ Hne Ht Htv Hb.
      destruct (load_heightmap_cell _ _ _ _ _ _ Hx Hz Ht Hb) as (_ & Hkeep & _).
      apply Hkeep; [by left|done].
Qed.

Lemma load_heightmaps_cell hmaps hmaps' :
  0 <= xs < cr.1.2 -> 0 <= zs < cr.2 ->
  shaped hmaps ->
  load_heightmaps nbt cr types off hmaps = Ok hmaps' ->
  shaped hmaps' /\ holds hmaps' (v - 64).
Proof.
  intros Hxs Hzs Hsh Hrun. unfold load_heightmaps in Hrun.
  assert (Hcxs : 0 <= cxs < 16) by (apply Z.mod_pos_bound; lia).
  assert (Hczs : 0 <= czs < 16) by (apply Z.mod_pos_bound; lia).
  assert (Hrow : forall x t t', 0 <= x -> shaped t ->
            for_each (range cr.2) (load_chunk_heightmaps nbt cr types off x) t = Ok t' ->
            shaped t').
  { intros x t t' Hx Ht Hb.
    eapply (for_each_range_inv shaped); [|exact Ht|exact Hb].
    intros u z u' Hz Hu Hc.
    assert (Hz' : 0 <= z) by lia.
    by destruct (load_chunk_heightmaps_cell _ _ _ _ Hx Hz' Hu Hc) as (? & _). }
  eapply (for_each_range_hit shaped (fun t => holds t (v - 64)) cr.1.2 xs);
    [exact Hxs| | | |exact Hsh|exact Hrun].
  - intros t x t' Hx. apply Hrow. lia.
  - intros t t' Ht Hb.
    eapply (for_each_range_hit shaped (fun t => holds t (v - 64)) cr.2 zs);
      [exact Hzs| | | |exact Ht|exact Hb].
    + intros u z u' Hz Hu Hc.
      assert (Hx' : 0 <= xs) by lia. assert (Hz' : 0 <= z) by lia.
      by destruct (load_chunk_heightmaps_cell _ _ _ _ Hx' Hz' Hu Hc) as (? & _).
    + intros u u' Hu Hc.
      assert (Hx' : 0 <= xs) by lia. assert (Hz' : 0 <= zs) by lia.
      destruct (load_chunk_heightmaps_cell _ _ _ _ Hx' Hz' Hu Hc) as (_ & _ & Hhit).
      by apply Hhit.
    + intros u z u' Hz Hu Huv Hc.
      assert (Hx' : 0 <= xs) by lia. assert (Hz' : 0 <= z) by lia.
      destruct (load_chunk_heightmaps_cell _ _ _ _ Hx' Hz' Hu Hc) as (_ & Hkeep & _).
      apply Hkeep; [|done]. unfold after_source. lia.
  - intros t x t' Hx Ht Htv Hb.
    eapply (for_each_range_inv (fun u => shaped u /\ holds u (v - 64)));
      [| |exact Hb]; [|done].
    intros u z u' Hz [Hu Huv] Hc.
    assert (Hx' : 0 <= x) by lia. assert (Hz' : 0 <= z) by lia.
    destruct (load_chunk_heightmaps_cell _ _ _ _ Hx' Hz' Hu Hc) as (? & Hkeep & _).
    split; [done|]. apply Hkeep; [|done]. unfold after_source. lia.
Qed.

End heightmap_dict.

Lemma init_heightmaps_shaped rect types n hm0 :
  0 <= rect.1.2 + 1 -> 0 <= rect.2 + 1 ->
  n ∈ types ->
  init_heightmaps rect types = Ok hm0 ->
  exists a, dict_get hm0 n = Some a /\
            has_shape a (Z.to_nat (rect.1.2 + 1)) (Z.to_nat (rect.2 + 1)).
Proof.
  intros Hw Hd Hn Hrun. unfold init_heightmaps in Hrun.
  eapply (for_each_elem_hit (fun _ => True)
            (fun t => exists a, dict_get t n = Some a /\
                        has_shape a (Z.to_nat (rect.1.2 + 1)) (Z.to_nat (rect.2 + 1))) n);
    [| | |exact Hn|exact Logic.I|exact Hrun].
  - done.
  - intros t t' _ Hb. unfold np_zeros2 in Hb.
    rewrite decide_False in Hb by lia. simpl in Hb. injection Hb as <-.
    eexists. rewrite dict_get_set_eq. split; [done|]. apply has_shape_zeros.
  - intros t m t' _ Hne _ (a & Ha & Hsh) Hb. unfold np_zeros2 in Hb.
    rewrite decide_False in Hb by lia. simpl in Hb. injection Hb as <-.
    exists a. by rewrite dict_get_set_ne.
Qed.

Lemma np_getitem2_cell a (r c : nat) (i k : Z) val :
  has_shape a r c ->
  0 <= i < Z.of_nat r -> 0 <= k < Z.of_nat c ->
  cell a (Z.to_nat i) (Z.to_nat k) = Some val ->
  np_getitem2 a i k = Ok val.
Proof.
  intros [Hr Hc] Hi Hk Hcell. unfold np_getitem2, np_index.
  rewrite Hr. rewrite decide_True by lia. simpl.
  unfold cell in Hcell.
  destruct (a !! Z.to_nat i) as [row|] eqn:Erow; [|discriminate].
  assert (Hlen : length row = c).
  { rewrite Forall_forall in Hc. apply Hc. eapply list_elem_of_lookup_2, Erow. }
  rewrite Hlen. rewrite decide_True by lia. simpl. by rewrite Hcell.
Qed.

Lemma column_chunk_arith (a X b : Z) :
  a <= X < b ->
  (X - a + a mod 16) / 16 = X / 16 - a / 16 /\
  (X - a + a mod 16) mod 16 = X mod 16 /\
  0 <= (X - a + a mod 16) / 16 < (a + (b - a) - 1) / 16 - a / 16 + 1.
Proof. intros H. Z.div_mod_to_equations. lia. Qed.


(** ** Result tokens *)

Lemma uint_of_char_digit (c : Ascii.ascii) (o : option Decimal.uint) :
  uint_of_char c o =
  if is_digit c then
    match o with
    | Some d0 => uint_of_char c (Some d0)
    | None => None
    end
  else None.
Proof.
  destruct c as [[] [] [] [] [] [] [] []]; destruct o; reflexivity.
Qed.

Lemma uint_of_char_some (c : Ascii.ascii) (d0 : Decimal.uint) :
  is_digit c = true -> exists d, uint_of_char c (Some d0) = Some d /\ d <> Decimal.Nil.
Proof.
  destruct c as [[] [] [] [] [] [] [] []]; intros H; try discriminate H;
    simpl; eexists; (split; [reflexivity|discriminate]).
Qed.

Lemma all_digits_parses (s : string) :
  all_digits s = true <-> exists d, NilEmpty.uint_of_string s = Some d.
Proof.
  induction s as [|c s IH]; simpl.
  - split; [eauto|done].
  - rewrite uint_of_char_digit. destruct (is_digit c) eqn:Ec; simpl.
    + rewrite IH. split.
      * intros [d0 Hd0]. rewrite Hd0.
        destruct (uint_of_char_some c d0 Ec) as (d & Hd & _). eauto.
      * intros [d Hd]. destruct (NilEmpty.uint_of_string s); [eauto|discriminate].
    + split; [discriminate|]. intros [d Hd]. discriminate.
Qed.

Lemma all_digits_syntax (t : string) :
  (t <> EmptyString /\ all_digits t = true) <-> nonneg_integer_syntax t.
Proof.
  unfold nonneg_integer_syntax. destruct t as [|c s].
  - split; [by intros [? _]|].
    intros (d & Hd & Hs). destruct d; simpl in Hs; congruence.
  - rewrite all_digits_parses. split.
    + intros [_ [d Hd]]. exists d. split; [|by apply NilEmpty.sus].
      intros ->. apply NilEmpty.sus in Hd. discriminate.
    + intros (d & _ & Hs). split; [done|]. exists d. rewrite <- Hs. apply NilEmpty.usu.
Qed.

(** On an ASCII character, being numeric is being a decimal digit. *)
Lemma is_numeric_char_ascii (c : Ascii.ascii) :
  (byte_of c <? 128) = true -> is_numeric_char (byte_of c) = is_digit c.
Proof.
  destruct c as [[] [] [] [] [] [] [] []]; intros H;
    first [discriminate H | vm_compute; reflexivity].
Qed.

Lemma is_digit_ascii (c : Ascii.ascii) :
  is_digit c = true -> (byte_of c <? 128) = true.
Proof.
  destruct c as [[] [] [] [] [] [] [] []]; intros H;
    first [discriminate H | vm_compute; reflexivity].
Qed.

Lemma all_digits_ascii (s : string) : all_digits s = true -> is_ascii s = true.
Proof.
  induction s as [|c s IH]; [done|]. simpl.
  intros [Hc Hs]%andb_true_iff. by rewrite (is_digit_ascii c Hc), IH.
Qed.

Lemma utf8_decode_ascii (s : string) :
  is_ascii s = true ->
  exists l, utf8_decode s = Some l /\
            (l = [] <-> s = EmptyString) /\
            forallb is_numeric_char l = all_digits s.
Proof.
  induction s as [|c s IH]; [by exists []|].
  cbn [is_ascii]. intros [Hc Hs]%andb_true_iff.
  destruct (IH Hs) as (l & Hl & _ & Hall).
  exists (byte_of c :: l). split; [|split].
  - cbn [utf8_decode]. cbv zeta. rewrite Hc, Hl. reflexivity.
  - split; discriminate.
  - cbn [forallb all_digits]. by rewrite Hall, (is_numeric_char_ascii c Hc).
Qed.

(** On a token of ASCII characters [str.isnumeric] accepts exactly the
    non-empty strings of decimal digits. *)
Lemma isnumeric_ascii (t : string) :
  is_ascii t = true -> (isnumeric t = true <-> nonneg_integer_syntax t).
Proof.
  intros Ha. rewrite <- all_digits_syntax.
  destruct (utf8_decode_ascii t Ha) as (l & Hl & Hnil & Hall).
  unfold isnumeric. rewrite Hl. destruct l as [|c cs].
  - assert (t = EmptyString) as -> by by apply Hnil.
    split; [discriminate|]. by intros [? _].
  - rewrite Hall. split.
    + intros Hd. split; [|done]. intros Ht. by apply Hnil in Ht.
    + by intros [_ ?].
Qed.

Lemma isnumeric_digits (t : string) :
  nonneg_integer_syntax t -> isnumeric t = true.
Proof.
  intros Ht. apply isnumeric_ascii; [|done].
  apply all_digits_syntax in Ht as [_ Ht]. by apply all_digits_ascii.
Qed.

(** ** The decay mask as an array *)

Lemma np_index_nonneg n a i : np_index n a = Ok i -> 0 <= a -> i = Z.to_nat a.
Proof. intros H Ha. apply np_index_Ok in H as [? [?|?]]; lia. Qed.

Lemma np_index_lt n a i : np_index n a = Ok i -> (i < n)%nat.
Proof. intros H. by apply np_index_Ok in H as [? _]. Qed.

Lemma np_setitem3_cells m a b c v m' :
  np_setitem3 m a b c v = Ok m' ->
  exists i j k plane row,
    np_index (length m) a = Ok i /\ m !! i = Some plane /\
    np_index (length plane) b = Ok j /\ plane !! j = Some row /\
    np_index (length row) c = Ok k /\
    m' = <[i := <[j := <[k := v]> row]> plane]> m /\
    forall i' j' k',
      mask_cell m' i' j' k' =
      if decide (i' = i /\ j' = j /\ k' = k) then Some v else mask_cell m i' j' k'.
Proof.
  unfold np_setitem3. intros H.
  destruct (np_index (length m) a) as [i|] eqn:Ei; simpl in H; [|discriminate].
  destruct (m !! i) as [plane|] eqn:Ep; [|discriminate].
  destruct (np_index (length plane) b) as [j|] eqn:Ej; simpl in H; [|discriminate].
  destruct (plane !! j) as [row|] eqn:Er; [|discriminate].
  destruct (np_index (length row) c) as [k|] eqn:Ek; simpl in H; [|discriminate].
  injection H as <-.
  exists i, j, k, plane, row. repeat (split; [done|]).
  apply np_index_lt in Ei, Ej, Ek.
  intros i' j' k'. unfold mask_cell.
  destruct (decide (i' = i)) as [->|Hi].
  - rewrite list_lookup_insert_eq by done. rewrite Ep.
    destruct (decide (j' = j)) as [->|Hj].
    + rewrite list_lookup_insert_eq by done. rewrite Er.
      destruct (decide (k' = k)) as [->|Hk].
      * rewrite list_lookup_insert_eq by done. by rewrite decide_True.
      * rewrite list_lookup_insert_ne by done.
        rewrite decide_False; [done|]. intros (_ & _ & ?); done.
    + rewrite list_lookup_insert_ne by done.
      rewrite decide_False; [done|]. intros (_ & ? & _); done.
  - rewrite list_lookup_insert_ne by done.
    rewrite decide_False; [done|]. intros (? & _ & _); done.
Qed.

Lemma np_getitem3_cell m a b c v :
  np_getitem3 m a b c = Ok v <->
  exists i j k plane row,
    np_index (length m) a = Ok i /\ m !! i = Some plane /\
    np_index (length plane) b = Ok j /\ plane !! j = Some row /\
    np_index (length row) c = Ok k /\ row !! k = Some v.
Proof.
  unfold np_getitem3. split.
  - intros H.
    destruct (np_index (length m) a) as [i|] eqn:Ei; simpl in H; [|discriminate].
    destruct (m !! i) as [plane|] eqn:Ep; [|discriminate].
    destruct (np_index (length plane) b) as [j|] eqn:Ej; simpl in H; [|discriminate].
    destruct (plane !! j) as [row|] eqn:Er; [|discriminate].
    destruct (np_index (length row) c) as [k|] eqn:Ek; simpl in H; [|discriminate].
    destruct (row !! k) as [v'|] eqn:Ev; [|discriminate].
    injection H as <-. exists i, j, k, plane, row. done.
  - intros (i & j & k & plane & row & -> & Hp & Hj & Hr & Hk & Hv). simpl.
    rewrite Hp, Hj. simpl. rewrite Hr, Hk. simpl. by rewrite Hv.
Qed.

Lemma np_setitem3_read_back m a b c v m' :
  np_setitem3 m a b c v = Ok m' -> np_getitem3 m' a b c = Ok v.
Proof.
  intros H. apply np_setitem3_cells in H
    as (i & j & k & plane & row & Hi & Hp & Hj & Hr & Hk & -> & _).
  apply np_getitem3_cell.
  pose proof (np_index_lt _ _ _ Hi). pose proof (np_index_lt _ _ _ Hj).
  pose proof (np_index_lt _ _ _ Hk).
  exists i, j, k, (<[j := <[k := v]> row]> plane), (<[k := v]> row).
  rewrite !length_insert.
  repeat split; try done; by apply list_lookup_insert_eq.
Qed.

Lemma np_setitem3_monotone m a b c m' i j k :
  np_setitem3 m a b c true = Ok m' ->
  np_getitem3 m i j k = Ok true -> np_getitem3 m' i j k = Ok true.
Proof.
  intros H Hg. apply np_setitem3_cells in H
    as (i0 & j0 & k0 & plane0 & row0 & Hi0 & Hp0 & Hj0 & Hr0 & Hk0 & -> & _).
  apply np_getitem3_cell in Hg as (i' & j' & k' & plane & row & Hi & Hp & Hj & Hr & Hk & Hv).
  apply np_getitem3_cell.
  pose proof (np_index_lt _ _ _ Hi0). pose proof (np_index_lt _ _ _ Hj0).
  pose proof (np_index_lt _ _ _ Hk0).
  rewrite length_insert.
  destruct (decide (i' = i0)) as [->|Hne].
  - assert (plane = plane0) as -> by congruence.
    destruct (decide (j' = j0)) as [->|Hne'].
    + assert (row = row0) as -> by congruence.
      exists i0, j0, k', (<[j0 := <[k0 := true]> row0]> plane0), (<[k0 := true]> row0).
      rewrite !length_insert. repeat split; try done;
        try by apply list_lookup_insert_eq.
      destruct (decide (k' = k0)) as [->|Hk'].
      * by apply list_lookup_insert_eq.
      * by rewrite list_lookup_insert_ne.
    + exists i0, j', k', (<[j0 := <[k0 := true]> row0]> plane0), row.
      rewrite !length_insert. repeat split; try done.
      * by apply list_lookup_insert_eq.
      * by rewrite list_lookup_insert_ne.
  - exists i', j', k', plane, row. repeat split; try done.
    by rewrite list_lookup_insert_ne.
Qed.

(** ** Editor *)

Section editor_facts.
Context {Block WorldSlice Cache : Type}.
Context `{!Collaborators Block WorldSlice Cache}.
#[local] Abbreviation Editor := (Editor Block WorldSlice Cache).

Lemma warn_lines_spec (mk : string -> Warning) (response : list string) (st : Editor) :
  warn_lines mk response st =
  (Ok tt, set_warnings (warnings st ++ map mk (rejected response)) st).
Proof.
  revert st. induction response as [|line rest IH]; intros st.
  - destruct st; simpl. unfold ret. by rewrite app_nil_r.
  - cbn [warn_lines]. unfold bind at 1.
    unfold rejected. cbn [List.filter].
    destruct (isnumeric line); cbn [negb].
    + unfold ret at 1. apply IH.
    + unfold eprint, modify. rewrite IH. destruct st; simpl.
      unfold rejected. by rewrite <- app_assoc.
Qed.

Lemma flush_spec (retries : Z) (st : Editor) :
  flush retries st = (Ok tt, flushed retries st).
Proof.
  unfold flush, flushed.
  unfold bind at 1. unfold bind at 1. unfold gets at 1.
  destruct (buffer st) as [|e l] eqn:Eb.
  - unfold ret at 1. unfold bind, gets.
    destruct (commandBuffer st) as [|c cs] eqn:Ec; [reflexivity|].
    unfold interface_runCommand, modify. rewrite warn_lines_spec.
    destruct st; simpl in *. reflexivity.
  - unfold bind at 1. unfold gets at 1. unfold bind at 1.
    unfold interface_placeBlocks at 1. unfold bind at 1. unfold modify at 1.
    rewrite warn_lines_spec.
    unfold bind, gets.
    match goal with |- context [commandBuffer ?s] => destruct (commandBuffer s) as [|c cs] eqn:Ec end.
    + unfold ret. destruct st; simpl in *. rewrite Ec. reflexivity.
    + unfold interface_runCommand, modify. rewrite warn_lines_spec.
      destruct st; simpl in *. rewrite Ec. reflexivity.
Qed.

Lemma sendBufferedBlocks_spec (retries : Z) (st : Editor) :
  sendBufferedBlocks retries st = (Ok tt, sent retries st).
Proof.
  unfold sendBufferedBlocks, sent, bind, gets.
  destruct (multithreading st); [reflexivity|]. apply flush_spec.
Qed.

Lemma read_frame_refl (st : Editor) : read_frame st st.
Proof.
  split; [by destruct st|]. split; [|done].
  exists []. by rewrite app_nil_r.
Qed.

Lemma read_frame_trans (st1 st2 st3 : Editor) :
  read_frame st1 st2 -> read_frame st2 st3 -> read_frame st1 st3.
Proof.
  intros (H1 & (r1 & Hr1 & Hf1) & Hc1) (H2 & (r2 & Hr2 & Hf2) & Hc2).
  destruct st1, st2, st3; simpl in *.
  injection H1 as ?; injection H2 as ?; subst.
  split; [reflexivity|]. split.
  - exists (r1 ++ r2). rewrite app_assoc. split; [done|]. by apply Forall_app.
  - intros Hc. rewrite Hc2; auto.
Qed.

Lemma slice_to_read_spec (position : ivec3) (st : Editor) :
  slice_to_read position st =
  (match worldSlice st with
   | None => Ok None
   | Some ws =>
       if Rect_contains (ws_rect ws) (dropY position) then
         rbind (decayed_at st ws position)
           (fun d => Ok (if d : bool then None else Some ws))
       else Ok None
   end, st).
Proof.
  unfold slice_to_read, decayed_at, decay_getitem, bind, gets, ret, lift, raise.
  destruct (worldSlice st) as [ws|]; [|reflexivity].
  destruct (Rect_contains _ _); [|reflexivity].
  destruct (worldSliceDecay st) as [m|]; [|reflexivity].
  destruct (np_getitem3 _ _ _ _); reflexivity.
Qed.

Lemma cache_store_spec (position : ivec3) (block : Block) (st : Editor) :
  cache_store position block st =
  (Ok tt, if caching st then set_cache (cache_setitem (cache st) position block) st
          else st).
Proof.
  unfold cache_store, bind, gets, modify, ret. by destruct (caching st).
Qed.

Lemma getBlockGlobal_fetch_frame position gs gd (st : Editor) :
  read_frame st (getBlockGlobal_fetch position gs gd st).2.
Proof.
  unfold getBlockGlobal_fetch. unfold bind at 1. rewrite slice_to_read_spec.
  destruct (match worldSlice st with None => _ | Some ws => _ end) as [[ws|]|e];
    [| |apply read_frame_refl].
  - unfold bind at 1. unfold lift at 1.
    destruct (rbind _ _) as [b|e]; [|apply read_frame_refl].
    unfold bind, ret. rewrite cache_store_spec. simpl.
    destruct (caching st) eqn:Ec; [|apply read_frame_refl].
    split; [by destruct st|]. split; [|simpl in *; congruence].
    exists []. destruct st; simpl. by rewrite app_nil_r.
  - unfold bind at 1. unfold bind at 1. unfold interface_getBlocks at 1.
    unfold bind at 1. unfold lift at 1.
    destruct (worldLoader.list_getitem _ 0) as [r0|e].
    + unfold bind, ret. rewrite cache_store_spec.
      destruct (caching st) eqn:Ec; destruct st; simpl in *; subst.
      * split; [reflexivity|]. split; [|discriminate].
        eexists. split; [reflexivity|]. by constructor.
      * split; [reflexivity|]. split; [|done].
        eexists. split; [reflexivity|]. by constructor.
    + destruct st; simpl. split; [reflexivity|]. split; [|done].
      eexists. split; [reflexivity|]. by constructor.
Qed.

Lemma getBlockGlobal_frame position gs gd (st : Editor) :
  read_frame st (getBlockGlobal position gs gd st).2.
Proof.
  unfold getBlockGlobal. unfold bind at 1. unfold gets at 1.
  unfold bind at 1.
  assert (Hrest : read_frame st (getBlockGlobal_buffer position gs gd st).2).
  { unfold getBlockGlobal_buffer. unfold bind at 1. unfold gets at 1.
    unfold bind at 1.
    destruct (buffering st).
    - unfold gets at 1. destruct (dict_get (buffer st) position).
      + apply read_frame_refl.
      + apply getBlockGlobal_fetch_frame.
    - unfold ret at 1. apply getBlockGlobal_fetch_frame. }
  destruct (caching st) eqn:Ec.
  - unfold cache_try.
    destruct (cache_getitem (cache st) position) as [[b c']|[]] eqn:Eg;
      try apply read_frame_refl.
    + unfold ret. simpl. split; [by destruct st|]. split; [|congruence].
      exists []. destruct st; simpl. by rewrite app_nil_r.
    + exact Hrest.
  - unfold ret at 1. exact Hrest.
Qed.

Lemma getBlockGlobal_cache (st : Editor) (position : ivec3) (gs gd : bool) :
  getBlockGlobal position gs gd st =
  match cache_lookup st position with
  | Ok (Some (block, cache')) => (Ok block, set_cache cache' st)
  | Ok None => getBlockGlobal_buffer position gs gd st
  | Raise e => (Raise e, st)
  end.
Proof.
  unfold getBlockGlobal, cache_lookup, cache_try, bind, gets.
  destruct (caching st); [|reflexivity].
  destruct (cache_getitem (cache st) position) as [[b c']|[]]; reflexivity.
Qed.

Lemma cache_lookup_off (st : Editor) (position : ivec3) :
  caching st = false -> cache_lookup st position = Ok None.
Proof. unfold cache_lookup. by intros ->. Qed.

Lemma cache_lookup_same (st st' : Editor) (position : ivec3) :
  caching st' = caching st -> cache st' = cache st ->
  cache_lookup st' position = cache_lookup st position.
Proof. unfold cache_lookup. by intros -> ->. Qed.

Lemma getBlockGlobal_buffer_spec (st : Editor) (position : ivec3) (gs gd : bool) :
  getBlockGlobal_buffer position gs gd st =
  match (if buffering st then dict_get (buffer st) position else None) with
  | Some block => (Ok block, st)
  | None => getBlockGlobal_fetch position gs gd st
  end.
Proof.
  unfold getBlockGlobal_buffer, bind, gets.
  destruct (buffering st); [|reflexivity].
  destruct (dict_get (buffer st) position); reflexivity.
Qed.

Lemma list_getitem_0 {A : Type} (l : list A) :
  worldLoader.list_getitem l 0 =
  match l with
  | [] => Raise IndexError
  | a :: _ => Ok a
  end.
Proof.
  unfold worldLoader.list_getitem, np_index. destruct l as [|a l].
  - rewrite !decide_False by (simpl; lia). reflexivity.
  - rewrite decide_True by (simpl length; lia). reflexivity.
Qed.

Lemma getBlockGlobal_fetch_spec (st : Editor) (position : ivec3) (gs gd : bool) :
  getBlockGlobal_fetch position gs gd st =
  match (slice_to_read position st).1 with
  | Raise e => (Raise e, st)
  | Ok (Some ws) =>
      match rbind (ws_getBlockCompoundAt ws position) fromBlockCompound with
      | Ok block => (Ok block, cached position block st)
      | Raise e => (Raise e, st)
      end
  | Ok None =>
      let st1 := set_trace (trace st ++ [EvGetBlocks position gs gd]) st in
      match iface_getBlocks (trace st) position gs gd with
      | r0 :: _ => (Ok r0.2, cached position r0.2 st1)
      | [] => (Raise IndexError, st1)
      end
  end.
Proof.
  unfold getBlockGlobal_fetch. unfold bind at 1. rewrite slice_to_read_spec.
  cbn [fst].
  destruct (match worldSlice st with None => _ | Some ws => _ end) as [[ws|]|e];
    [| |reflexivity].
  - unfold bind at 1. unfold lift at 1.
    destruct (rbind _ _) as [blk|e]; [|reflexivity].
    unfold bind, ret. rewrite cache_store_spec. reflexivity.
  - unfold bind at 1. unfold bind at 1. unfold interface_getBlocks at 1.
    unfold bind at 1. unfold lift at 1. rewrite list_getitem_0.
    destruct (iface_getBlocks (trace st) position gs gd) as [|r0 rest];
      [reflexivity|].
    unfold bind, ret. rewrite cache_store_spec. unfold cached.
    destruct st; reflexivity.
Qed.

(** The sources of a read, in order: the lookup cache (caching on and
    the lookup returns), the write buffer (buffering on and the position
    present), the cached slice (one is cached, the position's XZ is in
    its rectangle and its decay cell is false), a single-block network
    fetch.  With caching on, the block obtained from the slice or the
    network is put into the cache, and a cache hit leaves the cache as
    the lookup made it; a buffer hit stores nothing.  The read goes on
    past the cache only when caching is off or the lookup raised a
    [TypeError]: on any other exception of the lookup, and when the decay
    cell cannot be read, the read raises. *)
Lemma read_by_source (st : Editor) (position : ivec3) (gs gd : bool) :
  match read_source st position with
  | Ok (FromCache block cache') =>
      caching st = true /\
      getBlockGlobal position gs gd st = (Ok block, set_cache cache' st)
  | Ok (FromBuffer block) =>
      buffering st = true /\
      getBlockGlobal position gs gd st = (Ok block, st)
  | Ok (FromSnapshot ws) =>
      worldSlice st = Some ws /\
      Rect_contains (ws_rect ws) (dropY position) = true /\
      decayed_at st ws position = Ok false /\
      getBlockGlobal position gs gd st =
        match rbind (ws_getBlockCompoundAt ws position) fromBlockCompound with
        | Ok block => (Ok block, cached position block st)
        | Raise e => (Raise e, st)
        end
  | Ok FromNetwork =>
      let st1 := set_trace (trace st ++ [EvGetBlocks position gs gd]) st in
      getBlockGlobal position gs gd st =
        match iface_getBlocks (trace st) position gs gd with
        | r0 :: _ => (Ok r0.2, cached position r0.2 st1)
        | [] => (Raise IndexError, st1)
        end
  | Raise e => getBlockGlobal position gs gd st = (Raise e, st)
  end.
Proof.
  rewrite getBlockGlobal_cache. unfold read_source, cache_lookup.
  destruct (caching st) eqn:Ec;
    [destruct (cache_getitem (cache st) position) as [[b c']|[]] eqn:Eg|];
    cbn [rbind]; try reflexivity; [split; reflexivity| |].
  all: rewrite getBlockGlobal_buffer_spec.
  all: destruct (buffering st) eqn:Eb;
    [destruct (dict_get (buffer st) position) as [b|] eqn:Ed|];
    [split; reflexivity| |].
  all: rewrite getBlockGlobal_fetch_spec, slice_to_read_spec; cbn [fst].
  all: destruct (worldSlice st) as [ws|] eqn:Ews;
    [destruct (Rect_contains (ws_rect ws) (dropY position)) eqn:Ect;
      [destruct (decayed_at st ws position) as [[]|e] eqn:Edec; cbn [rbind]|]|].
  all: try reflexivity.
  all: repeat split; first [reflexivity | assumption].
Qed.

Lemma read_frame_fields (st st' : Editor) :
  read_frame st st' ->
  buffering st' = buffering st /\ bufferLimit st' = bufferLimit st /\
  buffer st' = buffer st /\ commandBuffer st' = commandBuffer st /\
  caching st' = caching st /\ multithreading st' = multithreading st /\
  bufferFlushFutures st' = bufferFlushFutures st /\
  doBlockUpdates st' = doBlockUpdates st /\
  bufferDoBlockUpdates st' = bufferDoBlockUpdates st /\
  worldSlice st' = worldSlice st /\ worldSliceDecay st' = worldSliceDecay st /\
  warnings st' = warnings st.
Proof.
  intros (H & _ & _). destruct st, st'; simpl in *.
  injection H as ?. subst. repeat split; reflexivity.
Qed.

Lemma placement_checks_frame position block replace (st : Editor) :
  read_frame st (placement_checks position block replace st).2.
Proof.
  unfold placement_checks. unfold bind at 1.
  assert (Hsecond : forall (s : Editor) (pass : bool),
            read_frame st s ->
            read_frame st
              ((if negb pass then ret None
                else
                  let block0 := chooseId block in
                  if bool_decide (block_id block0 = ""%string) then ret None
                  else
                    do c <- gets caching;
                    do same <-
                      (if c : bool then
                         do current <- getBlockGlobal position true false;
                         ret (str_in_block (block_id block0) current)
                       else ret false);
                    if same : bool then ret None else ret (Some block0)) s).2).
  { intros s pass Hs. destruct pass; cbn [negb]; [|exact Hs].
    cbv zeta. destruct (bool_decide _); [exact Hs|].
    unfold bind at 1. unfold gets at 1. unfold bind at 1.
    destruct (caching s).
    - unfold bind at 1.
      pose proof (getBlockGlobal_frame position true false s) as Hf.
      destruct (getBlockGlobal position true false s) as [[cur|e] s'];
        cbn [snd] in Hf.
      + unfold ret at 1. destruct (str_in_block _ _); unfold ret;
          eapply read_frame_trans; eauto.
      + eapply read_frame_trans; eauto.
    - unfold ret. exact Hs. }
  destruct replace as [r|].
  - unfold bind at 1.
    pose proof (getBlockGlobal_frame position true false st) as Hf.
    destruct (getBlockGlobal position true false st) as [[cur|e] s'];
      cbn [snd] in Hf; [|exact Hf].
    unfold ret at 1. apply Hsecond. exact Hf.
  - unfold ret at 1. apply Hsecond. apply read_frame_refl.
Qed.

(** When the read made for the [replace] filter returns a block that the
    filter does not list, the write returns [True] and leaves the
    instance as the read left it: the write buffer, the command buffer,
    the pending flushes, the slice and the decay mask are unchanged,
    nothing but [getBlocks] requests went to the host, and the lookup
    cache is unchanged when caching is off. *)
Lemma filtered_write_is_noop (st st1 : Editor) (position : ivec3)
  (block current : Block) (replace : ReplaceArg) (doBlockUpdates_ : option bool) :
  getBlockGlobal position true false st = (Ok current, st1) ->
  block_in current (replace_list replace) = false ->
  _placeSingleBlockGlobal position block (Some replace) doBlockUpdates_ st
    = (Ok true, st1) /\
  buffer st1 = buffer st /\
  commandBuffer st1 = commandBuffer st /\
  bufferFlushFutures st1 = bufferFlushFutures st /\
  (exists reads, trace st1 = trace st ++ reads /\ Forall is_getBlocks reads) /\
  worldSlice st1 = worldSlice st /\
  worldSliceDecay st1 = worldSliceDecay st /\
  (caching st = false -> cache st1 = cache st).
Proof.
  intros Hread Hout.
  pose proof (getBlockGlobal_frame position true false st) as Hf.
  rewrite Hread in Hf. cbn [snd] in Hf.
  destruct (read_frame_fields _ _ Hf)
    as (_ & _ & Hb & Hc & _ & _ & Hfut & _ & _ & Hws & Hd & _).
  destruct Hf as (_ & Hreads & Hcache).
  repeat split; try done.
  unfold _placeSingleBlockGlobal, placement_checks.
  unfold bind at 1. unfold bind at 1. unfold bind at 1.
  rewrite Hread. unfold ret at 1. rewrite Hout. reflexivity.
Qed.

Lemma sent_keeps (retries : Z) (st : Editor) :
  keeps_slice_and_cache st (sent retries st) /\
  buffer (sent retries st) = [] /\ commandBuffer (sent retries st) = [] /\
  buffering (sent retries st) = buffering st /\
  bufferLimit (sent retries st) = bufferLimit st /\
  multithreading (sent retries st) = multithreading st /\
  doBlockUpdates (sent retries st) = doBlockUpdates st /\
  bufferDoBlockUpdates (sent retries st) = bufferDoBlockUpdates st.
Proof.
  unfold keeps_slice_and_cache, sent, flushed.
  destruct (multithreading st) eqn:Emt, (buffer st) eqn:Eb, (commandBuffer st) eqn:Ec;
    destruct st; simpl in *; subst; simpl; repeat split; reflexivity.
Qed.

Lemma _placeSingleBlockGlobalBuffered_spec position block dbu (st : Editor) :
  _placeSingleBlockGlobalBuffered position block dbu st
  = (Ok true, staged position block dbu st).
Proof.
  unfold _placeSingleBlockGlobalBuffered, staged, effective_flag.
  unfold bind at 1. unfold gets at 1. unfold bind at 1. unfold gets at 1.
  unfold bind at 1. unfold gets at 1. unfold bind at 1. unfold gets at 1.
  unfold bind at 1. unfold bind at 1.
  destruct (negb (eqb _ _)).
  - unfold bind at 1. rewrite sendBufferedBlocks_spec.
    unfold modify, bind, ret. reflexivity.
  - destruct (bool_decide _).
    + rewrite sendBufferedBlocks_spec. unfold modify, bind, ret. reflexivity.
    + unfold modify, bind, ret. reflexivity.
Qed.

Lemma staged_keeps position block dbu (st : Editor) :
  keeps_slice_and_cache st (staged position block dbu st).
Proof.
  unfold staged.
  destruct (sent_keeps default_retries st) as ((H1 & H2 & H3 & H4) & _).
  unfold keeps_slice_and_cache in *.
  destruct (negb _); [|destruct (bool_decide _)];
    destruct (sent default_retries st), st; simpl in *; subst; done.
Qed.

Lemma _placeSingleBlockGlobalDirect_spec position block dbu (st : Editor) :
  _placeSingleBlockGlobalDirect position block dbu st =
  let flag := effective_flag st dbu in
  let st1 := set_trace (trace st ++ [EvPlaceBlocks [(position, block)] flag None]) st in
  match iface_placeBlocks (trace st) [(position, block)] flag None with
  | [] => (Raise IndexError, st1)
  | t :: rest =>
      if isnumeric t then (Ok true, st1)
      else (Ok false, set_warnings (warnings st ++ [WarnPlacingBlock (t :: rest)]) st1)
  end.
Proof.
  unfold _placeSingleBlockGlobalDirect, effective_flag.
  unfold bind at 1. unfold gets at 1. unfold bind at 1.
  unfold interface_placeBlocks at 1. unfold bind at 1. unfold lift at 1.
  rewrite list_getitem_0.
  destruct (iface_placeBlocks _ _ _ _) as [|t rest]; [reflexivity|].
  destruct (isnumeric t); cbn [negb]; [reflexivity|].
  unfold bind, eprint, modify, ret. destruct st; reflexivity.
Qed.

Lemma direct_keeps position block dbu (st : Editor) :
  keeps_slice_and_cache st (_placeSingleBlockGlobalDirect position block dbu st).2.
Proof.
  rewrite _placeSingleBlockGlobalDirect_spec. cbv zeta.
  unfold keeps_slice_and_cache.
  destruct (iface_placeBlocks _ _ _ _) as [|t rest]; [by destruct st|].
  destruct (isnumeric t); by destruct st.
Qed.

Lemma mark_decayed_spec position (st : Editor) :
  mark_decayed position st =
  match worldSlice st with
  | None => (Ok tt, st)
  | Some ws =>
      if Rect_contains (ws_rect ws) (dropY position) then
        match worldSliceDecay st with
        | None => (Raise TypeError, st)
        | Some m =>
            let idx := decay_index ws position in
            match np_setitem3 m idx.1.1 idx.1.2 idx.2 true with
            | Ok m' => (Ok tt, set_worldSliceDecay (Some m') st)
            | Raise e => (Raise e, st)
            end
        end
      else (Ok tt, st)
  end.
Proof.
  unfold mark_decayed, decay_setitem, bind, gets, ret, lift, raise, modify.
  destruct (worldSlice st) as [ws|]; [|reflexivity].
  destruct (Rect_contains _ _); [|reflexivity].
  destruct (worldSliceDecay st) as [m|]; [|reflexivity].
  cbv zeta. destruct (np_setitem3 _ _ _ _ _); reflexivity.
Qed.

Lemma place_chosen_spec position block dbu (st : Editor) :
  place_chosen position block dbu st =
  match (if buffering st then _placeSingleBlockGlobalBuffered position block dbu st
         else _placeSingleBlockGlobalDirect position block dbu st) with
  | (Ok true, s) =>
      match mark_decayed position (cached position block s) with
      | (Ok _, s') => (Ok true, s')
      | (Raise e, s') => (Raise e, s')
      end
  | (Ok false, s) => (Ok false, s)
  | (Raise e, s) => (Raise e, s)
  end.
Proof.
  unfold place_chosen. unfold bind at 1. unfold gets at 1. unfold bind at 1.
  destruct (buffering st).
  - destruct (_placeSingleBlockGlobalBuffered _ _ _ _) as [[[]|e] s]; try reflexivity.
    cbn [negb]. unfold bind at 1. rewrite cache_store_spec. fold (cached position block s).
    unfold bind, ret. destruct (mark_decayed _ _) as [[[]|e] s']; reflexivity.
  - destruct (_placeSingleBlockGlobalDirect _ _ _ _) as [[[]|e] s]; try reflexivity.
    cbn [negb]. unfold bind at 1. rewrite cache_store_spec. fold (cached position block s).
    unfold bind, ret. destruct (mark_decayed _ _) as [[[]|e] s']; reflexivity.
Qed.

Lemma cached_slice position block (st : Editor) :
  worldSlice (cached position block st) = worldSlice st /\
  worldSliceDecay (cached position block st) = worldSliceDecay st.
Proof. unfold cached. destruct (caching st); by destruct st. Qed.

Lemma place_chosen_mask position block dbu (st : Editor) :
  let out := place_chosen position block dbu st in
  worldSlice out.2 = worldSlice st /\
  (worldSliceDecay out.2 = worldSliceDecay st \/
   exists ws m m',
     out.1 = Ok true /\ worldSlice st = Some ws /\
     Rect_contains (ws_rect ws) (dropY position) = true /\
     worldSliceDecay st = Some m /\ worldSliceDecay out.2 = Some m' /\
     np_setitem3 m (decay_index ws position).1.1 (decay_index ws position).1.2
       (decay_index ws position).2 true = Ok m') /\
  (forall ws,
     out.1 = Ok true -> worldSlice st = Some ws ->
     Rect_contains (ws_rect ws) (dropY position) = true ->
     exists m m',
       worldSliceDecay st = Some m /\ worldSliceDecay out.2 = Some m' /\
       np_setitem3 m (decay_index ws position).1.1 (decay_index ws position).1.2
         (decay_index ws position).2 true = Ok m').
Proof.
  cbv zeta. rewrite place_chosen_spec.
  assert (Hk : keeps_slice_and_cache st
            (if buffering st then _placeSingleBlockGlobalBuffered position block dbu st
             else _placeSingleBlockGlobalDirect position block dbu st).2).
  { destruct (buffering st).
    - rewrite _placeSingleBlockGlobalBuffered_spec. apply staged_keeps.
    - apply direct_keeps. }
  destruct (if buffering st then _ else _) as [[[]|e] s]; cbn [snd] in Hk;
    destruct Hk as (Hws & Hd & _ & _).
  2,3: cbn [fst snd]; split; [done|]; split; [by left|]; intros; discriminate.
  rewrite mark_decayed_spec.
  destruct (cached_slice position block s) as [Hcw Hcd].
  rewrite Hcw, Hcd, Hws, Hd.
  destruct (worldSlice st) as [ws|] eqn:Ews.
  2: { cbn [fst snd]. rewrite Hcw, Hcd. split; [done|]. split; [by left|].
       intros; discriminate. }
  destruct (Rect_contains (ws_rect ws) (dropY position)) eqn:Ect.
  2: { cbn [fst snd]. rewrite Hcw, Hcd. split; [done|]. split; [by left|].
       intros ws' _ [= <-]. congruence. }
  destruct (worldSliceDecay st) as [m|] eqn:Em.
  2: { cbn [fst snd]. rewrite Hcw, Hcd. split; [done|]. split; [by left|].
       intros; discriminate. }
  cbv zeta.
  destruct (np_setitem3 m _ _ _ true) as [m'|e] eqn:Es.
  2: { cbn [fst snd]. rewrite Hcw, Hcd. split; [done|]. split; [by left|].
       intros; discriminate. }
  cbn [fst snd].
  assert (Hw' : worldSlice (set_worldSliceDecay (Some m') (cached position block s))
                = Some ws).
  { destruct (cached position block s); simpl in *. congruence. }
  assert (Hd' : worldSliceDecay (set_worldSliceDecay (Some m') (cached position block s))
                = Some m').
  { by destruct (cached position block s). }
  rewrite Hw', Hd'. split; [done|]. split.
  - right. exists ws, m, m'. done.
  - intros ws' _ [= <-] _. exists m, m'. done.
Qed.

Lemma _placeSingleBlockGlobal_spec position block replace dbu (st : Editor) :
  _placeSingleBlockGlobal position block replace dbu st =
  match placement_checks position block replace st with
  | (Ok None, s) => (Ok true, s)
  | (Ok (Some chosen), s) => place_chosen position chosen dbu s
  | (Raise e, s) => (Raise e, s)
  end.
Proof.
  unfold _placeSingleBlockGlobal, bind.
  destruct (placement_checks position block replace st) as [[[c|]|e] s]; reflexivity.
Qed.

Lemma read_outside_region (st : Editor) (q : ivec3) (gs gd : bool)
  (ws' : WorldSlice) (m' : option (list (list (list bool)))) :
  (forall ws, worldSlice st = Some ws ->
              Rect_contains (ws_rect ws) (dropY q) = false) ->
  Rect_contains (ws_rect ws') (dropY q) = false ->
  getBlockGlobal q gs gd (set_worldSlice (Some ws') (set_worldSliceDecay m' st)) =
  ((getBlockGlobal q gs gd st).1,
   set_worldSlice (Some ws') (set_worldSliceDecay m' (getBlockGlobal q gs gd st).2)).
Proof.
  intros Hout Hout'.
  set (st2 := set_worldSlice (Some ws') (set_worldSliceDecay m' st)).
  assert (Hc : caching st2 = caching st) by (by destruct st).
  assert (Hca : cache st2 = cache st) by (by destruct st).
  assert (Hb : buffering st2 = buffering st) by (by destruct st).
  assert (Hbu : buffer st2 = buffer st) by (by destruct st).
  assert (Htr : trace st2 = trace st) by (by destruct st).
  assert (Hws : worldSlice st2 = Some ws') by (by destruct st).
  assert (Hl : cache_lookup st2 q = cache_lookup st q)
    by (unfold cache_lookup; by rewrite Hc, Hca).
  rewrite !getBlockGlobal_cache. rewrite Hl.
  destruct (cache_lookup st q) as [[[b c']|]|e].
  1,3: cbn [fst snd]; by destruct st.
  rewrite !getBlockGlobal_buffer_spec. rewrite Hb, Hbu.
  destruct (if buffering st then dict_get (buffer st) q else None) as [b|].
  { reflexivity. }
  rewrite !getBlockGlobal_fetch_spec, !slice_to_read_spec. cbn [fst].
  rewrite Hws, Hout'.
  assert (Hsl : match worldSlice st with
                | Some ws =>
                    if Rect_contains (ws_rect ws) (dropY q)
                    then rbind (decayed_at st ws q)
                           (fun d => Ok (if d : bool then None else Some ws))
                    else Ok None
                | None => Ok None
                end = Ok None).
  { destruct (worldSlice st) as [ws|] eqn:E; [|done]. by rewrite (Hout ws). }
  rewrite Hsl. cbv zeta. rewrite Htr.
  destruct (iface_getBlocks (trace st) q gs gd) as [|r0 rest].
  - cbn [fst snd]. by destruct st.
  - cbn [fst snd]. unfold cached. subst st2.
    destruct (caching st) eqn:Ec; destruct st; simpl in *; subst; reflexivity.
Qed.

(** C4, as amended: reads never change the decay mask; a write changes
    it at most by setting one cell to true (so no cell goes back to
    false), and only when the placement was not skipped, went through and
    lies in the slice's rectangle, the cell being the one of the written
    position when its Y is not below the build floor; after such a write
    the read at the position finds its cell decayed and does not turn to
    the slice; a read whose XZ is outside the rectangle consults neither
    the slice nor the mask. *)
Theorem decay_mask_contract (st : Editor) (position : ivec3) (block : Block)
  (replace : option ReplaceArg) (doBlockUpdates_ : option bool)
  (q : ivec3) (gs gd : bool) :
  let out := _placeSingleBlockGlobal position block replace doBlockUpdates_ st in
  let idx ws := decay_index ws position in
  (* a read leaves the mask as it is *)
  worldSliceDecay (getBlockGlobal q gs gd st).2 = worldSliceDecay st /\
  (* a write keeps the slice, and changes the mask only by setting the
     cell of the written position, after a placement that went through *)
  worldSlice out.2 = worldSlice st /\
  (worldSliceDecay out.2 = worldSliceDecay st \/
   exists ws m m' chosen,
     out.1 = Ok true /\
     (placement_checks position block replace st).1 = Ok (Some chosen) /\
     worldSlice st = Some ws /\
     Rect_contains (ws_rect ws) (dropY position) = true /\
     worldSliceDecay st = Some m /\ worldSliceDecay out.2 = Some m' /\
     np_setitem3 m (idx ws).1.1 (idx ws).1.2 (idx ws).2 true = Ok m' /\
     (forall i j k, np_getitem3 m i j k = Ok true -> np_getitem3 m' i j k = Ok true) /\
     (BUILD_Y_MIN <= position.1.2 ->
      forall i j k : nat,
        mask_cell m' i j k <> mask_cell m i j k ->
        i = Z.to_nat (position.1.1 - (offset (ws_rect ws)).1) /\
        j = Z.to_nat (position.1.2 - BUILD_Y_MIN) /\
        k = Z.to_nat (position.2 - (offset (ws_rect ws)).2))) /\
  (* after such a write inside the region, the read at the position
     finds its cell decayed and does not turn to the slice *)
  (forall ws chosen,
     out.1 = Ok true ->
     (placement_checks position block replace st).1 = Ok (Some chosen) ->
     worldSlice st = Some ws ->
     Rect_contains (ws_rect ws) (dropY position) = true ->
     decayed_at out.2 ws position = Ok true /\
     slice_to_read position out.2 = (Ok None, out.2)) /\
  (* a read outside the region consults neither the slice nor the mask *)
  (forall ws,
     worldSlice st = Some ws ->
     Rect_contains (ws_rect ws) (dropY q) = false ->
     slice_to_read q st = (Ok None, st) /\
     forall ws' m',
       Rect_contains (ws_rect ws') (dropY q) = false ->
       getBlockGlobal q gs gd (set_worldSlice (Some ws') (set_worldSliceDecay m' st)) =
       ((getBlockGlobal q gs gd st).1,
        set_worldSlice (Some ws') (set_worldSliceDecay m' (getBlockGlobal q gs gd st).2))).
Proof.
  cbv zeta.
  assert (Houtside : forall ws,
            worldSlice st = Some ws ->
            Rect_contains (ws_rect ws) (dropY q) = false ->
            slice_to_read q st = (Ok None, st) /\
            forall ws' m',
              Rect_contains (ws_rect ws') (dropY q) = false ->
              getBlockGlobal q gs gd
                (set_worldSlice (Some ws') (set_worldSliceDecay m' st)) =
              ((getBlockGlobal q gs gd st).1,
               set_worldSlice (Some ws')
                 (set_worldSliceDecay m' (getBlockGlobal q gs gd st).2))).
  { intros ws Hw Hct. split.
    - rewrite slice_to_read_spec, Hw, Hct. reflexivity.
    - intros ws' m' Hct'. apply read_outside_region; [|exact Hct'].
      intros ws0 Hw0. congruence. }
  split.
  { pose proof (getBlockGlobal_frame q gs gd st) as Hf.
    by destruct (read_frame_fields _ _ Hf)
      as (_ & _ & _ & _ & _ & _ & _ & _ & _ & _ & ? & _). }
  rewrite _placeSingleBlockGlobal_spec.
  pose proof (placement_checks_frame position block replace st) as Hf.
  destruct (read_frame_fields _ _ Hf)
    as (_ & _ & _ & _ & _ & _ & _ & _ & _ & Hws & Hd & _).
  destruct (placement_checks position block replace st) as [[[chosen|]|e] s];
    cbn [fst snd] in *.
  2,3: (split; [done|]; split; [by left|];
        split; [intros; discriminate|exact Houtside]).
  pose proof (place_chosen_mask position chosen doBlockUpdates_ s) as Hm.
  cbv zeta in Hm. destruct Hm as (Hm1 & Hm2 & Hm3).
  rewrite Hws, Hd in *.
  split; [exact Hm1|]. split; [|split; [|exact Houtside]].
  - destruct Hm2 as [Hsame|(ws & m & m' & Hok & Hw & Hct & Hmask & Hmask' & Hset)];
      [by left|right].
    exists ws, m, m', chosen. repeat (split; [done|]). split.
    + intros i j k Ht. eapply np_setitem3_monotone; [exact Hset|exact Ht].
    + intros Hy i j k Hne.
      apply np_setitem3_cells in Hset
        as (i0 & j0 & k0 & plane & row & Hi & _ & Hj & _ & Hk & _ & Hcells).
      rewrite Hcells in Hne.
      destruct (decide (i = i0 /\ j = j0 /\ k = k0)) as [(-> & -> & ->)|]; [|done].
      unfold Rect_contains in Hct. apply bool_decide_eq_true in Hct.
      unfold decay_index, sub3, addY, dropY in *. simpl in *.
      apply np_index_nonneg in Hi, Hj, Hk; lia.
  - intros ws chosen' Hok [= <-] Hw Hct.
    destruct (Hm3 ws Hok Hw Hct) as (m & m' & Hmask & Hmask' & Hset).
    assert (Hdec : decayed_at (place_chosen position chosen doBlockUpdates_ s).2
                     ws position = Ok true).
    { unfold decayed_at. rewrite Hmask'. cbv zeta.
      by eapply np_setitem3_read_back. }
    split; [exact Hdec|].
    rewrite slice_to_read_spec. rewrite Hm1, Hw, Hct, Hdec. reflexivity.
Qed.

Lemma dict_set_fresh {K V : Type} `{EqDecision K} (d : list (K * V)) k v :
  k ∉ d.*1 -> dict_set d k v = d ++ [(k, v)].
Proof.
  induction d as [|[k' v'] d IH]; intros Hk; simpl; [reflexivity|].
  simpl in Hk. apply not_elem_of_cons in Hk as [Hne Hk].
  rewrite decide_False by done. f_equal. by apply IH.
Qed.

Lemma run_op_place position block dbu (st : Editor) :
  run_op (OpPlace position block dbu) st = (Ok tt, staged position block dbu st).
Proof.
  cbn [run_op]. unfold bind. rewrite _placeSingleBlockGlobalBuffered_spec. reflexivity.
Qed.

Lemma stage_each_cons w writes dbu (st : Editor) :
  stage_each (w :: writes) dbu st = stage_each writes dbu (staged w.1 w.2 dbu st).
Proof.
  unfold stage_each. cbn [map run_ops]. unfold bind at 1.
  rewrite run_op_place. reflexivity.
Qed.

Lemma stage_each_below_limit writes dbu (st : Editor) :
  effective_flag st dbu = bufferDoBlockUpdates st ->
  NoDup ((buffer st).*1 ++ writes.*1) ->
  Z.of_nat (length (buffer st)) + Z.of_nat (length writes) <= bufferLimit st ->
  stage_each writes dbu st = (Ok tt, set_buffer (buffer st ++ writes) st).
Proof.
  revert st. induction writes as [|[p b] writes IH]; intros st Hflag Hnd Hlen.
  - rewrite app_nil_r. by destruct st.
  - rewrite stage_each_cons. cbn [fst snd].
    assert (Hst : staged p b dbu st = set_buffer (buffer st ++ [(p, b)]) st).
    { unfold staged. rewrite Hflag. rewrite Bool.eqb_reflx. cbn [negb].
      rewrite bool_decide_eq_false_2 by (simpl in Hlen; lia).
      rewrite dict_set_fresh; [reflexivity|].
      simpl in Hnd. apply NoDup_app in Hnd as (_ & Hnd & _).
      intros Hin. apply (Hnd p Hin). by left. }
    rewrite Hst. rewrite IH.
    + destruct st; simpl. by rewrite <- app_assoc.
    + by destruct st.
    + destruct st; simpl in *. rewrite fmap_app. simpl.
      by rewrite <- app_assoc.
    + destruct st; simpl in *. rewrite length_app. simpl. lia.
Qed.

(** C2, as amended: with an empty buffer of limit [L >= 1], staging [L]
    writes at distinct positions under the buffer's flag only fills the
    buffer (no flush, nothing else changes); the next staging call first
    flushes (exactly one batch with the [L] writes goes to the host, or
    one task to the executor), and afterwards the buffer holds that one
    new write. *)
Theorem buffer_flushes_when_limit_is_exceeded (st : Editor)
  (writes : list (ivec3 * Block)) (p : ivec3) (b : Block) (dbu : option bool) :
  buffer st = [] ->
  bufferLimit st = Z.of_nat (length writes) ->
  writes <> [] ->
  NoDup (writes.*1 ++ [p]) ->
  effective_flag st dbu = bufferDoBlockUpdates st ->
  let st1 := set_buffer writes st in
  (forall k, (k <= length writes)%nat ->
     stage_each (take k writes) dbu st = (Ok tt, set_buffer (take k writes) st)) /\
  _placeSingleBlockGlobalBuffered p b dbu st1
    = (Ok true, set_buffer [(p, b)] (sent default_retries st1)) /\
  (multithreading st = false ->
   placeBlocks_events (trace (sent default_retries st1))
   = placeBlocks_events (trace st)
       ++ [EvPlaceBlocks writes (bufferDoBlockUpdates st) (Some default_retries)]) /\
  (multithreading st = true ->
   trace (sent default_retries st1) = trace st /\
   bufferFlushFutures (sent default_retries st1)
   = bufferFlushFutures st ++ [mkFlushTask writes (commandBuffer st) default_retries]).
Proof.
  intros Hempty Hlimit Hne Hnd Hflag. cbv zeta.
  split; [|split; [|split]].
  - intros k Hk.
    rewrite stage_each_below_limit.
    + by rewrite Hempty.
    + exact Hflag.
    + rewrite Hempty. simpl. apply NoDup_app in Hnd as (Hnd & _ & _).
      rewrite <- (take_drop k writes), fmap_app in Hnd.
      by apply NoDup_app in Hnd as (? & _ & _).
    + rewrite Hempty, Hlimit, length_take. simpl. lia.
  - rewrite _placeSingleBlockGlobalBuffered_spec. f_equal.
    unfold staged.
    assert (effective_flag (set_buffer writes st) dbu
            = bufferDoBlockUpdates (set_buffer writes st)) as -> by (by destruct st).
    rewrite Bool.eqb_reflx. cbn [negb].
    rewrite bool_decide_eq_true_2 by (destruct st; simpl in *; lia).
    destruct (sent_keeps default_retries (set_buffer writes st)) as (_ & -> & _).
    reflexivity.
  - intros Hmt. unfold sent.
    assert (multithreading (set_buffer writes st) = false) as -> by (by destruct st).
    unfold flushed. destruct writes as [|w writes]; [done|].
    destruct (commandBuffer st) as [|c cs] eqn:Ec;
      destruct st; simpl in *; subst; simpl; unfold placeBlocks_events;
      rewrite ?List.filter_app; simpl; by rewrite ?app_nil_r.
  - intros Hmt. unfold sent.
    assert (multithreading (set_buffer writes st) = true) as -> by (by destruct st).
    by destruct st.
Qed.

Lemma all_labelled_set flagOf flag (d : list (ivec3 * Block)) p b :
  all_labelled flagOf flag d -> flagOf b = flag ->
  all_labelled flagOf flag (dict_set d p b).
Proof.
  unfold all_labelled. intros Hd Hb.
  induction d as [|[k v] d IH]; simpl.
  - by constructor.
  - apply Forall_cons in Hd as [Hv Hd].
    destruct (decide (p = k)); constructor; auto.
Qed.

Lemma flushed_trace retries (st : Editor) :
  trace (flushed retries st) =
  trace st
    ++ match buffer st with
       | [] => []
       | _ :: _ => [EvPlaceBlocks (buffer st) (bufferDoBlockUpdates st) (Some retries)]
       end
    ++ match commandBuffer st with
       | [] => []
       | _ :: _ => [EvRunCommand (String.concat newline (commandBuffer st))]
       end /\
  bufferFlushFutures (flushed retries st) = bufferFlushFutures st.
Proof.
  unfold flushed.
  destruct (buffer st) as [|e l] eqn:Eb, (commandBuffer st) as [|c cs] eqn:Ec;
    destruct st; simpl in *; subst; simpl;
    rewrite <- ?app_assoc, ?app_nil_r; done.
Qed.

Lemma sent_uniform flagOf retries (st : Editor) :
  uniform flagOf st -> uniform flagOf (sent retries st).
Proof.
  intros (Hb & Ht & Hf). unfold uniform, buffer_uniform in *.
  destruct (sent_keeps retries st) as (_ & Hbuf & _ & _ & _ & _ & _ & Hflag).
  rewrite Hbuf, Hflag. split; [by constructor|].
  unfold sent.
  destruct (multithreading st) eqn:Emt.
  - split; [by destruct st|].
    assert (bufferFlushFutures
              (set_commandBuffer []
                 (set_buffer []
                    (set_bufferFlushFutures
                       (bufferFlushFutures st
                          ++ [mkFlushTask (buffer st) (commandBuffer st) retries]) st)))
            = bufferFlushFutures st
                ++ [mkFlushTask (buffer st) (commandBuffer st) retries]) as ->
      by (by destruct st).
    apply Forall_app. split; [done|]. constructor; [|constructor].
    exists (bufferDoBlockUpdates st). exact Hb.
  - destruct (flushed_trace retries st) as [-> ->]. split; [|done].
    rewrite !Forall_app. split; [done|]. split.
    + destruct (buffer st); constructor; [exact Hb|constructor].
    + destruct (commandBuffer st); constructor; [exact Logic.I|constructor].
Qed.

Lemma uniform_stage flagOf p b (s : Editor) :
  uniform flagOf s -> flagOf b = bufferDoBlockUpdates s ->
  uniform flagOf (set_buffer (dict_set (buffer s) p b) s).
Proof.
  intros (Hb & Ht & Hf) Hflag. unfold uniform, buffer_uniform in *.
  assert (Hb' : all_labelled flagOf (bufferDoBlockUpdates s) (dict_set (buffer s) p b))
    by (by apply all_labelled_set).
  by destruct s.
Qed.

Lemma uniform_set_flag flagOf flag (s : Editor) :
  uniform flagOf s -> buffer s = [] ->
  uniform flagOf (set_bufferDoBlockUpdates flag s).
Proof.
  intros (Hb & Ht & Hf) Hempty. unfold uniform, buffer_uniform in *.
  destruct s; simpl in *; subst. split; [constructor|done].
Qed.

Lemma run_op_uniform flagOf op (st : Editor) :
  uniform flagOf st ->
  match op with
  | OpPlace _ block dbu => flagOf block = effective_flag st dbu
  | _ => True
  end ->
  (run_op op st).1 = Ok tt /\ uniform flagOf (run_op op st).2.
Proof.
  intros Hu Hl. destruct op as [p b dbu|v|v|r].
  - rewrite run_op_place. split; [done|]. cbn [snd]. unfold staged.
    pose proof (sent_uniform flagOf default_retries st Hu) as Hs.
    destruct (sent_keeps default_retries st) as (_ & Hbuf & _ & _ & _ & _ & _ & Hfl).
    destruct (negb (eqb _ _)) eqn:Eflag.
    + apply uniform_stage.
      * by apply uniform_set_flag.
      * rewrite Hl. by destruct (sent default_retries st).
    + apply Bool.negb_false_iff, Bool.eqb_prop in Eflag.
      destruct (bool_decide _); apply uniform_stage; try done; congruence.
  - cbn [run_op]. unfold doBlockUpdates_setter, modify. split; [done|].
    destruct Hu as (Hb & Ht & Hf). unfold uniform, buffer_uniform in *.
    by destruct st.
  - cbn [run_op]. unfold bufferLimit_setter, bind, modify, gets.
    assert (Hu' : uniform flagOf (set_bufferLimit v st)).
    { destruct Hu as (Hb & Ht & Hf). unfold uniform, buffer_uniform in *.
      by destruct st. }
    destruct (bool_decide _).
    + rewrite sendBufferedBlocks_spec. split; [done|]. by apply sent_uniform.
    + by split.
  - cbn [run_op]. rewrite sendBufferedBlocks_spec. split; [done|].
    by apply sent_uniform.
Qed.

(** C10: along any run of buffered placements, property changes and
    flushes, every block in the buffer was staged under the buffer's
    current [_bufferDoBlockUpdates] flag, every batch handed to the host
    carries the flag its blocks were staged under, and every task handed
    to the executor holds blocks staged under one flag. *)
Theorem buffer_holds_one_doBlockUpdates_setting (flagOf : Block -> bool)
  (ops : list BufferOp) (st : Editor) :
  uniform flagOf st ->
  labelled flagOf ops st ->
  (run_ops ops st).1 = Ok tt /\ uniform flagOf (run_ops ops st).2.
Proof.
  revert st. induction ops as [|op ops IH]; intros st Hu Hl.
  - by split.
  - destruct Hl as [Hop Hrest].
    destruct (run_op_uniform flagOf op st Hu Hop) as [Hok Hu'].
    cbn [run_ops]. unfold bind.
    destruct (run_op op st) as [[[]|e] s]; cbn [fst snd] in *; [|discriminate].
    by apply IH.
Qed.

Lemma rejected_iff (response : list string) (line : string) :
  line ∈ rejected response <-> line ∈ response /\ isnumeric line = false.
Proof.
  unfold rejected. rewrite !list_elem_of_In, List.filter_In.
  by rewrite negb_true_iff.
Qed.

Lemma flushed_warnings retries (st : Editor) :
  warnings (flushed retries st) =
  warnings st
    ++ map WarnPlacingBufferedBlock
         (rejected
            match buffer st with
            | [] => []
            | _ :: _ =>
                iface_placeBlocks (trace st) (buffer st) (bufferDoBlockUpdates st)
                  (Some retries)
            end)
    ++ map WarnSendingBufferedCommand
         (rejected
            match commandBuffer st with
            | [] => []
            | _ :: _ =>
                iface_runCommand
                  (trace st
                     ++ match buffer st with
                        | [] => []
                        | _ :: _ =>
                            [EvPlaceBlocks (buffer st) (bufferDoBlockUpdates st)
                               (Some retries)]
                        end)
                  (String.concat newline (commandBuffer st))
            end).
Proof.
  unfold flushed.
  destruct (buffer st) as [|e l] eqn:Eb, (commandBuffer st) as [|c cs] eqn:Ec;
    destruct st; simpl in *; subst; simpl;
    rewrite <- ?app_assoc, ?app_nil_r; done.
Qed.

(** C7, as amended: a result token counts as success exactly when
    [str.isnumeric] accepts it.  The decimal writing of a non-negative
    integer is always accepted, and a token of ASCII characters is
    accepted only if it is one.  A direct placement whose token is not
    accepted returns [False] after one warning; a flush returns normally
    whatever the tokens are, and warns once for each token of the block
    batch and of the command batch that is not accepted, the whole
    response being read. *)
Theorem result_token_contract (st : Editor) (position : ivec3) (block : Block)
  (doBlockUpdates_ : option bool) (retries : Z) (t : string) (rest : list string) :
  (nonneg_integer_syntax t -> isnumeric t = true) /\
  (is_ascii t = true -> isnumeric t = true -> nonneg_integer_syntax t) /\
  (iface_placeBlocks (trace st) [(position, block)]
     (effective_flag st doBlockUpdates_) None = t :: rest ->
   exists st',
     _placeSingleBlockGlobalDirect position block doBlockUpdates_ st
       = (Ok (isnumeric t), st') /\
     warnings st' =
       warnings st ++ (if isnumeric t then [] else [WarnPlacingBlock (t :: rest)])) /\
  flush retries st = (Ok tt, flushed retries st) /\
  warnings (flushed retries st) =
    warnings st
      ++ map WarnPlacingBufferedBlock
           (rejected
              match buffer st with
              | [] => []
              | _ :: _ =>
                  iface_placeBlocks (trace st) (buffer st) (bufferDoBlockUpdates st)
                    (Some retries)
              end)
      ++ map WarnSendingBufferedCommand
           (rejected
              match commandBuffer st with
              | [] => []
              | _ :: _ =>
                  iface_runCommand
                    (trace st
                       ++ match buffer st with
                          | [] => []
                          | _ :: _ =>
                              [EvPlaceBlocks (buffer st) (bufferDoBlockUpdates st)
                                 (Some retries)]
                          end)
                    (String.concat newline (commandBuffer st))
              end) /\
  (forall response line,
     (line ∈ rejected response <-> line ∈ response /\ isnumeric line = false) /\
     (line ∈ rejected response -> ~ nonneg_integer_syntax line) /\
     (line ∈ response -> is_ascii line = true -> ~ nonneg_integer_syntax line ->
      line ∈ rejected response)).
Proof.
  split; [apply isnumeric_digits|].
  split; [intros Ha; by apply isnumeric_ascii|].
  split; [|split; [apply flush_spec|]].
  - intros Hresp. rewrite _placeSingleBlockGlobalDirect_spec. cbv zeta.
    rewrite Hresp. destruct (isnumeric t).
    + eexists. split; [reflexivity|]. destruct st; simpl. by rewrite app_nil_r.
    + eexists. split; [reflexivity|]. by destruct st.
  - split; [apply flushed_warnings|]. intros response line.
    split; [apply rejected_iff|]. split.
    + intros [_ Hn]%rejected_iff Ht. apply isnumeric_digits in Ht. congruence.
    + intros Hin Ha Hn. apply rejected_iff. split; [done|].
      destruct (isnumeric line) eqn:E; [|done].
      by apply (isnumeric_ascii line Ha) in E.
Qed.

Ltac unfold_m :=
  unfold bind, gets, ret, modify, lift, raise, eprint in *.

Lemma loadWorldSlice_uncached_keeps (rect : option Rect) (st : Editor) :
  worldSlice (loadWorldSlice rect false st).2 = worldSlice st /\
  worldSliceDecay (loadWorldSlice rect false st).2 = worldSliceDecay st.
Proof.
  destruct st. unfold loadWorldSlice, getBuildArea, interface_getBuildArea, new_WorldSlice.
  unfold_m. simpl.
  destruct rect as [r|]; simpl.
  - destruct (iface_WorldSlice _ _); simpl; done.
  - destruct (negb _); simpl; [done|].
    destruct (iface_WorldSlice _ _); simpl; done.
Qed.

(** [updateWorldSlice] leaves the cached slice and its decay mask as
    they were, whatever the state: it calls [loadWorldSlice] without
    [cache=True]. *)
Theorem updateWorldSlice_keeps_cached_slice (st : Editor) :
  worldSlice (updateWorldSlice st).2 = worldSlice st /\
  worldSliceDecay (updateWorldSlice st).2 = worldSliceDecay st.
Proof.
  change (updateWorldSlice st) with
    ((match worldSlice st with
      | Some ws => loadWorldSlice (Some (ws_rect ws)) false
      | None => raise RuntimeError
      end) st).
  destruct (worldSlice st) as [ws|] eqn:E.
  - rewrite <- E. apply loadWorldSlice_uncached_keeps.
  - done.
Qed.

Lemma loadWorldSlice_cached_resets (rect : Rect) (st : Editor) ws :
  iface_WorldSlice (trace st) rect = Ok ws ->
  0 <= (size (ws_rect ws)).1 -> 0 <= BUILD_HEIGHT -> 0 <= (size (ws_rect ws)).2 ->
  exists st',
    loadWorldSlice (Some rect) true st = (Ok ws, st') /\
    worldSlice st' = Some ws /\
    worldSliceDecay st' =
      Some (replicate (Z.to_nat (size (ws_rect ws)).1)
              (replicate (Z.to_nat BUILD_HEIGHT)
                 (replicate (Z.to_nat (size (ws_rect ws)).2) false))).
Proof.
  intros Hws Hx Hy Hz. destruct st.
  unfold loadWorldSlice, new_WorldSlice. unfold_m. simpl in *. rewrite Hws. simpl.
  unfold np_zeros3, addY. simpl. rewrite decide_False by lia. simpl.
  eexists. split; [reflexivity|]. simpl. done.
Qed.

End editor_facts.

(** * Further properties of the loader *)

(** ** The chunk rectangle *)

Lemma shiftr4_bounds (a : Z) : 16 * Z.shiftr a 4 <= a < 16 * Z.shiftr a 4 + 16.
Proof.
  rewrite Z.shiftr_div_pow2 by lia. change (2 ^ 4) with 16.
  pose proof (Z.div_mod a 16). pose proof (Z.mod_pos_bound a 16). lia.
Qed.

Lemma shiftr4_unique (a c : Z) : 16 * c <= a < 16 * c + 16 -> Z.shiftr a 4 = c.
Proof. pose proof (shiftr4_bounds a). lia. Qed.

Lemma chunk_axis_covers (a b : Z) :
  a < b ->
  let c0 := Z.shiftr a 4 in
  let n := Z.shiftr (a + (b - a) - 1) 4 - Z.shiftr a 4 + 1 in
  (forall v, a <= v < b -> 0 <= Z.shiftr v 4 - c0 < n) /\
  (forall c, 0 <= c < n -> exists v, a <= v < b /\ Z.shiftr v 4 - c0 = c).
Proof.
  intros Hab. cbv zeta. replace (a + (b - a) - 1) with (b - 1) by lia.
  pose proof (shiftr4_bounds a) as Ha. pose proof (shiftr4_bounds (b - 1)) as Hb.
  split.
  - intros v Hv. pose proof (shiftr4_bounds v). lia.
  - intros c Hc. exists (Z.max a (16 * (c + Z.shiftr a 4))). split; [lia|].
    rewrite (shiftr4_unique _ (c + Z.shiftr a 4)); lia.
Qed.

(** X1: for a rectangle with at least one column, the chunk rectangle
    that [WorldSlice.__init__] computes covers it exactly: the chunk of
    every column of the rectangle lies in the chunk rectangle, and every
    chunk of the chunk rectangle holds a column of the rectangle. *)
Theorem chunk_rectangle_covers_region (x1 z1 x2 z2 : Z) :
  x1 < x2 -> z1 < z2 ->
  let cr := make_chunkRect (make_rect x1 z1 x2 z2) in
  (forall x z, x1 <= x < x2 -> z1 <= z < z2 ->
     0 <= Z.shiftr x 4 - cr.1.1.1 < cr.1.2 /\
     0 <= Z.shiftr z 4 - cr.1.1.2 < cr.2) /\
  (forall cx cz, 0 <= cx < cr.1.2 -> 0 <= cz < cr.2 ->
     exists x z, x1 <= x < x2 /\ z1 <= z < z2 /\
       Z.shiftr x 4 - cr.1.1.1 = cx /\ Z.shiftr z 4 - cr.1.1.2 = cz).
Proof.
  intros Hx Hz. cbv zeta. unfold make_chunkRect, make_rect. cbn [fst snd].
  destruct (chunk_axis_covers x1 x2 Hx) as [Hx1 Hx2].
  destruct (chunk_axis_covers z1 z2 Hz) as [Hz1 Hz2].
  split.
  - intros x z Hxr Hzr. split; [by apply Hx1|by apply Hz1].
  - intros cx cz Hcx Hcz.
    destruct (Hx2 cx Hcx) as (x & ? & ?). destruct (Hz2 cz Hcz) as (z & ? & ?).
    by exists x, z.
Qed.

(** ** Reading a loaded slice *)

Lemma for_each_range_split {S : Type} (n h : Z) (body : S -> Z -> result S) (s s' : S) :
  0 <= h < n ->
  for_each (range n) body s = Ok s' ->
  exists t t1,
    for_each (seqZ 0 h) body s = Ok t /\ body t h = Ok t1 /\
    for_each (seqZ (h + 1) (n - h - 1)) body t1 = Ok s'.
Proof.
  intros Hh Hrun. unfold range in Hrun.
  replace n with (h + (1 + (n - h - 1))) in Hrun by lia.
  rewrite seqZ_app, (seqZ_app _ 1) in Hrun by lia.
  rewrite for_each_app in Hrun.
  destruct (for_each (seqZ 0 h) body s) as [t|] eqn:E1; cbn [rbind] in Hrun; [|discriminate].
  rewrite for_each_app in Hrun.
  change (seqZ (0 + h) 1) with [0 + h] in Hrun. cbn [for_each rbind] in Hrun.
  replace (0 + h) with h in Hrun by lia.
  destruct (body t h) as [t1|] eqn:E2; cbn [rbind] in Hrun; [|discriminate].
  exists t, t1. repeat split; done.
Qed.

Lemma find_section_app secs more cX cY cZ :
  find_section (secs ++ more) cX cY cZ =
  match find_section secs cX cY cZ with
  | Some s => Some s
  | None => find_section more cX cY cZ
  end.
Proof.
  unfold find_section. induction secs as [|s secs IH]; [reflexivity|].
  simpl. destruct (bool_decide _); [reflexivity|exact IH].
Qed.

Section section_lookup.
Variables (cX cY cZ : Z).

Lemma load_section_elsewhere x z acc section acc' :
  load_section x z acc section = Ok acc' ->
  (x, z) <> (cX, cZ) ->
  find_section acc' cX cY cZ = find_section acc cX cY cZ.
Proof.
  intros H Hne.
  apply load_section_cases in H
    as [[_ ->]|(bs & pal & bio & bpal & _ & _ & _ & _ & _ & _ & _ & -> & _)]; [done|].
  rewrite find_section_app. destruct (find_section acc cX cY cZ); [done|].
  unfold find_section. simpl. rewrite bool_decide_eq_false_2; [done|].
  intros (-> & _ & ->). done.
Qed.

Lemma load_chunk_sections_elsewhere nbt cr x z acc acc' :
  load_chunk_sections nbt cr x acc z = Ok acc' ->
  (x, z) <> (cX, cZ) ->
  find_section acc' cX cY cZ = find_section acc cX cY cZ.
Proof.
  unfold load_chunk_sections. intros H Hne.
  destruct (chunk_at nbt _) as [chunk|]; simpl in H; [|discriminate].
  eapply (for_each_inv
            (fun t => find_section t cX cY cZ = find_section acc cX cY cZ));
    [| |exact H]; [|done].
  intros t v t' _ Ht Hb. rewrite <- Ht. by eapply load_section_elsewhere.
Qed.

Lemma load_sections_here l acc acc' :
  for_each l (load_section cX cZ) acc = Ok acc' ->
  match find_section acc cX cY cZ with
  | Some s0 => find_section acc' cX cY cZ = Some s0
  | None =>
      match List.find
              (fun s => (negb (section_is_empty s) && bool_decide (sec_Y s = cY))%bool) l
      with
      | None => find_section acc' cX cY cZ = None
      | Some section =>
          exists s, find_section acc' cX cY cZ = Some s /\ holds_section s section
      end
  end.
Proof.
  revert acc. induction l as [|section l IH]; intros acc H.
  - simpl in H. injection H as <-. by destruct (find_section acc cX cY cZ).
  - simpl in H.
    destruct (load_section cX cZ acc section) as [acc1|] eqn:E1; simpl in H; [|discriminate].
    specialize (IH acc1 H).
    apply load_section_cases in E1
      as [[He ->]|(bs & pal & bio & bpal & He & Hbs & Hpal & _ & _ & Hp & _ & -> & Hfb & _)].
    + simpl. rewrite He. simpl. exact IH.
    + rewrite find_section_app in IH.
      destruct (find_section acc cX cY cZ) as [s0|]; [exact IH|].
      simpl. rewrite He. simpl.
      unfold find_section in IH at 1. simpl in IH.
      destruct (decide (sec_Y section = cY)) as [HY|HY].
      * rewrite bool_decide_eq_true_2 in IH by done.
        rewrite bool_decide_eq_true_2 by done.
        eexists. split; [exact IH|]. exists bs, pal.
        do 4 (split; [done|]). by apply new_fits.
      * rewrite bool_decide_eq_false_2 in IH by (intros (_ & ? & _); done).
        rewrite bool_decide_eq_false_2 by done. exact IH.
Qed.
End section_lookup.

Lemma load_sections_lookup nbt cr secs cX cY cZ :
  load_sections nbt cr = Ok secs ->
  0 <= cX < cr.1.2 -> 0 <= cZ < cr.2 ->
  exists chunk,
    chunk_at nbt (cX + cZ * cr.1.2) = Ok chunk /\
    match payload_section chunk cY with
    | None => find_section secs cX cY cZ = None
    | Some section =>
        exists s, find_section secs cX cY cZ = Some s /\ holds_section s section
    end.
Proof.
  unfold load_sections. intros H HX HZ.
  apply (for_each_range_split _ cX) in H as (t & t1 & Hpre & Hrow & Hpost); [|done].
  assert (Ht : find_section t cX cY cZ = None).
  { eapply (for_each_inv (fun u => find_section u cX cY cZ = None)); [| |exact Hpre];
      [|done].
    intros u x u' Hx Hu Hb. apply elem_of_seqZ in Hx.
    eapply (for_each_inv (fun w => find_section w cX cY cZ = None)); [|exact Hu|exact Hb].
    intros w z w' _ Hw Hc. rewrite <- Hw.
    eapply load_chunk_sections_elsewhere; [exact Hc|]. intros [= ? ?]. lia. }
  apply (for_each_range_split _ cZ) in Hrow as (u & u1 & Hzpre & Hchunk & Hzpost); [|done].
  assert (Hu : find_section u cX cY cZ = None).
  { eapply (for_each_inv (fun w => find_section w cX cY cZ = None)); [|exact Ht|exact Hzpre].
    intros w z w' Hz Hw Hc. apply elem_of_seqZ in Hz. rewrite <- Hw.
    eapply load_chunk_sections_elsewhere; [exact Hc|]. intros [= ?]. lia. }
  unfold load_chunk_sections in Hchunk.
  destruct (chunk_at nbt (cX + cZ * cr.1.2)) as [chunk|] eqn:Ec; simpl in Hchunk;
    [|discriminate].
  exists chunk. split; [done|].
  pose proof (load_sections_here cX cY cZ _ _ _ Hchunk) as Hhere.
  rewrite Hu in Hhere. fold (payload_section chunk cY) in Hhere.
  assert (Hkeep : find_section secs cX cY cZ = find_section u1 cX cY cZ).
  { assert (Ht1 : find_section t1 cX cY cZ = find_section u1 cX cY cZ).
    { eapply (for_each_inv (fun w => find_section w cX cY cZ = find_section u1 cX cY cZ));
        [| |exact Hzpost]; [|done].
      intros w z w' Hz Hw Hc. apply elem_of_seqZ in Hz. rewrite <- Hw.
      eapply load_chunk_sections_elsewhere; [exact Hc|]. intros [= ?]. lia. }
    eapply (for_each_inv (fun w => find_section w cX cY cZ = find_section u1 cX cY cZ));
      [|exact Ht1|exact Hpost].
    intros w x w' Hx Hw Hb. apply elem_of_seqZ in Hx.
    eapply (for_each_inv (fun v => find_section v cX cY cZ = find_section u1 cX cY cZ));
      [|exact Hw|exact Hb].
    intros v z v' _ Hv Hc. rewrite <- Hv.
    eapply load_chunk_sections_elsewhere; [exact Hc|]. intros [= ? ?]. lia. }
  rewrite Hkeep. exact Hhere.
Qed.

(** X2: a read of a loaded slice at a column of its rectangle decodes
    the payload: [getBlockCompoundAt] answers from the first section of
    the column's chunk at the block's section height that has block
    states, with the palette entry that this section's packed data hold
    for the block; it answers [None] exactly when the chunk has no such
    section. *)
Theorem loaded_section_is_read_back getChunks x1 z1 x2 z2 types ws (x y z : Z) :
  WorldSlice_init getChunks x1 z1 x2 z2 types = Ok ws ->
  x1 <= x < x2 -> z1 <= z < z2 ->
  exists chunk,
    chunk_at (nbtfile ws)
      ((Z.shiftr x 4 - (chunkRect ws).1.1.1)
       + (Z.shiftr z 4 - (chunkRect ws).1.1.2) * (chunkRect ws).1.2) = Ok chunk /\
    getBlockCompoundAt ws x y z =
      match payload_section chunk (Z.shiftr y 4) with
      | None => Ok None
      | Some section => rbind (decode_block section x y z) (fun c => Ok (Some c))
      end.
Proof.
  intros Hinit Hx Hz.
  apply WorldSlice_init_fields in Hinit as (Hr & Hcr & _ & _ & Hsecs & _).
  assert (Hin : 0 <= Z.shiftr x 4 - (chunkRect ws).1.1.1 < (chunkRect ws).1.2 /\
                0 <= Z.shiftr z 4 - (chunkRect ws).1.1.2 < (chunkRect ws).2).
  { rewrite Hcr, Hr. unfold make_chunkRect, make_rect. cbn [fst snd].
    destruct (chunk_axis_covers x1 x2 ltac:(lia)) as [Hx1 _].
    destruct (chunk_axis_covers z1 z2 ltac:(lia)) as [Hz1 _].
    split; [by apply Hx1|by apply Hz1]. }
  destruct Hin as [HX HZ].
  destruct (load_sections_lookup _ _ _ _ (Z.shiftr y 4) _ Hsecs HX HZ) as (chunk & Hc & Hfind).
  exists chunk. split; [exact Hc|].
  unfold getBlockCompoundAt.
  destruct (payload_section chunk (Z.shiftr y 4)) as [section|].
  - destruct Hfind as (s & -> & bs & pal & Hbs & Hpal & Hp & <- & Hba).
    unfold decode_block. rewrite Hbs. cbn [getitem rbind]. rewrite Hpal. cbn [getitem rbind].
    unfold blockPaletteBitsPerEntry, ceil_log2. rewrite decide_False by lia.
    cbn [rbind]. rewrite Hba. cbn [rbind].
    destruct (getAt _ _) as [i|e]; cbn [rbind]; [|done].
    destruct (list_getitem _ _); done.
  - by rewrite Hfind.
Qed.

(** ** Payloads that can be loaded *)

Section for_each_more.
Context {A S : Type}.
Implicit Types (l : list A) (body : S -> A -> result S).

Lemma for_each_total (I : S -> Prop) l body s :
  (forall t v, v ∈ l -> I t -> exists t', body t v = Ok t' /\ I t') ->
  I s -> exists s', for_each l body s = Ok s' /\ I s'.
Proof.
  revert s. induction l as [|v l IH]; intros s Hstep Hs.
  - by exists s.
  - destruct (Hstep s v) as (t & Hb & Ht); [by left|done|].
    simpl. rewrite Hb. simpl. apply IH; [|done].
    intros u w Hw. apply Hstep. by right.
Qed.

Lemma for_each_Ok_each l body s s' v :
  for_each l body s = Ok s' -> v ∈ l -> exists t t', body t v = Ok t'.
Proof.
  revert s. induction l as [|w l IH]; intros s Hrun Hin.
  - by apply elem_of_nil in Hin.
  - simpl in Hrun. destruct (body s w) as [t|] eqn:Eb; simpl in Hrun; [|discriminate].
    apply elem_of_cons in Hin as [->|Hin]; [by exists s, t|].
    by apply (IH t).
Qed.
End for_each_more.

Lemma store_height_total off x z ba cz hm cx :
  exists hm', store_height off x z ba cz hm cx = Ok hm'.
Proof.
  unfold store_height.
  destruct (getAt ba (cz * 16 + cx)) as [v|e] eqn:Eg; cbn [rbind].
  - destruct (np_setitem2 _ _ _ _) as [hm'|e] eqn:Es; [by eexists|].
    apply np_setitem2_Raise in Es as ->. by eexists.
  - apply getAt_Raise in Eg as ->. by eexists.
Qed.

Lemma decode_heightmap_total off x z ba hm :
  exists hm', decode_heightmap off x z ba hm = Ok hm'.
Proof.
  unfold decode_heightmap.
  destruct (for_each_total (fun _ => True) (range 16) (decode_row off x z ba) hm)
    as (hm' & H & _); [|done|by exists hm'].
  intros t cz _ _. unfold decode_row.
  destruct (for_each_total (fun _ => True) (range 16) (store_height off x z ba cz) t)
    as (t' & H & _); [|done|by exists t'].
  intros u cx _ _. destruct (store_height_total off x z ba cz u cx) as [u' ?].
  by exists u'.
Qed.

Lemma has_types_set types hmaps n a :
  has_types types hmaps -> has_types types (dict_set hmaps n a).
Proof.
  intros H m Hm. destruct (decide (m = n)) as [->|Hne].
  - rewrite dict_get_set_eq. by eexists.
  - rewrite dict_get_set_ne by done. by apply H.
Qed.

Lemma init_heightmaps_total r types :
  -1 <= r.1.2 -> -1 <= r.2 ->
  exists hm0, init_heightmaps r types = Ok hm0 /\ has_types types hm0.
Proof.
  intros Hw Hd. unfold init_heightmaps.
  assert (Hgen : forall l (acc : list (string * list (list Z))),
            exists hm0,
              for_each l
                (fun hmaps hmName =>
                   (let! zeros := np_zeros2 (r.1.2 + 1) (r.2 + 1) in
                    Ok (dict_set hmaps hmName zeros))%result) acc = Ok hm0 /\
              (forall n, n ∈ l \/ is_Some (dict_get acc n) -> is_Some (dict_get hm0 n))).
  { induction l as [|m l IH]; intros acc.
    - exists acc. split; [done|]. intros n [Hn|Hn]; [by apply elem_of_nil in Hn|done].
    - simpl. unfold np_zeros2 at 1. rewrite decide_False by lia. simpl.
      destruct (IH (dict_set acc m
                      (replicate (Z.to_nat (r.1.2 + 1))
                         (replicate (Z.to_nat (r.2 + 1)) 0)))) as (hm0 & Hrun & Hkeys).
      exists hm0. split; [exact Hrun|].
      intros n Hn. apply Hkeys.
      destruct (decide (n = m)) as [->|Hne].
      + right. rewrite dict_get_set_eq. by eexists.
      + destruct Hn as [Hn|Hn].
        * left. apply elem_of_cons in Hn as [?|Hn]; done.
        * right. by rewrite dict_get_set_ne. }
  destruct (Hgen types []) as (hm0 & Hrun & Hkeys).
  exists hm0. split; [done|]. intros n Hn. apply Hkeys. by left.
Qed.

Lemma load_heightmap_total off x z hms hmaps types n :
  has_types types hmaps -> n ∈ types ->
  (exists raw, dict_get hms n = Some raw /\ data_fits 9 (16 * 16) (Some raw)) ->
  exists hmaps', load_heightmap off x z hms hmaps n = Ok hmaps' /\ has_types types hmaps'.
Proof.
  intros Hk Hn (raw & Hraw & Hfit). destruct (Hk n Hn) as [a Ha].
  unfold load_heightmap, dict_getitem. rewrite Hraw. cbn [rbind].
  rewrite (new_fits _ _ _ Hfit). cbn [rbind default]. rewrite Ha. cbn [rbind].
  match goal with
  | |- context [decode_heightmap ?o ?cx ?cz ?ba ?b] =>
      destruct (decode_heightmap_total o cx cz ba b) as [a' ->]
  end. cbn [rbind].
  eexists. split; [reflexivity|]. by apply has_types_set.
Qed.

Lemma load_section_total x z secs section :
  section_ok section -> exists secs', load_section x z secs section = Ok secs'.
Proof.
  intros [He|(bs & pal & bio & bpal & Hbs & Hpal & Hne & Hfb & Hbio & Hbpal & Hbne & Hfm)];
    unfold load_section.
  - rewrite He. by eexists.
  - destruct (section_is_empty section); [by eexists|].
    rewrite Hbs. cbn [getitem rbind]. rewrite Hpal. cbn [getitem rbind].
    unfold blockPaletteBitsPerEntry, biomesBitsPerEntry, ceil_log2.
    rewrite decide_False by (destruct pal; [done|simpl; lia]). cbn [rbind].
    rewrite (new_fits _ _ _ Hfb). cbn [rbind].
    rewrite Hbio. cbn [getitem rbind]. rewrite Hbpal. cbn [getitem rbind].
    rewrite decide_False by (destruct bpal; [done|simpl; lia]). cbn [rbind].
    rewrite (new_fits _ _ _ Hfm). cbn [rbind].
    by eexists.
Qed.

Lemma load_section_ok x z secs section secs' :
  load_section x z secs section = Ok secs' -> section_ok section.
Proof.
  intros H. apply load_section_cases in H
    as [[He _]|(bs & pal & bio & bpal & _ & Hbs & Hpal & Hbio & Hbpal & Hp & Hq & _ & Hfb & Hfm)].
  - by left.
  - right. exists bs, pal, bio, bpal. repeat split; try done.
    + intros ->. simpl in Hp. lia.
    + intros ->. simpl in Hq. lia.
Qed.

(** X3: for a rectangle whose sizes are not below -1 (so that the
    height-map arrays can be allocated), [WorldSlice.__init__] returns a
    slice exactly when the payload is well formed for the chunk
    rectangle: it has a chunk at every place, each chunk has every
    requested height-map as packed data of exactly the 37 words of 256
    9-bit elements, and each section that has block states has a
    non-empty block palette and a non-empty biome palette, each with
    packed data that are absent or have exactly the words of 4096 (64 for
    biomes) elements of the palette's bit-width.  On any other payload
    the construction raises. *)
Theorem construction_succeeds_iff_payload_is_well_formed getChunks x1 z1 x2 z2 types :
  x1 - 1 <= x2 -> z1 - 1 <= z2 ->
  let cr := make_chunkRect (make_rect x1 z1 x2 z2) in
  (exists ws, WorldSlice_init getChunks x1 z1 x2 z2 types = Ok ws) <->
  payload_ok (getChunks cr) cr (default default_heightmapTypes types).
Proof.
  intros Hx Hz. cbv zeta.
  set (r := make_rect x1 z1 x2 z2). set (cr := make_chunkRect r).
  set (tys := default default_heightmapTypes types).
  split.
  - intros [ws Hinit].
    apply WorldSlice_init_fields in Hinit
      as (Hr & Hcr & Hnbt & Hty & Hsecs & hm0 & _ & Hhm).
    rewrite Hnbt, Hcr, Hr, ?Hty in *. fold r cr tys in Hhm, Hsecs.
    intros x z Hxr Hzr.
    (* the height-map loops reached the chunk *)
    unfold load_heightmaps in Hhm.
    destruct (for_each_Ok_each _ _ _ _ x Hhm) as (t & t' & Hrow);
      [apply elem_of_seqZ; lia|].
    destruct (for_each_Ok_each _ _ _ _ z Hrow) as (u & u' & Hchunk);
      [apply elem_of_seqZ; lia|].
    unfold load_chunk_heightmaps in Hchunk.
    destruct (chunk_at (getChunks cr) (x + z * cr.1.2)) as [chunk|] eqn:Ec;
      cbn [rbind] in Hchunk; [|discriminate].
    exists chunk. split; [done|]. split.
    + intros n Hn.
      destruct (for_each_Ok_each _ _ _ _ n Hchunk Hn) as (v & v' & Hload).
      unfold load_heightmap, dict_getitem in Hload.
      destruct (dict_get (Heightmaps chunk) n) as [raw|]; [|discriminate].
      cbn [rbind] in Hload. exists raw. split; [done|].
      destruct (new 9 (16 * 16) (Some raw)) as [ba|] eqn:Eba; [|discriminate].
      by apply new_Ok in Eba as [_ ?].
    + unfold load_sections in Hsecs.
      destruct (for_each_Ok_each _ _ _ _ x Hsecs) as (a & a' & Hsrow);
        [apply elem_of_seqZ; lia|].
      destruct (for_each_Ok_each _ _ _ _ z Hsrow) as (b & b' & Hschunk);
        [apply elem_of_seqZ; lia|].
      unfold load_chunk_sections in Hschunk. rewrite Ec in Hschunk.
      cbn [rbind] in Hschunk.
      apply Forall_forall. intros section Hin.
      destruct (for_each_Ok_each _ _ _ _ section Hschunk Hin) as (c & c' & Hsec).
      by eapply load_section_ok.
  - intros Hok. unfold WorldSlice_init. fold r cr tys.
    destruct (init_heightmaps_total r tys) as (hm0 & -> & Hk0);
      [unfold r, make_rect; simpl; lia..|]. cbn [rbind].
    assert (Hhm : exists hm, load_heightmaps (getChunks cr) cr tys
                    (r.1.1.1 mod 16, r.1.1.2 mod 16) hm0 = Ok hm).
    { unfold load_heightmaps.
      destruct (for_each_total (has_types tys) (range cr.1.2)
                  (fun hm x =>
                     for_each (range cr.2)
                       (load_chunk_heightmaps (getChunks cr) cr tys
                          (r.1.1.1 mod 16, r.1.1.2 mod 16) x) hm) hm0)
        as (hm & Hrun & _); [|done|by exists hm].
      intros t x Hxr Ht. apply elem_of_seqZ in Hxr.
      apply (for_each_total (has_types tys)); [|done].
      intros u z Hzr Hu. apply elem_of_seqZ in Hzr.
      destruct (Hok x z) as (chunk & Hc & Hhms & _); [lia..|].
      unfold load_chunk_heightmaps. rewrite Hc. cbn [rbind].
      apply (for_each_total (has_types tys)); [|done].
      intros v n Hn Hv. apply load_heightmap_total; [done..|]. by apply Hhms. }
    destruct Hhm as [hm ->]. cbn [rbind].
    assert (Hsecs : exists secs, load_sections (getChunks cr) cr = Ok secs).
    { unfold load_sections.
      destruct (for_each_total (fun _ => True) (range cr.1.2)
                  (fun secs x =>
                     for_each (range cr.2)
                       (load_chunk_sections (getChunks cr) cr x) secs) [])
        as (secs & Hrun & _); [|done|by exists secs].
      intros t x Hxr _. apply elem_of_seqZ in Hxr.
      apply (for_each_total (fun _ => True)); [|done].
      intros u z Hzr _. apply elem_of_seqZ in Hzr.
      destruct (Hok x z) as (chunk & Hc & _ & Hss); [lia..|].
      unfold load_chunk_sections. rewrite Hc. cbn [rbind].
      apply (for_each_total (fun _ => True)); [|done].
      intros v section Hin _. rewrite Forall_forall in Hss.
      destruct (load_section_total x z v section (Hss _ Hin)) as [v' ->].
      by exists v'. }
    destruct Hsecs as [secs ->]. cbn [rbind]. by eexists.
Qed.

(** ** Biomes *)

Lemma load_sections_biome_size nbt cr secs :
  load_sections nbt cr = Ok secs ->
  Forall (fun s => arraySize (biomesBitArray s) = 64) secs.
Proof.
  unfold load_sections. intros H.
  eapply (for_each_inv (Forall (fun s => arraySize (biomesBitArray s) = 64)));
    [| |exact H]; [|constructor].
  intros t cx t' _ Ht Hrow.
  eapply (for_each_inv (Forall (fun s => arraySize (biomesBitArray s) = 64)));
    [|exact Ht|exact Hrow].
  clear. intros t cz t' _ Ht Hchunk.
  unfold load_chunk_sections in Hchunk.
  destruct (chunk_at nbt _) as [chunk|]; simpl in Hchunk; [|discriminate].
  eapply (for_each_inv (Forall (fun s => arraySize (biomesBitArray s) = 64)));
    [|exact Ht|exact Hchunk].
  intros u section u' _ Hu Hsec.
  apply load_section_cases in Hsec
    as [[_ ->]|(bs & pal & bio & bpal & _ & _ & _ & _ & _ & _ & _ & -> & _)]; [exact Hu|].
  apply Forall_app. split; [exact Hu|]. constructor; [reflexivity|constructor].
Qed.

Lemma list_getitem_Raise {A : Type} (l : list A) i e :
  list_getitem l i = Raise e -> e = IndexError.
Proof.
  unfold list_getitem. intros H.
  destruct (np_index (length l) i) as [i'|e'] eqn:Ei; cbn [rbind] in H.
  - destruct (l !! i'); congruence.
  - apply np_index_Raise in Ei. congruence.
Qed.

(** X4: on a loaded slice [getBiomeAt] finds the section as
    [getBlockCompoundAt] does, and answers [None] only where that one
    does; where the section is present it indexes the 64-entry biome
    array with the block index (up to 4095), so it returns a biome only
    for [y % 16 = 0] and [z % 16 < 4], and raises an [IndexError]
    otherwise (the bounds check of the bit array, or the palette lookup). *)
Theorem biome_reads_reach_only_64_cells getChunks x1 z1 x2 z2 types ws (x y z : Z) :
  WorldSlice_init getChunks x1 z1 x2 z2 types = Ok ws ->
  match getBiomeAt ws x y z with
  | Ok None => getBlockCompoundAt ws x y z = Ok None
  | Ok (Some _) => y mod 16 = 0 /\ z mod 16 < 4
  | Raise e => e = IndexError
  end.
Proof.
  intros Hinit.
  apply WorldSlice_init_fields in Hinit as (_ & _ & _ & _ & Hsecs & _).
  apply load_sections_biome_size in Hsecs. rewrite Forall_forall in Hsecs.
  unfold getBiomeAt, getBlockCompoundAt.
  destruct (find_section _ _ _ _) as [s|] eqn:Ef; [|reflexivity].
  assert (Hs : arraySize (biomesBitArray s) = 64).
  { apply Hsecs. unfold find_section in Ef. apply List.find_some in Ef as [Hin _].
    by apply list_elem_of_In. }
  destruct (getAt (biomesBitArray s) _) as [i|e] eqn:Eg; cbn [rbind].
  - destruct (list_getitem (biomesPalette s) i) as [c|e] eqn:El; cbn [rbind].
    + unfold getAt in Eg. rewrite Hs in Eg.
      destruct (decide (0 <= y mod 16 * 16 * 16 + z mod 16 * 16 + x mod 16 < 64))
        as [Hi|]; [|discriminate].
      pose proof (Z.mod_pos_bound x 16). pose proof (Z.mod_pos_bound y 16).
      pose proof (Z.mod_pos_bound z 16). lia.
    + by apply list_getitem_Raise in El.
  - by apply getAt_Raise in Eg.
Qed.

(** ** Reading outside the chunks *)

Lemma load_sections_in_range nbt cr secs :
  load_sections nbt cr = Ok secs ->
  Forall (fun s => 0 <= x s < cr.1.2 /\ 0 <= z s < cr.2) secs.
Proof.
  unfold load_sections. intros H.
  eapply (for_each_range_inv
            (Forall (fun s => 0 <= x s < cr.1.2 /\ 0 <= z s < cr.2)));
    [| |exact H]; [|constructor].
  intros t cx t' Hcx Ht Hrow.
  eapply (for_each_range_inv
            (Forall (fun s => 0 <= x s < cr.1.2 /\ 0 <= z s < cr.2)));
    [|exact Ht|exact Hrow].
  intros u cz u' Hcz Hu Hchunk.
  unfold load_chunk_sections in Hchunk.
  destruct (chunk_at nbt _) as [chunk|]; simpl in Hchunk; [|discriminate].
  eapply (for_each_inv (Forall (fun s => 0 <= x s < cr.1.2 /\ 0 <= z s < cr.2)));
    [|exact Hu|exact Hchunk].
  intros v section v' _ Hv Hsec.
  apply load_section_cases in Hsec
    as [[_ ->]|(bs & pal & bio & bpal & _ & _ & _ & _ & _ & _ & _ & -> & _)]; [exact Hv|].
  apply Forall_app. split; [exact Hv|]. constructor; [simpl; lia|constructor].
Qed.

(** X23: the sections of a loaded slice all lie in its chunk rectangle,
    so a read at a column whose chunk is outside that rectangle finds no
    section: [getBlockCompoundAt] and [getBiomeAt] answer [None] and
    [getBlockAt] answers ["minecraft:void_air"], whatever the height, and
    nothing is raised. *)
Theorem reads_outside_the_chunks_answer_void getChunks x1 z1 x2 z2 types ws
  (x y z : Z) :
  WorldSlice_init getChunks x1 z1 x2 z2 types = Ok ws ->
  ~ (0 <= Z.shiftr x 4 - (chunkRect ws).1.1.1 < (chunkRect ws).1.2 /\
     0 <= Z.shiftr z 4 - (chunkRect ws).1.1.2 < (chunkRect ws).2) ->
  getBlockCompoundAt ws x y z = Ok None /\
  getBlockAt ws x y z = Ok "minecraft:void_air"%string /\
  getBiomeAt ws x y z = Ok None.
Proof.
  intros Hinit Hout.
  apply WorldSlice_init_fields in Hinit as (_ & _ & _ & _ & Hsecs & _).
  apply load_sections_in_range in Hsecs. rewrite Forall_forall in Hsecs.
  assert (Hnone : find_section (sections ws)
                    (Z.shiftr x 4 - (chunkRect ws).1.1.1) (Z.shiftr y 4)
                    (Z.shiftr z 4 - (chunkRect ws).1.1.2) = None).
  { apply find_section_none. intros s Hs (Hx & _ & Hz).
    apply Hout. rewrite <- Hx, <- Hz. by apply Hsecs. }
  destruct (getBlockCompoundAt_no_section ws x y z Hnone) as [-> ->].
  split; [done|]. split; [done|].
  unfold getBiomeAt. by rewrite Hnone.
Qed.

(** * Further properties of the editor *)

Section further_editor_facts.
Context {Block WorldSlice Cache : Type}.
Context `{!Collaborators Block WorldSlice Cache}.
#[local] Abbreviation Editor := (Editor Block WorldSlice Cache).

(** ** Invariants of the instance *)

Lemma keeps_refl (st : Editor) : keeps st st.
Proof. unfold keeps. intuition. Qed.

Lemma keeps_trans (st1 st2 st3 : Editor) : keeps st1 st2 -> keeps st2 st3 -> keeps st1 st3.
Proof.
  intros (? & ? & ? & ? & ?) (? & ? & ? & ? & ?).
  unfold keeps. intuition congruence.
Qed.

Lemma keeps_of_fields (st st' : Editor) :
  buffering st' = buffering st -> bufferLimit st' = bufferLimit st ->
  buffer st' = buffer st -> commandBuffer st' = commandBuffer st ->
  worldSlice st' = worldSlice st -> worldSliceDecay st' = worldSliceDecay st ->
  keeps st st'.
Proof.
  intros H1 H2 H3 H4 H5 H6.
  unfold keeps, nothing_pending, within_limit, mask_matches_slice.
  rewrite H1, H2, H3, H4, H5, H6. intuition.
Qed.

Lemma read_frame_keeps (st st' : Editor) : read_frame st st' -> keeps st st'.
Proof.
  intros Hf. destruct (read_frame_fields _ _ Hf)
    as (? & ? & ? & ? & _ & _ & _ & _ & _ & ? & ? & _).
  by apply keeps_of_fields.
Qed.

Lemma sent_keeps_all retries (st : Editor) : keeps st (sent retries st).
Proof.
  destruct (sent_keeps retries st) as ((Hws & Hd & _) & Hb & Hc & Hbf & Hl & _).
  unfold keeps, nothing_pending, within_limit, mask_matches_slice.
  rewrite Hws, Hd, Hb, Hc, Hbf, Hl. repeat split; try done.
  intros _. simpl. lia.
Qed.

Lemma dict_set_length {K V : Type} `{EqDecision K} (d : list (K * V)) k v :
  (length d <= length (dict_set d k v) <= S (length d))%nat.
Proof.
  induction d as [|[k' v'] d IH]; simpl; [lia|].
  destruct (decide (k = k')); simpl; lia.
Qed.

Lemma dict_set_not_nil {K V : Type} `{EqDecision K} (d : list (K * V)) k v :
  dict_set d k v <> [].
Proof. destruct d as [|[k' v'] d]; simpl; [done|]. by destruct (decide (k = k')). Qed.

Lemma staged_fields position block dbu (st : Editor) :
  buffering (staged position block dbu st) = buffering st /\
  bufferLimit (staged position block dbu st) = bufferLimit st /\
  worldSlice (staged position block dbu st) = worldSlice st /\
  worldSliceDecay (staged position block dbu st) = worldSliceDecay st /\
  (within_limit st -> within_limit (staged position block dbu st)).
Proof.
  destruct (staged_keeps position block dbu st) as (Hws & Hd & _ & _).
  split; [|split; [|split; [done|split; [done|]]]].
  - unfold staged.
    destruct (sent_keeps default_retries st) as (_ & _ & _ & Hb & _).
    destruct (negb _); [|destruct (bool_decide _)];
      destruct (sent default_retries st), st; simpl in *; done.
  - unfold staged.
    destruct (sent_keeps default_retries st) as (_ & _ & _ & _ & Hb & _).
    destruct (negb _); [|destruct (bool_decide _)];
      destruct (sent default_retries st), st; simpl in *; done.
  - unfold within_limit, staged. intros Hl.
    destruct (sent_keeps default_retries st) as (_ & Hb & _ & _ & Hlim & _).
    destruct (negb _).
    + assert (Z.of_nat (length (dict_set (buffer (sent default_retries st)) position block)) <= 1).
      { rewrite Hb. simpl. lia. }
      destruct (sent default_retries st); simpl in *. lia.
    + destruct (bool_decide _) eqn:Eb.
      * assert (Z.of_nat (length (dict_set (buffer (sent default_retries st)) position block)) <= 1).
        { rewrite Hb. simpl. lia. }
        destruct (sent default_retries st); simpl in *. lia.
      * apply bool_decide_eq_false in Eb.
        pose proof (dict_set_length (buffer st) position block).
        destruct st; simpl in *. lia.
Qed.

Lemma staged_keeps_all position block dbu (st : Editor) :
  buffering st = true -> keeps st (staged position block dbu st).
Proof.
  intros Hb.
  destruct (staged_fields position block dbu st) as (H1 & H2 & H3 & H4 & H5).
  unfold keeps. split; [done|]. split; [done|]. split; [|split; [done|]].
  - intros _. unfold nothing_pending. rewrite H1, Hb. discriminate.
  - unfold mask_matches_slice. by rewrite H3, H4.
Qed.

Lemma direct_fields position block dbu (st : Editor) :
  let st' := (_placeSingleBlockGlobalDirect position block dbu st).2 in
  buffering st' = buffering st /\ bufferLimit st' = bufferLimit st /\
  buffer st' = buffer st /\ commandBuffer st' = commandBuffer st /\
  worldSlice st' = worldSlice st /\ worldSliceDecay st' = worldSliceDecay st.
Proof.
  cbv zeta. rewrite _placeSingleBlockGlobalDirect_spec. cbv zeta.
  destruct (iface_placeBlocks _ _ _ _) as [|t rest]; [by destruct st|].
  destruct (isnumeric t); by destruct st.
Qed.

Lemma cached_fields position block (st : Editor) :
  buffering (cached position block st) = buffering st /\
  bufferLimit (cached position block st) = bufferLimit st /\
  buffer (cached position block st) = buffer st /\
  commandBuffer (cached position block st) = commandBuffer st /\
  worldSlice (cached position block st) = worldSlice st /\
  worldSliceDecay (cached position block st) = worldSliceDecay st.
Proof. unfold cached. destruct (caching st); by destruct st. Qed.

Lemma np_setitem3_shape m i j k v m' a b c :
  np_setitem3 m i j k v = Ok m' -> mask_shape m a b c -> mask_shape m' a b c.
Proof.
  unfold np_setitem3, mask_shape. intros H [Hlen Hall].
  destruct (np_index (length m) i) as [i'|] eqn:Ei; cbn [rbind] in H; [|discriminate].
  destruct (m !! i') as [plane|] eqn:Ep; [|discriminate].
  destruct (np_index (length plane) j) as [j'|] eqn:Ej; cbn [rbind] in H; [|discriminate].
  destruct (plane !! j') as [row|] eqn:Er; [|discriminate].
  destruct (np_index (length row) k) as [k'|] eqn:Ek; cbn [rbind] in H; [|discriminate].
  injection H as <-. rewrite length_insert. split; [done|].
  rewrite Forall_forall in Hall.
  destruct (Hall plane) as [Hpl Hrows]; [by eapply list_elem_of_lookup_2|].
  apply Forall_insert; [by apply Forall_forall|].
  rewrite length_insert. split; [done|].
  apply Forall_insert; [done|]. rewrite length_insert.
  rewrite Forall_forall in Hrows. apply Hrows. by eapply list_elem_of_lookup_2.
Qed.

Lemma mark_decayed_keeps position (st : Editor) :
  keeps st (mark_decayed position st).2.
Proof.
  rewrite mark_decayed_spec.
  destruct (worldSlice st) as [ws|] eqn:Ews; [|apply keeps_refl].
  destruct (Rect_contains _ _); [|apply keeps_refl].
  destruct (worldSliceDecay st) as [m|] eqn:Em; [|apply keeps_refl].
  cbv zeta. destruct (np_setitem3 _ _ _ _ _) as [m'|e] eqn:Es; [|apply keeps_refl].
  cbn [snd]. unfold keeps, nothing_pending, within_limit, mask_matches_slice.
  assert (worldSlice (set_worldSliceDecay (Some m') st) = Some ws) as ->
    by (destruct st; simpl in *; done).
  rewrite Ews, Em.
  assert (worldSliceDecay (set_worldSliceDecay (Some m') st) = Some m') as ->
    by (by destruct st).
  assert (buffering (set_worldSliceDecay (Some m') st) = buffering st) as ->
    by (by destruct st).
  assert (bufferLimit (set_worldSliceDecay (Some m') st) = bufferLimit st) as ->
    by (by destruct st).
  assert (buffer (set_worldSliceDecay (Some m') st) = buffer st) as ->
    by (by destruct st).
  assert (commandBuffer (set_worldSliceDecay (Some m') st) = commandBuffer st) as ->
    by (by destruct st).
  do 4 (split; [done|]). intros Hm. by eapply np_setitem3_shape.
Qed.

Lemma cached_keeps position block (st : Editor) : keeps st (cached position block st).
Proof.
  destruct (cached_fields position block st) as (? & ? & ? & ? & ? & ?).
  by apply keeps_of_fields.
Qed.

Lemma place_chosen_keeps position block dbu (st : Editor) :
  keeps st (place_chosen position block dbu st).2.
Proof.
  rewrite place_chosen_spec.
  assert (Hk : keeps st
            (if buffering st then _placeSingleBlockGlobalBuffered position block dbu st
             else _placeSingleBlockGlobalDirect position block dbu st).2).
  { destruct (buffering st) eqn:Eb.
    - rewrite _placeSingleBlockGlobalBuffered_spec. by apply staged_keeps_all.
    - destruct (direct_fields position block dbu st) as (? & ? & ? & ? & ? & ?).
      by apply keeps_of_fields. }
  destruct (if buffering st then _ else _) as [[[]|e] s]; cbn [snd] in Hk; try done.
  pose proof (mark_decayed_keeps position (cached position block s)) as Hm.
  pose proof (cached_keeps position block s) as Hc.
  destruct (mark_decayed position (cached position block s)) as [[[]|e] s'];
    cbn [snd] in *; eauto using keeps_trans.
Qed.

Lemma _placeSingleBlockGlobal_keeps position block replace dbu (st : Editor) :
  keeps st (_placeSingleBlockGlobal position block replace dbu st).2.
Proof.
  rewrite _placeSingleBlockGlobal_spec.
  pose proof (placement_checks_frame position block replace st) as Hf.
  apply read_frame_keeps in Hf.
  destruct (placement_checks position block replace st) as [[[chosen|]|e] s];
    cbn [snd] in *; try done.
  eapply keeps_trans; [exact Hf|]. apply place_chosen_keeps.
Qed.

Lemma eagerAll_keeps (f : ivec3 -> M Block WorldSlice Cache bool) l (st : Editor) :
  (forall pos s, keeps s (f pos s).2) ->
  keeps st (eagerAll f l st).2.
Proof.
  intros Hf. revert st. induction l as [|pos l IH]; intros st; [apply keeps_refl|].
  cbn [eagerAll]. unfold bind at 1.
  pose proof (Hf pos st) as H1.
  destruct (f pos st) as [[r|e] s]; cbn [snd] in H1; [|exact H1].
  unfold bind at 1. pose proof (IH s) as H2.
  destruct (eagerAll f l s) as [[rs|e] s']; cbn [snd] in *;
    eauto using keeps_trans.
Qed.

Lemma keeps_keeps_invariants (st st' : Editor) : keeps st st' -> keeps_invariants st st'.
Proof. intros (_ & _ & H). exact H. Qed.

Lemma buffering_setter_spec value (st : Editor) :
  buffering_setter value st =
  (Ok tt, set_buffering value
            (if (buffering st && negb value)%bool then sent default_retries st else st)).
Proof.
  unfold buffering_setter. unfold bind at 1. unfold gets at 1. unfold bind at 1.
  destruct (buffering st && negb value)%bool.
  - rewrite sendBufferedBlocks_spec. reflexivity.
  - reflexivity.
Qed.

Lemma set_buffering_fields value (st : Editor) :
  buffering (set_buffering value st) = value /\
  bufferLimit (set_buffering value st) = bufferLimit st /\
  buffer (set_buffering value st) = buffer st /\
  commandBuffer (set_buffering value st) = commandBuffer st /\
  worldSlice (set_buffering value st) = worldSlice st /\
  worldSliceDecay (set_buffering value st) = worldSliceDecay st.
Proof. by destruct st. Qed.

Lemma buffering_setter_keeps value (st : Editor) :
  keeps_invariants st (buffering_setter value st).2.
Proof.
  rewrite buffering_setter_spec. cbn [snd].
  set (s := if (buffering st && negb value)%bool then sent default_retries st else st).
  destruct (set_buffering_fields value s) as (Hb & Hl & Hbu & Hc & Hws & Hd).
  assert (Hs : keeps st s).
  { subst s. destruct (_ && _)%bool; [apply sent_keeps_all|apply keeps_refl]. }
  destruct Hs as (Hsb & Hsl & Hnp & Hwl & Hmm).
  unfold keeps_invariants, nothing_pending, within_limit, mask_matches_slice in *.
  rewrite Hb, Hl, Hbu, Hc, Hws, Hd. split; [|split; [done|done]].
  intros Hst ->. subst s.
  destruct (buffering st) eqn:Eb; cbn [andb negb] in *.
  - destruct (sent_keeps default_retries st) as (_ & ? & ? & _). done.
  - by apply Hst.
Qed.

Lemma placeBlockGlobal_keeps position block replace dbu (st : Editor) :
  keeps_invariants st (placeBlockGlobal position block replace dbu st).2.
Proof.
  destruct position as [p|l]; cbn [placeBlockGlobal].
  - apply keeps_keeps_invariants, _placeSingleBlockGlobal_keeps.
  - unfold bind at 1. unfold gets at 1. unfold bind at 1.
    rewrite buffering_setter_spec.
    replace (buffering st && negb true)%bool with false by (by destruct (buffering st)).
    unfold bind at 1.
    set (st1 := set_buffering true st).
    destruct (set_buffering_fields true st) as (Hb & Hl & Hbu & Hc & Hws & Hd).
    fold st1 in Hb, Hl, Hbu, Hc, Hws, Hd.
    pose proof (eagerAll_keeps
                  (fun pos => _placeSingleBlockGlobal pos block replace dbu) l st1
                  (fun pos s => _placeSingleBlockGlobal_keeps pos block replace dbu s))
      as Hk.
    assert (H1 : nothing_pending st1) by (unfold nothing_pending; rewrite Hb; discriminate).
    assert (H2 : within_limit st -> within_limit st1)
      by (unfold within_limit; by rewrite Hbu, Hl).
    assert (H3 : mask_matches_slice st -> mask_matches_slice st1)
      by (unfold mask_matches_slice; by rewrite Hws, Hd).
    destruct (eagerAll _ l st1) as [[success|e] st2]; cbn [snd] in Hk.
    + unfold bind at 1.
      pose proof (buffering_setter_keeps (buffering st) st2) as Hset.
      destruct (buffering_setter (buffering st) st2) as [[[]|e] st3] eqn:Es;
        cbn [snd] in *.
      * unfold ret. cbn [snd].
        destruct Hk as (_ & _ & K1 & K2 & K3). destruct Hset as (S1 & S2 & S3).
        unfold keeps_invariants. split; [|split]; auto.
      * destruct Hk as (_ & _ & K1 & K2 & K3). destruct Hset as (S1 & S2 & S3).
        unfold keeps_invariants. split; [|split]; auto.
    + destruct Hk as (_ & _ & K1 & K2 & K3).
      unfold keeps_invariants. split; [|split]; auto.
Qed.

Lemma runCommand_keeps command sync (st : Editor) :
  keeps_invariants st (runCommand command sync st).2.
Proof.
  unfold runCommand. unfold bind at 1. unfold gets at 1.
  destruct (buffering st) eqn:Eb; cbn [andb]; [destruct sync|].
  - unfold modify. cbn [snd].
    unfold keeps_invariants, nothing_pending, within_limit, mask_matches_slice.
    destruct st; simpl in *; subst. split; [discriminate|done].
  - apply keeps_keeps_invariants.
    unfold bind, interface_runCommand, ret. cbn [snd].
    apply keeps_of_fields; by destruct st.
  - apply keeps_keeps_invariants.
    unfold bind, interface_runCommand, ret. cbn [snd].
    apply keeps_of_fields; by destruct st.
Qed.

Lemma bufferLimit_setter_spec value (st : Editor) :
  bufferLimit_setter value st =
  (Ok tt,
   if bool_decide (Z.of_nat (length (buffer st)) >= value)
   then sent default_retries (set_bufferLimit value st)
   else set_bufferLimit value st).
Proof.
  unfold bufferLimit_setter. unfold bind at 1. unfold modify at 1.
  unfold bind at 1. unfold gets at 1.
  assert (buffer (set_bufferLimit value st) = buffer st) as -> by (by destruct st).
  destruct (bool_decide _); [apply sendBufferedBlocks_spec|reflexivity].
Qed.

Lemma bufferLimit_setter_keeps value (st : Editor) :
  keeps_invariants st (bufferLimit_setter value st).2 /\
  within_limit (bufferLimit_setter value st).2.
Proof.
  rewrite bufferLimit_setter_spec. cbn [snd].
  set (s := set_bufferLimit value st).
  assert (Hf : buffering s = buffering st /\ bufferLimit s = value /\
               buffer s = buffer st /\ commandBuffer s = commandBuffer st /\
               worldSlice s = worldSlice st /\ worldSliceDecay s = worldSliceDecay st)
    by (by destruct st).
  destruct Hf as (Hb & Hl & Hbu & Hc & Hws & Hd).
  destruct (bool_decide (Z.of_nat (length (buffer st)) >= value)) eqn:Ed.
  - destruct (sent_keeps default_retries s) as ((Sws & Sd & _) & Sb & Sc & Sbf & Sl & _).
    unfold keeps_invariants, nothing_pending, within_limit, mask_matches_slice.
    rewrite Sws, Sd, Sb, Sc, Hws, Hd. cbn [length].
    split; [split; [done|split; [intros _|done]]|]; lia.
  - apply bool_decide_eq_false in Ed.
    unfold keeps_invariants, nothing_pending, within_limit, mask_matches_slice.
    rewrite Hb, Hl, Hbu, Hc, Hws, Hd.
    split; [split; [done|split; [intros _|done]]|]; lia.
Qed.

Lemma getBuildArea_fields (st : Editor) :
  let st' := (getBuildArea st).2 in
  buffering st' = buffering st /\ bufferLimit st' = bufferLimit st /\
  buffer st' = buffer st /\ commandBuffer st' = commandBuffer st /\
  worldSlice st' = worldSlice st /\ worldSliceDecay st' = worldSliceDecay st.
Proof.
  cbv zeta. unfold getBuildArea, bind, interface_getBuildArea, raise, ret.
  destruct (negb _); by destruct st.
Qed.

Lemma mask_shape_zeros (a b c : Z) :
  0 <= a -> 0 <= b -> 0 <= c ->
  mask_shape (replicate (Z.to_nat a) (replicate (Z.to_nat b) (replicate (Z.to_nat c) false)))
    a b c.
Proof.
  intros Ha Hb Hc. unfold mask_shape. rewrite length_replicate. split; [lia|].
  apply Forall_replicate. rewrite length_replicate. split; [lia|].
  apply Forall_replicate. rewrite length_replicate. lia.
Qed.

Lemma new_slice_keeps (r : Rect) (cache_ : bool) (st s : Editor) out :
  out = (do worldSlice_ <- new_WorldSlice r;
         (if cache_ then
            modify (set_worldSlice (Some worldSlice_)) ;;
            let sz := addY (size (ws_rect worldSlice_)) BUILD_HEIGHT in
            do zeros <- lift (np_zeros3 sz.1.1 sz.1.2 sz.2);
            modify (set_worldSliceDecay (Some zeros))
          else ret tt) ;;
         ret worldSlice_) s ->
  keeps st s ->
  (nothing_pending st -> nothing_pending out.2) /\
  (within_limit st -> within_limit out.2) /\
  (slices_have_size -> mask_matches_slice st -> mask_matches_slice out.2).
Proof.
  intros Hout (Kb & Kl & Knp & Kwl & Kmm).
  unfold bind at 1 in Hout. unfold new_WorldSlice at 1 in Hout.
  set (s1 := set_trace (trace s ++ [EvGetChunks r]) s) in Hout.
  assert (K1 : keeps s s1) by (apply keeps_of_fields; by destruct s).
  destruct K1 as (_ & _ & K1np & K1wl & K1mm).
  destruct (iface_WorldSlice (trace s) r) as [ws|e] eqn:Ews.
  2: { subst out. cbn [snd]. split; [|split]; auto. }
  destruct cache_.
  2: { unfold bind, ret in Hout. subst out. cbn [snd]. split; [|split]; auto. }
  unfold bind at 1 in Hout. unfold bind at 1 in Hout. unfold modify at 1 in Hout.
  unfold bind at 1 in Hout. unfold lift at 1 in Hout.
  unfold np_zeros3, addY in Hout. cbn [fst snd] in Hout.
  destruct (decide (_ \/ _ \/ _)) as [Hneg|Hpos].
  - subst out. cbn [snd]. split; [|split].
    + intros Hn. specialize (K1np (Knp Hn)). unfold nothing_pending in *.
      by destruct s1.
    + intros Hn. specialize (K1wl (Kwl Hn)). unfold within_limit in *.
      by destruct s1.
    + intros [HH Hsz] _. destruct (Hsz _ _ _ Ews). lia.
  - unfold modify, ret in Hout. subst out. cbn [snd]. split; [|split].
    + intros Hn. specialize (K1np (Knp Hn)). unfold nothing_pending in *.
      by destruct s1.
    + intros Hn. specialize (K1wl (Kwl Hn)). unfold within_limit in *.
      by destruct s1.
    + intros _ _. unfold mask_matches_slice.
      match goal with
      | |- context [set_worldSliceDecay (Some ?m) (set_worldSlice (Some ws) s1)] =>
          assert (worldSlice (set_worldSliceDecay (Some m) (set_worldSlice (Some ws) s1))
                  = Some ws) as -> by (by destruct s1);
          assert (worldSliceDecay
                    (set_worldSliceDecay (Some m) (set_worldSlice (Some ws) s1))
                  = Some m) as -> by (by destruct s1)
      end.
      apply mask_shape_zeros; lia.
Qed.

Lemma loadWorldSlice_keeps rect cache_ (st : Editor) :
  (nothing_pending st -> nothing_pending (loadWorldSlice rect cache_ st).2) /\
  (within_limit st -> within_limit (loadWorldSlice rect cache_ st).2) /\
  (slices_have_size ->
   mask_matches_slice st -> mask_matches_slice (loadWorldSlice rect cache_ st).2).
Proof.
  destruct rect as [r|].
  - eapply (new_slice_keeps r cache_ st st); [reflexivity|apply keeps_refl].
  - pose proof (getBuildArea_fields st) as Hg. cbv zeta in Hg.
    destruct Hg as (? & ? & ? & ? & ? & ?).
    assert (Kg : keeps st (getBuildArea st).2) by (by apply keeps_of_fields).
    destruct (getBuildArea st) as [[r|e] s] eqn:Eg; cbn [snd] in *.
    + eapply (new_slice_keeps r cache_ st s); [|exact Kg].
      unfold loadWorldSlice. unfold bind at 1. rewrite Eg. reflexivity.
    + assert (loadWorldSlice None cache_ st = (Raise e, s)) as ->.
      { unfold loadWorldSlice. unfold bind at 1. by rewrite Eg. }
      cbn [snd]. destruct Kg as (_ & _ & ? & ? & ?). split; [|split]; auto.
Qed.

Lemma after_call_keeps (st : Editor) (c : Call) :
  (nothing_pending st -> nothing_pending (after_call st c)) /\
  (within_limit st -> within_limit (after_call st c)) /\
  (slices_have_size -> mask_matches_slice st -> mask_matches_slice (after_call st c)).
Proof.
  assert (Hweak : forall s', keeps_invariants st s' ->
            (nothing_pending st -> nothing_pending s') /\
            (within_limit st -> within_limit s') /\
            (slices_have_size -> mask_matches_slice st -> mask_matches_slice s')).
  { intros s' (? & ? & ?). split; [|split]; auto. }
  destruct c; cbn [after_call].
  - apply Hweak, keeps_keeps_invariants, read_frame_keeps, getBlockGlobal_frame.
  - apply Hweak, placeBlockGlobal_keeps.
  - apply Hweak, runCommand_keeps.
  - rewrite sendBufferedBlocks_spec. apply Hweak, keeps_keeps_invariants, sent_keeps_all.
  - apply Hweak, buffering_setter_keeps.
  - apply Hweak, bufferLimit_setter_keeps.
  - apply Hweak, keeps_keeps_invariants. unfold caching_setter, modify. cbn [snd].
    apply keeps_of_fields; by destruct st.
  - apply Hweak, keeps_keeps_invariants. unfold doBlockUpdates_setter, modify. cbn [snd].
    apply keeps_of_fields; by destruct st.
  - pose proof (getBuildArea_fields st) as Hg. cbv zeta in Hg.
    destruct Hg as (? & ? & ? & ? & ? & ?).
    by apply Hweak, keeps_keeps_invariants, keeps_of_fields.
  - apply loadWorldSlice_keeps.
  - change (updateWorldSlice st) with
      ((match worldSlice st with
        | Some ws => loadWorldSlice (Some (ws_rect ws)) false
        | None => raise RuntimeError
        end) st).
    destruct (worldSlice st) as [ws|]; [apply loadWorldSlice_keeps|].
    unfold raise. cbn [snd]. split; [|split]; auto.
Qed.

(** X5: whatever calls a client makes, in any order, whether they
    return or raise: while buffering is off, the write buffer and the
    command buffer are empty (nothing that was placed or deferred is left
    unsent once buffering has been turned off). *)
Theorem nothing_is_pending_while_buffering_is_off (st : Editor) (calls : list Call) :
  nothing_pending st -> nothing_pending (after_calls st calls).
Proof.
  revert st. induction calls as [|c calls IH]; intros st Hst; [exact Hst|].
  cbn [after_calls foldl]. apply IH. by apply after_call_keeps.
Qed.

(** X6: whatever calls a client makes, the write buffer never holds more
    than [bufferLimit] blocks, or more than one when the limit is below
    one. *)
Theorem buffer_stays_within_its_limit (st : Editor) (calls : list Call) :
  within_limit st -> within_limit (after_calls st calls).
Proof.
  revert st. induction calls as [|c calls IH]; intros st Hst; [exact Hst|].
  cbn [after_calls foldl]. apply IH. by apply after_call_keeps.
Qed.

(** X7: on a host whose slices have a rectangle of non-negative size (and
    with a non-negative build height), whatever calls a client makes: the
    decay mask is there exactly when a slice is cached, and its shape is
    the size of the slice's rectangle by the build height. *)
Theorem mask_always_matches_slice (st : Editor) (calls : list Call) :
  slices_have_size -> mask_matches_slice st -> mask_matches_slice (after_calls st calls).
Proof.
  intros Hsz. revert st. induction calls as [|c calls IH]; intros st Hst; [exact Hst|].
  cbn [after_calls foldl]. apply IH. by apply after_call_keeps.
Qed.


(** ** The build height *)

Lemma np_index_in_range n i :
  - Z.of_nat n <= i < Z.of_nat n -> exists i', np_index n i = Ok i' /\ (i' < n)%nat.
Proof.
  intros Hi. unfold np_index.
  destruct (decide (0 <= i < Z.of_nat n)); [eexists; split; [done|lia]|].
  rewrite decide_True by lia. eexists; split; [done|lia].
Qed.

Lemma np_index_out_of_range n i :
  ~ (- Z.of_nat n <= i < Z.of_nat n) -> np_index n i = Raise IndexError.
Proof.
  intros Hi. unfold np_index. rewrite !decide_False by lia. reflexivity.
Qed.

Lemma mask_shape_cell m a b c (i k : Z) (j : Z) :
  mask_shape m a b c -> 0 <= i < a -> 0 <= k < c ->
  (- b <= j < b ->
   (exists d, np_getitem3 m i j k = Ok d) /\
   (exists m', np_setitem3 m i j k true = Ok m')) /\
  (~ (- b <= j < b) ->
   np_getitem3 m i j k = Raise IndexError /\
   np_setitem3 m i j k true = Raise IndexError).
Proof.
  intros [Hlen Hall] Hi Hk. unfold np_getitem3, np_setitem3.
  destruct (np_index_in_range (length m) i) as (i' & -> & Hi'); [lia|]. cbn [rbind].
  destruct (lookup_lt_is_Some_2 m i' Hi') as [plane Hp]. rewrite Hp.
  rewrite Forall_forall in Hall.
  destruct (Hall plane) as [Hpl Hrows]; [by eapply list_elem_of_lookup_2|].
  split.
  - intros Hj.
    destruct (np_index_in_range (length plane) j) as (j' & -> & Hj'); [lia|]. cbn [rbind].
    destruct (lookup_lt_is_Some_2 plane j' Hj') as [row Hr]. rewrite Hr.
    rewrite Forall_forall in Hrows.
    assert (Hrl : Z.of_nat (length row) = c)
      by (apply Hrows; by eapply list_elem_of_lookup_2).
    destruct (np_index_in_range (length row) k) as (k' & -> & Hk'); [lia|]. cbn [rbind].
    destruct (lookup_lt_is_Some_2 row k' Hk') as [d Hd]. rewrite Hd.
    split; by eexists.
  - intros Hj. rewrite np_index_out_of_range by lia. done.
Qed.

Lemma decay_index_in_rect (ws : WorldSlice) (position : ivec3) :
  Rect_contains (ws_rect ws) (dropY position) = true ->
  0 <= (decay_index ws position).1.1 < (size (ws_rect ws)).1 /\
  (decay_index ws position).1.2 = position.1.2 - BUILD_Y_MIN /\
  0 <= (decay_index ws position).2 < (size (ws_rect ws)).2.
Proof.
  unfold Rect_contains. intros Hc. apply bool_decide_eq_true in Hc.
  unfold decay_index, sub3, addY, dropY in *. cbn [fst snd] in *. lia.
Qed.

(** X8: with a slice cached and its mask in shape, a read at a column of
    the slice's rectangle that neither the cache nor the buffer answers
    depends on the height: for [-BUILD_HEIGHT <= y - BUILD_Y_MIN <
    BUILD_HEIGHT] the mask cell can be read and the slice or the network
    answers; for any other height the read raises an [IndexError] and no
    request is made (it does not answer void air). *)
Theorem read_in_slice_depends_on_height (st : Editor) (ws : WorldSlice)
  (position : ivec3) (gs gd : bool) :
  mask_matches_slice st ->
  worldSlice st = Some ws ->
  Rect_contains (ws_rect ws) (dropY position) = true ->
  cache_lookup st position = Ok None ->
  (if buffering st then dict_get (buffer st) position else None) = None ->
  let h := position.1.2 - BUILD_Y_MIN in
  (- BUILD_HEIGHT <= h < BUILD_HEIGHT ->
   exists d, read_source st position = Ok (if d : bool then FromNetwork else FromSnapshot ws)) /\
  (~ (- BUILD_HEIGHT <= h < BUILD_HEIGHT) ->
   getBlockGlobal position gs gd st = (Raise IndexError, st)).
Proof.
  intros Hmm Hws Hct Hcache Hbuf. cbv zeta.
  unfold mask_matches_slice in Hmm. rewrite Hws in Hmm.
  destruct (worldSliceDecay st) as [m|] eqn:Em; [|done].
  destruct (decay_index_in_rect ws position Hct) as (Hi & Hj & Hk).
  destruct (mask_shape_cell m _ _ _ _ _ (decay_index ws position).1.2 Hmm Hi Hk)
    as [Hin Hout].
  split.
  - intros Hh. destruct Hin as [[d Hd] _]; [lia|]. exists d.
    unfold read_source. rewrite Hcache, Hbuf, Hws, Hct.
    unfold decayed_at. rewrite Em. cbv zeta. rewrite Hd. reflexivity.
  - intros Hh. destruct Hout as [Hg _]; [lia|].
    rewrite getBlockGlobal_cache, Hcache, getBlockGlobal_buffer_spec, Hbuf.
    rewrite getBlockGlobal_fetch_spec, slice_to_read_spec. cbn [fst].
    rewrite Hws, Hct. unfold decayed_at. rewrite Em. cbv zeta. rewrite Hg.
    reflexivity.
Qed.

(** X9: with a slice cached and its mask in shape, buffering on and
    caching off, placing a block at a column of the slice's rectangle
    whose height is outside [-BUILD_HEIGHT <= y - BUILD_Y_MIN <
    BUILD_HEIGHT] raises an [IndexError] after the block has been staged:
    the instance is left as the staging left it, with the block in the
    write buffer. *)
Theorem write_outside_build_height_raises_after_staging (st : Editor) (ws : WorldSlice)
  (position : ivec3) (block : Block) (doBlockUpdates_ : option bool) :
  mask_matches_slice st ->
  worldSlice st = Some ws ->
  Rect_contains (ws_rect ws) (dropY position) = true ->
  ~ (- BUILD_HEIGHT <= position.1.2 - BUILD_Y_MIN < BUILD_HEIGHT) ->
  buffering st = true -> caching st = false ->
  block_id (chooseId block) <> ""%string ->
  let out := placeBlockGlobal (OnePosition position) block None doBlockUpdates_ st in
  out = (Raise IndexError, staged position (chooseId block) doBlockUpdates_ st) /\
  dict_get (buffer out.2) position = Some (chooseId block).
Proof.
  intros Hmm Hws Hct Hh Hb Hc Hid. cbv zeta.
  assert (Hplace : placeBlockGlobal (OnePosition position) block None doBlockUpdates_ st
                   = (Raise IndexError, staged position (chooseId block) doBlockUpdates_ st)).
  { cbn [placeBlockGlobal]. rewrite _placeSingleBlockGlobal_spec.
    assert (placement_checks position block None st = (Ok (Some (chooseId block)), st))
      as ->.
    { unfold placement_checks. unfold bind at 1. unfold ret at 1. cbn [negb].
      cbv zeta. rewrite bool_decide_eq_false_2 by done.
      unfold bind at 1. unfold gets at 1. rewrite Hc. reflexivity. }
    rewrite place_chosen_spec, Hb, _placeSingleBlockGlobalBuffered_spec.
    set (s := staged position (chooseId block) doBlockUpdates_ st).
    destruct (staged_fields position (chooseId block) doBlockUpdates_ st)
      as (_ & _ & Sws & Sd & _). fold s in Sws, Sd.
    assert (Hcs : caching s = false).
    { destruct (staged_keeps position (chooseId block) doBlockUpdates_ st)
        as (_ & _ & Hcs & _). fold s in Hcs. congruence. }
    unfold cached. rewrite Hcs. rewrite mark_decayed_spec, Sws, Hws, Hct, Sd.
    unfold mask_matches_slice in Hmm. rewrite Hws in Hmm.
    destruct (worldSliceDecay st) as [m|] eqn:Em; [|done].
    destruct (decay_index_in_rect ws position Hct) as (Hi & Hj & Hk).
    destruct (mask_shape_cell m _ _ _ _ _ (decay_index ws position).1.2 Hmm Hi Hk)
      as [_ Hout].
    destruct Hout as [_ Hs]; [lia|]. cbv zeta. rewrite Hs.
    reflexivity. }
  split; [exact Hplace|]. rewrite Hplace. cbn [snd].
  unfold staged.
  match goal with
  | |- dict_get (buffer (set_buffer (dict_set ?d _ _) ?s)) _ = _ =>
      assert (buffer (set_buffer (dict_set d position (chooseId block)) s)
              = dict_set d position (chooseId block)) as -> by (by destruct s)
  end.
  apply dict_get_set_eq.
Qed.

(** ** Placing at many positions *)

Lemma buffered_single_place position block replace dbu (st : Editor) :
  buffering st = true ->
  (_placeSingleBlockGlobal position block replace dbu st).1 <> Ok false /\
  buffering (_placeSingleBlockGlobal position block replace dbu st).2 = true.
Proof.
  intros Hb. split.
  - rewrite _placeSingleBlockGlobal_spec.
    pose proof (placement_checks_frame position block replace st) as Hf.
    destruct (placement_checks position block replace st) as [[[chosen|]|e] s];
      cbn [fst snd] in *; try done.
    destruct (read_frame_fields _ _ Hf) as (Hbs & _).
    rewrite place_chosen_spec, Hbs, Hb, _placeSingleBlockGlobalBuffered_spec.
    destruct (mark_decayed _ _) as [[[]|e] s']; done.
  - destruct (_placeSingleBlockGlobal_keeps position block replace dbu st) as (-> & _).
    exact Hb.
Qed.

Lemma eagerAll_cons (f : ivec3 -> M Block WorldSlice Cache bool) pos l (st : Editor) :
  eagerAll f (pos :: l) st =
  match f pos st with
  | (Ok r, s) =>
      match eagerAll f l s with
      | (Ok rs, s') => (Ok (r && rs)%bool, s')
      | (Raise e, s') => (Raise e, s')
      end
  | (Raise e, s) => (Raise e, s)
  end.
Proof.
  cbn [eagerAll]. unfold bind at 1. destruct (f pos st) as [[r|e] s]; [|reflexivity].
  unfold bind at 1. destruct (eagerAll f l s) as [[rs|e] s']; reflexivity.
Qed.

Lemma eagerAll_buffered block replace dbu l (st : Editor) :
  buffering st = true ->
  let out := eagerAll (fun pos => _placeSingleBlockGlobal pos block replace dbu) l st in
  out.1 <> Ok false /\ buffering out.2 = true.
Proof.
  cbv zeta. revert st. induction l as [|pos l IH]; intros st Hb; [done|].
  rewrite eagerAll_cons.
  destruct (buffered_single_place pos block replace dbu st Hb) as [Hr Hs].
  destruct (_placeSingleBlockGlobal pos block replace dbu st) as [[r|e] s];
    cbn [fst snd] in *; [|done].
  destruct r; [|done].
  destruct (IH s Hs) as [Hr' Hs'].
  destruct (eagerAll _ l s) as [[rs|e] s']; cbn [fst snd] in *; [|done].
  destruct rs; done.
Qed.

Lemma placeBlockGlobal_many block replace dbu l (st : Editor) :
  placeBlockGlobal (ManyPositions l) block replace dbu st =
  match eagerAll (fun pos => _placeSingleBlockGlobal pos block replace dbu) l
          (set_buffering true st) with
  | (Ok success, s) =>
      (Ok success,
       set_buffering (buffering st)
         (if (buffering s && negb (buffering st))%bool
          then sent default_retries s else s))
  | (Raise e, s) => (Raise e, s)
  end.
Proof.
  cbn [placeBlockGlobal]. unfold bind at 1. unfold gets at 1. unfold bind at 1.
  rewrite buffering_setter_spec.
  replace (buffering st && negb true)%bool with false by (by destruct (buffering st)).
  unfold bind at 1.
  destruct (eagerAll _ l (set_buffering true st)) as [[success|e] s]; [|reflexivity].
  unfold bind at 1. rewrite buffering_setter_spec. reflexivity.
Qed.

(** X10: [placeBlockGlobal] with an iterable of positions, when it
    returns, returns [True] whatever the host answers (every placement
    goes through the buffer, where a rejection only prints a warning at
    the flush); it leaves [buffering] as it found it, and when buffering
    was off it leaves both buffers empty. *)
Theorem placing_at_many_positions_reports_success (st st' : Editor)
  (l : list ivec3) (block : Block) (replace : option ReplaceArg)
  (doBlockUpdates_ : option bool) (r : bool) :
  placeBlockGlobal (ManyPositions l) block replace doBlockUpdates_ st = (Ok r, st') ->
  r = true /\
  buffering st' = buffering st /\
  (buffering st = false -> buffer st' = [] /\ commandBuffer st' = []).
Proof.
  rewrite placeBlockGlobal_many. intros Hrun.
  destruct (eagerAll_buffered block replace doBlockUpdates_ l (set_buffering true st))
    as [Hr Hs]; [by destruct st|].
  destruct (eagerAll _ l (set_buffering true st)) as [[success|e] s];
    cbn [fst snd] in *; [|discriminate].
  injection Hrun as <- <-.
  split; [by destruct success|].
  split; [apply set_buffering_fields|].
  intros Hoff. rewrite Hs, Hoff. cbn [andb negb].
  destruct (set_buffering_fields false (sent default_retries s)) as (_ & _ & -> & -> & _).
  destruct (sent_keeps default_retries s) as (_ & ? & ? & _). done.
Qed.

(** X11: when [placeBlockGlobal] with an iterable of positions raises,
    buffering is left enabled, whatever it was before the call: the old
    value is restored only after the loop. *)
Theorem interrupted_placing_leaves_buffering_on (st st' : Editor)
  (l : list ivec3) (block : Block) (replace : option ReplaceArg)
  (doBlockUpdates_ : option bool) (e : exn) :
  placeBlockGlobal (ManyPositions l) block replace doBlockUpdates_ st = (Raise e, st') ->
  buffering st' = true.
Proof.
  rewrite placeBlockGlobal_many. intros Hrun.
  destruct (eagerAll_buffered block replace doBlockUpdates_ l (set_buffering true st))
    as [Hr Hs]; [by destruct st|].
  destruct (eagerAll _ l (set_buffering true st)) as [[success|e'] s];
    cbn [fst snd] in *; [discriminate|].
  by injection Hrun as <- <-.
Qed.

(** ** Commands and flushes *)

(** X12: with buffering on, [runCommand] with [syncWithBuffer=True]
    sends nothing and appends the command to the command buffer; the next
    flush (without multithreading) sends the buffered blocks first, if
    there are any, and then all deferred commands in one request, joined
    by newlines in the order they were issued, and leaves both buffers
    empty. *)
Theorem deferred_commands_follow_the_blocks (st : Editor) (command : string)
  (retries : Z) :
  buffering st = true -> multithreading st = false ->
  let st1 := set_commandBuffer (commandBuffer st ++ [command]) st in
  runCommand command true st = (Ok tt, st1) /\
  trace st1 = trace st /\
  exists st2,
    sendBufferedBlocks retries st1 = (Ok tt, st2) /\
    trace st2 =
      trace st
        ++ match buffer st with
           | [] => []
           | _ :: _ => [EvPlaceBlocks (buffer st) (bufferDoBlockUpdates st) (Some retries)]
           end
        ++ [EvRunCommand (String.concat newline (commandBuffer st ++ [command]))] /\
    buffer st2 = [] /\ commandBuffer st2 = [].
Proof.
  intros Hb Hmt. cbv zeta.
  split; [|split; [by destruct st|]].
  - unfold runCommand, bind, gets, modify. rewrite Hb. reflexivity.
  - eexists. split; [apply sendBufferedBlocks_spec|].
    set (st1 := set_commandBuffer (commandBuffer st ++ [command]) st).
    destruct (sent_keeps retries st1) as (_ & Sb & Sc & _).
    split; [|done].
    unfold sent.
    assert (multithreading st1 = false) as -> by (by destruct st).
    destruct (flushed_trace retries st1) as [-> _].
    assert (trace st1 = trace st) as -> by (by destruct st).
    assert (buffer st1 = buffer st) as -> by (by destruct st).
    assert (bufferDoBlockUpdates st1 = bufferDoBlockUpdates st) as -> by (by destruct st).
    assert (commandBuffer st1 = commandBuffer st ++ [command]) as -> by (by destruct st).
    destruct (commandBuffer st ++ [command]) eqn:E; [|reflexivity].
    by apply app_eq_nil in E as [_ ?].
Qed.

(** X13: [sendBufferedBlocks] always returns and leaves both buffers
    empty; a second call right after it sends nothing and changes nothing
    without multithreading, and with multithreading submits one more task,
    with two empty buffers. *)
Theorem flushing_twice_sends_once (st : Editor) (retries retries' : Z) :
  exists st1,
    sendBufferedBlocks retries st = (Ok tt, st1) /\
    buffer st1 = [] /\ commandBuffer st1 = [] /\
    sendBufferedBlocks retries' st1 =
      (Ok tt,
       if multithreading st then
         set_bufferFlushFutures
           (bufferFlushFutures st1 ++ [mkFlushTask [] [] retries']) st1
       else st1).
Proof.
  exists (sent retries st). split; [apply sendBufferedBlocks_spec|].
  destruct (sent_keeps retries st) as (_ & Sb & Sc & _ & _ & Smt & _).
  split; [done|]. split; [done|].
  rewrite sendBufferedBlocks_spec. f_equal.
  unfold sent at 1. rewrite Smt.
  destruct (multithreading st).
  - rewrite Sb, Sc. destruct (sent retries st); simpl in *; subst; reflexivity.
  - unfold flushed. rewrite Sb, Sc. reflexivity.
Qed.

(** X14: [__del__] turns multithreading off and then flushes on the
    calling thread: whatever the mode was, the blocks and the commands
    still buffered go to the interface in this call (blocks first), no
    task is submitted, and both buffers are left empty. *)
Theorem teardown_flushes_on_the_calling_thread (st : Editor) :
  exists st',
    __del__ st = (Ok tt, st') /\
    multithreading st' = false /\
    buffer st' = [] /\ commandBuffer st' = [] /\
    bufferFlushFutures st' = bufferFlushFutures st /\
    trace st' =
      trace st
        ++ match buffer st with
           | [] => []
           | _ :: _ =>
               [EvPlaceBlocks (buffer st) (bufferDoBlockUpdates st) (Some default_retries)]
           end
        ++ match commandBuffer st with
           | [] => []
           | _ :: _ => [EvRunCommand (String.concat newline (commandBuffer st))]
           end.
Proof.
  unfold __del__, multithreading_setter_False. unfold bind, modify.
  rewrite sendBufferedBlocks_spec. eexists. split; [reflexivity|].
  set (s := set_multithreading false st).
  destruct (sent_keeps default_retries s) as (_ & Sb & Sc & _ & _ & Smt & _).
  assert (Hmt : multithreading s = false) by (by destruct st).
  split; [congruence|]. split; [done|]. split; [done|].
  unfold sent. rewrite Hmt.
  destruct (flushed_trace default_retries s) as [-> ->].
  split; by destruct st.
Qed.

(** ** Reading what was staged *)

(** X15: with buffering on and caching off, a placement of a block with a
    non-empty identifier and no [replace] filter sends nothing beyond what
    the staging itself flushes, and a read at the position right after it
    returns the chosen block from the write buffer, without a request;
    this holds also when the placement raised after staging. *)
Theorem buffered_write_is_read_back (st : Editor) (position : ivec3) (block : Block)
  (doBlockUpdates_ : option bool) (gs gd : bool) :
  buffering st = true -> caching st = false ->
  block_id (chooseId block) <> ""%string ->
  let st' := (placeBlockGlobal (OnePosition position) block None doBlockUpdates_ st).2 in
  trace st' = trace (staged position (chooseId block) doBlockUpdates_ st) /\
  getBlockGlobal position gs gd st' = (Ok (chooseId block), st').
Proof.
  intros Hb Hc Hid. cbv zeta. cbn [placeBlockGlobal].
  rewrite _placeSingleBlockGlobal_spec.
  assert (placement_checks position block None st = (Ok (Some (chooseId block)), st))
    as ->.
  { unfold placement_checks. unfold bind at 1. unfold ret at 1. cbn [negb].
    cbv zeta. rewrite bool_decide_eq_false_2 by done.
    unfold bind at 1. unfold gets at 1. rewrite Hc. reflexivity. }
  rewrite place_chosen_spec, Hb, _placeSingleBlockGlobalBuffered_spec.
  set (s := staged position (chooseId block) doBlockUpdates_ st).
  assert (Hs : buffering s = true /\ caching s = false /\
               dict_get (buffer s) position = Some (chooseId block)).
  { destruct (staged_fields position (chooseId block) doBlockUpdates_ st) as (Sb & _).
    destruct (staged_keeps position (chooseId block) doBlockUpdates_ st)
      as (_ & _ & Sc & _).
    fold s in Sb, Sc. split; [congruence|]. split; [congruence|].
    subst s. unfold staged.
    match goal with
    | |- dict_get (buffer (set_buffer (dict_set ?d _ _) ?s)) _ = _ =>
        assert (buffer (set_buffer (dict_set d position (chooseId block)) s)
                = dict_set d position (chooseId block)) as -> by (by destruct s)
    end.
    apply dict_get_set_eq. }
  destruct Hs as (Sb & Sc & Sg).
  unfold cached. rewrite Sc.
  assert (Hread : forall s' : Editor,
            buffering s' = true -> caching s' = false ->
            dict_get (buffer s') position = Some (chooseId block) ->
            getBlockGlobal position gs gd s' = (Ok (chooseId block), s')).
  { intros s' H1 H2 H3.
    by rewrite getBlockGlobal_cache, (cache_lookup_off _ _ H2),
      getBlockGlobal_buffer_spec, H1, H3. }
  rewrite mark_decayed_spec.
  destruct (worldSlice s) as [ws|]; [|by split; [|apply Hread]].
  destruct (Rect_contains _ _); [|by split; [|apply Hread]].
  destruct (worldSliceDecay s) as [m|]; [|by split; [|apply Hread]].
  cbv zeta. destruct (np_setitem3 _ _ _ _ _) as [m'|e]; [|by split; [|apply Hread]].
  cbn [snd]. split; [by destruct s|]. apply Hread; by destruct s.
Qed.

(** ** A direct placement that the host rejects *)

(** X16: with buffering and caching off, a placement whose single-block
    request the host answers with a first token that is not numeric
    returns [False] after exactly that one request and one warning; the
    lookup cache, the decay mask and the write buffer are left as they
    were. *)
Theorem rejected_direct_write_is_not_recorded (st : Editor) (position : ivec3)
  (block : Block) (doBlockUpdates_ : option bool) (t : string) (rest : list string) :
  buffering st = false -> caching st = false ->
  block_id (chooseId block) <> ""%string ->
  iface_placeBlocks (trace st) [(position, chooseId block)]
    (effective_flag st doBlockUpdates_) None = t :: rest ->
  isnumeric t = false ->
  exists st',
    placeBlockGlobal (OnePosition position) block None doBlockUpdates_ st
      = (Ok false, st') /\
    trace st' =
      trace st ++ [EvPlaceBlocks [(position, chooseId block)]
                     (effective_flag st doBlockUpdates_) None] /\
    warnings st' = warnings st ++ [WarnPlacingBlock (t :: rest)] /\
    cache st' = cache st /\ worldSliceDecay st' = worldSliceDecay st /\
    buffer st' = buffer st.
Proof.
  intros Hb Hc Hid Hresp Hnum. cbn [placeBlockGlobal].
  rewrite _placeSingleBlockGlobal_spec.
  assert (placement_checks position block None st = (Ok (Some (chooseId block)), st))
    as ->.
  { unfold placement_checks. unfold bind at 1. unfold ret at 1. cbn [negb].
    cbv zeta. rewrite bool_decide_eq_false_2 by done.
    unfold bind at 1. unfold gets at 1. rewrite Hc. reflexivity. }
  rewrite place_chosen_spec, Hb, _placeSingleBlockGlobalDirect_spec. cbv zeta.
  rewrite Hresp, Hnum. eexists. split; [reflexivity|]. by destruct st.
Qed.

(** ** A freshly cached slice *)

(** X17: after [loadWorldSlice] with [cache=True] has returned a slice,
    a read at a column of the slice's rectangle, at a height with
    [-BUILD_HEIGHT <= y - BUILD_Y_MIN < BUILD_HEIGHT], that the cache
    lets pass (caching is off, or the lookup raised a [TypeError]) and
    the buffer does not answer, is answered by the slice, and no request
    is made. *)
Theorem fresh_slice_answers_reads (st st1 : Editor) (rect : option Rect)
  (ws : WorldSlice) (position : ivec3) (gs gd : bool) :
  loadWorldSlice rect true st = (Ok ws, st1) ->
  Rect_contains (ws_rect ws) (dropY position) = true ->
  - BUILD_HEIGHT <= position.1.2 - BUILD_Y_MIN < BUILD_HEIGHT ->
  cache_lookup st position = Ok None ->
  (if buffering st then dict_get (buffer st) position else None) = None ->
  read_source st1 position = Ok (FromSnapshot ws) /\
  getBlockGlobal position gs gd st1 =
    match rbind (ws_getBlockCompoundAt ws position) fromBlockCompound with
    | Ok block => (Ok block, cached position block st1)
    | Raise e => (Raise e, st1)
    end.
Proof.
  intros Hload Hct Hh Hcache Hbuf.
  assert (Hst1 : exists s,
            st1 = set_worldSliceDecay
                    (Some (replicate (Z.to_nat (size (ws_rect ws)).1)
                       (replicate (Z.to_nat BUILD_HEIGHT)
                          (replicate (Z.to_nat (size (ws_rect ws)).2) false))))
                    (set_worldSlice (Some ws) s) /\
            caching s = caching st /\ cache s = cache st /\
            buffering s = buffering st /\ buffer s = buffer st /\
            0 <= (size (ws_rect ws)).1 /\ 0 <= BUILD_HEIGHT /\ 0 <= (size (ws_rect ws)).2).
  { unfold loadWorldSlice in Hload. unfold bind at 1 in Hload.
    assert (Hg : exists r s0,
              (match rect with Some r => ret r | None => getBuildArea end) st = (Ok r, s0) /\
              caching s0 = caching st /\ cache s0 = cache st /\
              buffering s0 = buffering st /\ buffer s0 = buffer st).
    { destruct rect as [r|]; [by exists r, st|].
      unfold getBuildArea, bind, interface_getBuildArea, raise, ret in *.
      destruct (negb _); [discriminate|].
      eexists _, _. split; [reflexivity|]. by destruct st. }
    destruct Hg as (r & s0 & Hg & G1 & G2 & G3 & G4). rewrite Hg in Hload.
    unfold bind at 1 in Hload. unfold new_WorldSlice at 1 in Hload.
    destruct (iface_WorldSlice (trace s0) r) as [ws'|e]; [|discriminate].
    unfold bind at 1 in Hload. unfold bind at 1 in Hload. unfold modify at 1 in Hload.
    unfold bind at 1 in Hload. unfold lift at 1 in Hload.
    unfold np_zeros3, addY in Hload. cbn [fst snd] in Hload.
    destruct (decide (_ \/ _ \/ _)) as [Hneg|Hpos]; [discriminate|].
    unfold modify, ret in Hload. injection Hload as -> <-.
    eexists. split; [reflexivity|]. repeat split; try lia; by destruct s0. }
  destruct Hst1 as (s & -> & Hc & Hca & Hb & Hbu & Hx & Hy & Hz).
  set (m := replicate _ _).
  set (st1 := set_worldSliceDecay (Some m) (set_worldSlice (Some ws) s)).
  assert (F1 : caching st1 = caching st) by (subst st1; destruct s; simpl in *; done).
  assert (F2 : cache st1 = cache st) by (subst st1; destruct s; simpl in *; done).
  assert (F3 : buffering st1 = buffering st) by (subst st1; destruct s; simpl in *; done).
  assert (F4 : buffer st1 = buffer st) by (subst st1; destruct s; simpl in *; done).
  assert (F5 : worldSlice st1 = Some ws) by (subst st1; by destruct s).
  assert (F6 : worldSliceDecay st1 = Some m) by (subst st1; by destruct s).
  assert (Hdec : decayed_at st1 ws position = Ok false).
  { unfold decayed_at. rewrite F6. cbv zeta.
    destruct (decay_index_in_rect ws position Hct) as (Hi & Hj & Hk).
    unfold np_getitem3. subst m.
    rewrite length_replicate.
    destruct (np_index_in_range (Z.to_nat (size (ws_rect ws)).1)
                (decay_index ws position).1.1) as (i' & -> & Hi'); [lia|].
    cbn [rbind]. rewrite lookup_replicate_2 by done. rewrite length_replicate.
    destruct (np_index_in_range (Z.to_nat BUILD_HEIGHT)
                (decay_index ws position).1.2) as (j' & -> & Hj'); [lia|].
    cbn [rbind]. rewrite lookup_replicate_2 by done. rewrite length_replicate.
    destruct (np_index_in_range (Z.to_nat (size (ws_rect ws)).2)
                (decay_index ws position).2) as (k' & -> & Hk'); [lia|].
    cbn [rbind]. by rewrite lookup_replicate_2. }
  assert (Hl : cache_lookup st1 position = Ok None)
    by (by rewrite (cache_lookup_same st st1 position F1 F2)).
  assert (Hsrc : read_source st1 position = Ok (FromSnapshot ws)).
  { unfold read_source. rewrite Hl. cbn [rbind].
    rewrite F3, F4, Hbuf, F5, Hct, Hdec. reflexivity. }
  split; [exact Hsrc|].
  rewrite getBlockGlobal_cache, Hl.
  rewrite getBlockGlobal_buffer_spec, F3, F4, Hbuf.
  rewrite getBlockGlobal_fetch_spec, slice_to_read_spec. cbn [fst].
  rewrite F5, Hct, Hdec. reflexivity.
Qed.

(** ** Every staged write is sent once *)

Lemma build_snoc (writes : list (ivec3 * Block)) w :
  build (writes ++ [w]) = dict_set (build writes) w.1 w.2.
Proof. unfold build. by rewrite foldl_app. Qed.

Lemma build_nil_inv (writes : list (ivec3 * Block)) : build writes = [] -> writes = [].
Proof.
  destruct writes as [|w writes] using rev_ind; [done|].
  rewrite build_snoc. intros H. by apply dict_set_not_nil in H.
Qed.

Lemma batches_app (a b : list (Event Block)) : batches (a ++ b) = batches a ++ batches b.
Proof. apply omap_app. Qed.

Lemma sent_batches retries (st : Editor) :
  multithreading st = false ->
  batches (trace (sent retries st)) =
  batches (trace st) ++ match buffer st with [] => [] | _ :: _ => [buffer st] end.
Proof.
  intros Hmt. unfold sent. rewrite Hmt.
  destruct (flushed_trace retries st) as [-> _]. rewrite !batches_app.
  destruct (buffer st), (commandBuffer st); simpl; by rewrite ?app_nil_r.
Qed.

Lemma staged_batches position block dbu (st : Editor) cur0 :
  buffer st = build cur0 -> multithreading st = false ->
  let st' := staged position block dbu st in
  multithreading st' = false /\
  exists pre cur1,
    cur0 ++ [(position, block)] = concat pre ++ cur1 /\
    Forall (fun seg => seg <> []) pre /\
    batches (trace st') = batches (trace st) ++ map build pre /\
    buffer st' = build cur1.
Proof.
  intros Hbuf Hmt. cbv zeta.
  destruct (sent_keeps default_retries st) as (_ & Sb & _ & _ & _ & Smt & _).
  pose proof (sent_batches default_retries st Hmt) as Sbat.
  assert (Hflush : forall s : Editor,
            buffer s = [] -> multithreading s = false ->
            batches (trace s) =
              batches (trace st) ++ match buffer st with [] => [] | _ :: _ => [buffer st] end ->
            let st' := set_buffer (dict_set (buffer s) position block) s in
            multithreading st' = false /\
            exists pre cur1,
              cur0 ++ [(position, block)] = concat pre ++ cur1 /\
              Forall (fun seg => seg <> []) pre /\
              batches (trace st') = batches (trace st) ++ map build pre /\
              buffer st' = build cur1).
  { intros s Hs Hsm Hsb. cbv zeta.
    assert (multithreading (set_buffer (dict_set (buffer s) position block) s)
            = multithreading s) as -> by (by destruct s).
    assert (trace (set_buffer (dict_set (buffer s) position block) s) = trace s) as ->
      by (by destruct s).
    assert (buffer (set_buffer (dict_set (buffer s) position block) s)
            = dict_set (buffer s) position block) as -> by (by destruct s).
    split; [done|]. rewrite Hs, Hsb.
    destruct (buffer st) as [|e l] eqn:Eb.
    - symmetry in Hbuf. apply build_nil_inv in Hbuf as ->.
      exists [], [(position, block)]. repeat split. constructor.
    - exists [cur0], [(position, block)]. simpl. rewrite app_nil_r.
      split; [done|]. split; [|by rewrite Hbuf].
      constructor; [|done]. intros ->. done. }
  unfold staged.
  destruct (negb _).
  - assert (H1 : buffer (set_bufferDoBlockUpdates (effective_flag st dbu)
                           (sent default_retries st)) = [])
      by (destruct (sent default_retries st); simpl in *; done).
    assert (H2 : multithreading (set_bufferDoBlockUpdates (effective_flag st dbu)
                                   (sent default_retries st)) = false)
      by (destruct (sent default_retries st); simpl in *; congruence).
    assert (H3 : trace (set_bufferDoBlockUpdates (effective_flag st dbu)
                          (sent default_retries st)) = trace (sent default_retries st))
      by (by destruct (sent default_retries st)).
    apply Hflush; [done|done|]. by rewrite H3.
  - destruct (bool_decide _).
    + apply Hflush; [done|congruence|done].
    + assert (multithreading (set_buffer (dict_set (buffer st) position block) st)
              = multithreading st) as -> by (by destruct st).
      assert (trace (set_buffer (dict_set (buffer st) position block) st) = trace st) as ->
        by (by destruct st).
      assert (buffer (set_buffer (dict_set (buffer st) position block) st)
              = dict_set (buffer st) position block) as -> by (by destruct st).
      split; [done|].
      exists [], (cur0 ++ [(position, block)]). simpl. rewrite app_nil_r.
      split; [done|]. split; [done|]. split; [done|].
      by rewrite build_snoc, Hbuf.
Qed.

Lemma stage_each_batches writes dbu (st : Editor) cur0 :
  buffer st = build cur0 -> multithreading st = false ->
  exists segs cur,
    cur0 ++ writes = concat segs ++ cur /\
    Forall (fun seg => seg <> []) segs /\
    batches (trace (stage_each writes dbu st).2) = batches (trace st) ++ map build segs /\
    buffer (stage_each writes dbu st).2 = build cur.
Proof.
  revert st cur0. induction writes as [|[p b] writes IH]; intros st cur0 Hbuf Hmt.
  - exists [], cur0. simpl. rewrite !app_nil_r. done.
  - rewrite stage_each_cons. cbn [fst snd].
    destruct (staged_batches p b dbu st cur0 Hbuf Hmt)
      as (Hmt' & pre & cur1 & Hsplit & Hpre & Hbat & Hbuf').
    destruct (IH _ cur1 Hbuf' Hmt') as (segs & cur & Hs & Hne & Hb & Hc).
    exists (pre ++ segs), cur.
    split; [|split; [by apply Forall_app|split; [|done]]].
    + rewrite concat_app, <- app_assoc, <- Hs, app_assoc, <- Hsplit, <- app_assoc.
      reflexivity.
    + rewrite Hb, Hbat, map_app, app_assoc. reflexivity.
Qed.

(** X18: staging writes one after the other from an empty buffer, without
    multithreading, loses and repeats nothing: the sequence of writes
    splits into consecutive non-empty segments followed by a rest, such
    that the batches handed to the interface during the run are, in
    order, the dicts built from the segments, and the buffer at the end is
    the dict built from the rest (in a dict a later write to a position
    replaces the earlier one in place). *)
Theorem staged_writes_are_sent_once_in_order (st : Editor)
  (writes : list (ivec3 * Block)) (doBlockUpdates_ : option bool) :
  buffer st = [] -> multithreading st = false ->
  let st' := (stage_each writes doBlockUpdates_ st).2 in
  exists segs cur,
    writes = concat segs ++ cur /\
    Forall (fun seg => seg <> []) segs /\
    batches (trace st') = batches (trace st) ++ map build segs /\
    buffer st' = build cur.
Proof.
  intros Hbuf Hmt. cbv zeta.
  apply (stage_each_batches writes doBlockUpdates_ st []); done.
Qed.

(** ** The build area *)

(** X20: [loadWorldSlice] without a rectangle first asks the host for the
    build area.  When the host reports none, [getBuildArea] and with it
    [loadWorldSlice] raise a [RuntimeError]: no chunk is requested and the
    cached slice stays as it was.  Otherwise the call goes on exactly as
    [loadWorldSlice] with the reported area. *)
Theorem loading_without_rectangle_uses_the_build_area (st : Editor) (cache_ : bool) :
  let st1 := set_trace (trace st ++ [EvGetBuildArea]) st in
  match iface_getBuildArea (trace st) with
  | (true, area) =>
      getBuildArea st = (Ok area, st1) /\
      loadWorldSlice None cache_ st = loadWorldSlice (Some area) cache_ st1
  | (false, _) =>
      getBuildArea st = (Raise RuntimeError, st1) /\
      loadWorldSlice None cache_ st = (Raise RuntimeError, st1)
  end.
Proof.
  cbv zeta.
  assert (Hg : getBuildArea st =
               (if (iface_getBuildArea (trace st)).1
                then Ok (iface_getBuildArea (trace st)).2 else Raise RuntimeError,
                set_trace (trace st ++ [EvGetBuildArea]) st)).
  { unfold getBuildArea, bind, interface_getBuildArea, raise, ret.
    by destruct (iface_getBuildArea (trace st)).1. }
  destruct (iface_getBuildArea (trace st)) as [[] area]; cbn [fst snd] in Hg.
  - split; [exact Hg|].
    unfold loadWorldSlice at 1. unfold bind at 1. rewrite Hg.
    unfold loadWorldSlice. unfold bind at 3. reflexivity.
  - split; [exact Hg|].
    unfold loadWorldSlice. unfold bind at 1. rewrite Hg. reflexivity.
Qed.

(** ** What a read does to the instance *)

(** X24: a read changes nothing of the instance but the lookup cache and
    the requests made: it sends either nothing or exactly one [getBlocks]
    request for the position read, with the flags it was given, as the
    last request; the buffers, the settings, the cached slice and its decay
    mask and the warnings are as before, and so is the cache when caching
    is off.  This holds whether the read returns or raises. *)
Theorem a_read_makes_at_most_one_request (st : Editor) (position : ivec3)
  (gs gd : bool) :
  let st' := (getBlockGlobal position gs gd st).2 in
  (trace st' = trace st \/ trace st' = trace st ++ [EvGetBlocks position gs gd]) /\
  set_cache (cache st) (set_trace (trace st) st') = st /\
  (caching st = false -> cache st' = cache st).
Proof.
  cbv zeta.
  pose proof (getBlockGlobal_frame position gs gd st) as (Hsame & _ & Hcache).
  split; [|split; [exact Hsame|exact Hcache]].
  rewrite getBlockGlobal_cache.
  destruct (cache_lookup st position) as [[[b c']|]|e];
    [left; by destruct st| |by left].
  rewrite getBlockGlobal_buffer_spec.
  destruct (if buffering st then dict_get (buffer st) position else None) as [b|];
    [by left|].
  rewrite getBlockGlobal_fetch_spec.
  destruct (slice_to_read position st).1 as [[ws|]|e]; [| |by left].
  - destruct (rbind _ _) as [b|e]; [|by left].
    left. unfold cached. destruct (caching st); by destruct st.
  - cbv zeta. right.
    destruct (iface_getBlocks _ _ _ _) as [|r0 rest]; [by destruct st|].
    unfold cached. cbn [snd].
    assert (caching (set_trace (trace st ++ [EvGetBlocks position gs gd]) st) = caching st)
      as -> by (by destruct st).
    destruct (caching st); by destruct st.
Qed.

(** ** A cache lookup that fails *)

Lemma cache_lookup_Raise (st : Editor) (position : ivec3) (e : exn) :
  caching st = true -> cache_getitem (cache st) position = Raise e ->
  e <> TypeError -> cache_lookup st position = Raise e.
Proof.
  unfold cache_lookup. intros -> -> He. by destruct e.
Qed.

(** X26: with caching on, an exception of the cache lookup other than
    [TypeError] (the [KeyError] of a key that is not there) leaves
    [getBlockGlobal], and with it every placement that reads the
    position first, which is every placement with a [replace] filter or
    with a non-empty identifier: the call raises that exception, and the
    instance is as before, so nothing was requested, staged or sent. *)
Theorem lookup_failure_ends_reads_and_writes (st : Editor) (position : ivec3)
  (block : Block) (replace : option ReplaceArg) (doBlockUpdates_ : option bool)
  (gs gd : bool) (e : exn) :
  caching st = true ->
  cache_getitem (cache st) position = Raise e ->
  e <> TypeError ->
  getBlockGlobal position gs gd st = (Raise e, st) /\
  (is_Some replace \/ block_id (chooseId block) <> ""%string ->
   placeBlockGlobal (OnePosition position) block replace doBlockUpdates_ st
   = (Raise e, st)).
Proof.
  intros Hc Hget He.
  assert (Hread : forall a b, getBlockGlobal position a b st = (Raise e, st)).
  { intros a b. by rewrite getBlockGlobal_cache, (cache_lookup_Raise _ _ _ Hc Hget He). }
  split; [apply Hread|]. intros Hreads.
  cbn [placeBlockGlobal]. rewrite _placeSingleBlockGlobal_spec.
  assert (placement_checks position block replace st = (Raise e, st)) as ->; [|done].
  unfold placement_checks. unfold bind at 1.
  destruct replace as [r|].
  - unfold bind at 1. by rewrite Hread.
  - destruct Hreads as [[? [=]]|Hid].
    unfold ret at 1. cbn [negb]. cbv zeta.
    rewrite bool_decide_eq_false_2 by done.
    unfold bind at 1. unfold gets at 1. rewrite Hc.
    unfold bind at 1. unfold bind at 1. by rewrite Hread.
Qed.

(** ** A cache that is never filled *)

Lemma read_keeps_failing_cache (st : Editor) position gs gd :
  every_lookup_fails (cache st) ->
  cache (getBlockGlobal position gs gd st).2 = cache st /\
  (caching st = true -> exists e, getBlockGlobal position gs gd st = (Raise e, st)).
Proof.
  intros Hf. destruct (caching st) eqn:Ec.
  - destruct (Hf position) as (e & Hg & He).
    rewrite getBlockGlobal_cache, (cache_lookup_Raise _ _ _ Ec Hg He).
    split; [done|]. intros _. by exists e.
  - split; [|discriminate].
    by destruct (getBlockGlobal_frame position gs gd st) as (_ & _ & ->).
Qed.

Lemma place_chosen_keeps_cache position block dbu (st : Editor) :
  caching st = false -> cache (place_chosen position block dbu st).2 = cache st.
Proof.
  intros Hc. rewrite place_chosen_spec.
  assert (Hk : keeps_slice_and_cache st
            (if buffering st then _placeSingleBlockGlobalBuffered position block dbu st
             else _placeSingleBlockGlobalDirect position block dbu st).2).
  { destruct (buffering st).
    - rewrite _placeSingleBlockGlobalBuffered_spec. apply staged_keeps.
    - apply direct_keeps. }
  destruct (if buffering st then _ else _) as [[[]|e] s]; cbn [snd] in Hk;
    destruct Hk as (_ & _ & Hc' & Hca); [|done..].
  unfold cached. rewrite Hc', Hc. rewrite mark_decayed_spec.
  destruct (worldSlice s) as [ws|]; [|done].
  destruct (Rect_contains _ _); [|done].
  destruct (worldSliceDecay s) as [m|]; [|done].
  cbv zeta. destruct (np_setitem3 _ _ _ _ _) as [m'|e]; [|done].
  cbn [snd]. rewrite <- Hca. by destruct s.
Qed.

Lemma single_keeps_failing_cache position block replace dbu (st : Editor) :
  every_lookup_fails (cache st) ->
  cache (_placeSingleBlockGlobal position block replace dbu st).2 = cache st.
Proof.
  intros Hf. rewrite _placeSingleBlockGlobal_spec.
  destruct (caching st) eqn:Ec.
  - assert (Hread : exists e, getBlockGlobal position true false st = (Raise e, st))
      by by apply read_keeps_failing_cache.
    destruct Hread as [e Hread].
    assert (Hchecks : (exists e', placement_checks position block replace st = (Raise e', st))
                      \/ placement_checks position block replace st = (Ok None, st)).
    { unfold placement_checks. unfold bind at 1.
      destruct replace as [r|].
      - left. exists e. unfold bind at 1. by rewrite Hread.
      - unfold ret at 1. cbn [negb]. cbv zeta.
        destruct (bool_decide _); [by right|left]. exists e.
        unfold bind at 1. unfold gets at 1. rewrite Ec.
        unfold bind at 1. unfold bind at 1. by rewrite Hread. }
    by destruct Hchecks as [[e' ->]| ->].
  - pose proof (placement_checks_frame position block replace st) as Hfr.
    destruct (read_frame_fields _ _ Hfr) as (_ & _ & _ & _ & Hc & _).
    destruct Hfr as (_ & _ & Hca). specialize (Hca Ec).
    destruct (placement_checks position block replace st) as [[[chosen|]|e] s];
      cbn [snd] in *; [|done..].
    rewrite <- Hca. apply place_chosen_keeps_cache. congruence.
Qed.

Lemma eagerAll_keeps_failing_cache block replace dbu l (st : Editor) :
  every_lookup_fails (cache st) ->
  cache (eagerAll (fun pos => _placeSingleBlockGlobal pos block replace dbu) l st).2
  = cache st.
Proof.
  revert st. induction l as [|pos l IH]; intros st Hf; [done|].
  rewrite eagerAll_cons.
  pose proof (single_keeps_failing_cache pos block replace dbu st Hf) as Hs.
  destruct (_placeSingleBlockGlobal pos block replace dbu st) as [[r|e] s];
    cbn [snd] in Hs; [|done].
  assert (Hf' : every_lookup_fails (cache s)) by by rewrite Hs.
  specialize (IH s Hf').
  destruct (eagerAll _ l s) as [[rs|e] s']; cbn [snd] in *; congruence.
Qed.

Lemma sent_cache retries (st : Editor) : cache (sent retries st) = cache st.
Proof. by destruct (sent_keeps retries st) as ((_ & _ & _ & ?) & _). Qed.

Lemma loadWorldSlice_cache rect cache_ (st : Editor) :
  cache (loadWorldSlice rect cache_ st).2 = cache st.
Proof.
  unfold loadWorldSlice, getBuildArea, new_WorldSlice, interface_getBuildArea.
  unfold bind, raise, ret, modify, lift.
  destruct rect as [r|].
  - destruct (iface_WorldSlice (trace st) r) as [ws|e]; [|by destruct st].
    destruct cache_; [|by destruct st].
    destruct (np_zeros3 _ _ _); by destruct st.
  - destruct (negb _); [by destruct st|].
    destruct (iface_WorldSlice _ _) as [ws|e]; [|by destruct st].
    destruct cache_; [|by destruct st].
    destruct (np_zeros3 _ _ _); by destruct st.
Qed.

Lemma after_call_keeps_failing_cache (st : Editor) (c : Call) :
  every_lookup_fails (cache st) -> cache (after_call st c) = cache st.
Proof.
  intros Hf. destruct c; cbn [after_call].
  - by apply read_keeps_failing_cache.
  - destruct position as [p|l]; [by apply single_keeps_failing_cache|].
    rewrite placeBlockGlobal_many.
    assert (Hb : cache (set_buffering true st) = cache st) by (by destruct st).
    pose proof (eagerAll_keeps_failing_cache block replace doBlockUpdates_ l
                  (set_buffering true st)) as He.
    rewrite Hb in He. specialize (He Hf).
    destruct (eagerAll _ l _) as [[r|e] s]; cbn [snd] in *; [|done].
    rewrite <- He.
    destruct (buffering s && negb (buffering st))%bool.
    + rewrite <- (sent_cache default_retries s).
      by destruct (sent default_retries s).
    + by destruct s.
  - unfold runCommand, bind, gets, modify, interface_runCommand, ret.
    destruct (buffering st && syncWithBuffer)%bool; by destruct st.
  - rewrite sendBufferedBlocks_spec. apply sent_cache.
  - rewrite buffering_setter_spec. cbn [snd].
    destruct (buffering st && negb value)%bool.
    + rewrite <- (sent_cache default_retries st).
      by destruct (sent default_retries st).
    + by destruct st.
  - rewrite bufferLimit_setter_spec. cbn [snd].
    destruct (bool_decide _).
    + rewrite sent_cache. by destruct st.
    + by destruct st.
  - by destruct st.
  - by destruct st.
  - unfold getBuildArea, bind, interface_getBuildArea, raise, ret.
    destruct (negb _); by destruct st.
  - apply loadWorldSlice_cache.
  - change (updateWorldSlice st) with
      ((match worldSlice st with
        | Some ws => loadWorldSlice (Some (ws_rect ws)) false
        | None => raise RuntimeError
        end) st).
    destruct (worldSlice st) as [ws|]; [apply loadWorldSlice_cache|done].
Qed.

(** X27: a lookup cache in which every lookup fails with an exception
    other than [TypeError], as in the empty dict that a new editor starts
    with, is never filled: whatever calls a client makes, in any order
    and with caching turned on and off in between, the cache stays as it
    is.  With caching on, the read that comes before every store raises;
    with caching off, nothing is stored. *)
Theorem failing_cache_is_never_filled (st : Editor) (calls : list Call) :
  every_lookup_fails (cache st) ->
  cache (after_calls st calls) = cache st.
Proof.
  revert st. induction calls as [|c calls IH]; intros st Hf; [done|].
  cbn [after_calls foldl].
  pose proof (after_call_keeps_failing_cache st c Hf) as Hc.
  rewrite <- Hc. apply IH. by rewrite Hc.
Qed.

End further_editor_facts.

(** * Further properties of the editor tools *)

Import editor_tools.

Section further_tools_facts.
Context {Block WorldSlice Cache : Type}.
Context `{!Collaborators Block WorldSlice Cache}.
#[local] Abbreviation Editor := (Editor Block WorldSlice Cache).

(** ** Centering the build area *)

(** X21: [centerBuildAreaOnPlayer] sends its [setbuildarea] command at
    once, also when buffering is on (what is buffered stays buffered and
    reaches the host later), and only then asks for the build area, which
    it returns, raising a [RuntimeError] when the host reports none.  The
    offsets of the command are opposite numbers, and along each axis the
    box from [-radius] to [+radius] has [size] blocks when [size] is odd
    and [size - 1] when it is even. *)
Theorem centering_sends_the_command_before_asking (st : Editor) (size : ivec3) :
  let radius := radius_of size in
  let command := setbuildarea_command radius in
  let st1 := set_trace (trace st ++ [EvRunCommand command]) st in
  let st2 := set_trace (trace st ++ [EvRunCommand command; EvGetBuildArea]) st in
  centerBuildAreaOnPlayer size st =
    (match iface_getBuildArea (trace st1) with
     | (true, area) => Ok area
     | (false, _) => Raise RuntimeError
     end, st2) /\
  buffer st2 = buffer st /\ commandBuffer st2 = commandBuffer st /\
  (2 * radius.1.1 + 1 = size.1.1 \/ 2 * radius.1.1 + 2 = size.1.1) /\
  (2 * radius.1.2 + 1 = size.1.2 \/ 2 * radius.1.2 + 2 = size.1.2) /\
  (2 * radius.2 + 1 = size.2 \/ 2 * radius.2 + 2 = size.2).
Proof.
  cbv zeta. split; [|split; [by destruct st|split; [by destruct st|]]].
  - unfold centerBuildAreaOnPlayer, runCommand, getBuildArea.
    unfold bind at 1. unfold bind at 1. unfold gets at 1.
    rewrite andb_false_r.
    unfold bind at 1. unfold interface_runCommand at 1. unfold ret at 1.
    unfold bind, interface_getBuildArea, raise, ret.
    assert (trace (set_trace (trace st ++ [EvRunCommand (setbuildarea_command (radius_of size))]) st)
            = trace st ++ [EvRunCommand (setbuildarea_command (radius_of size))]) as Ht
      by (by destruct st).
    rewrite !Ht.
    destruct (iface_getBuildArea _) as [[] area]; cbn [fst snd negb];
      destruct st; simpl; by rewrite <- app_assoc.
  - unfold radius_of. cbn [fst snd].
    pose proof (Z.div_mod (size.1.1 - 1) 2 ltac:(lia)).
    pose proof (Z.mod_pos_bound (size.1.1 - 1) 2 ltac:(lia)).
    pose proof (Z.div_mod (size.1.2 - 1) 2 ltac:(lia)).
    pose proof (Z.mod_pos_bound (size.1.2 - 1) 2 ltac:(lia)).
    pose proof (Z.div_mod (size.2 - 1) 2 ltac:(lia)).
    pose proof (Z.mod_pos_bound (size.2 - 1) 2 ltac:(lia)).
    lia.
Qed.
End further_tools_facts.

(** ** The facing direction *)

Lemma least_obtrusive_4 (a b c d : Z) (i : nat) :
  least_obtrusive [a; b; c; d] i <->
  exists v, [a; b; c; d] !! i = Some v /\ v <= a /\ v <= b /\ v <= c /\ v <= d.
Proof.
  unfold least_obtrusive. split; intros (v & Hv & H); exists v; (split; [done|]).
  - repeat split; apply H; rewrite !elem_of_cons; tauto.
  - intros x Hx. destruct H as (? & ? & ? & ?).
    rewrite !elem_of_cons, elem_of_nil in Hx.
    destruct Hx as [->|[->|[->|[->|[]]]]]; done.
Qed.

Lemma best_facing_4 (a b c d : Z) :
  let lo x := x <= a /\ x <= b /\ x <= c /\ x <= d in
  (best_facing [a; b; c; d] 0 <->
   lo a /\ (lo b -> d <= c) /\ (lo c -> a <= c) /\ (lo d -> b <= c)) /\
  (best_facing [a; b; c; d] 1 <->
   lo b /\ (lo a -> c <= d) /\ (lo c -> a <= d) /\ (lo d -> b <= d)) /\
  (best_facing [a; b; c; d] 2 <->
   lo c /\ (lo a -> c <= a) /\ (lo b -> d <= a) /\ (lo d -> b <= a)) /\
  (best_facing [a; b; c; d] 3 <->
   lo d /\ (lo a -> c <= b) /\ (lo b -> d <= b) /\ (lo c -> a <= b)).
Proof.
  cbv zeta. unfold best_facing.
  assert (Hfwd : forall i v,
            [a; b; c; d] !! i = Some v ->
            least_obtrusive [a; b; c; d] i ->
            v <= a /\ v <= b /\ v <= c /\ v <= d).
  { intros i v Hv Hl. apply least_obtrusive_4 in Hl as (v' & Hv' & Hl). congruence. }
  assert (Hbwd : forall i v,
            [a; b; c; d] !! i = Some v ->
            v <= a /\ v <= b /\ v <= c /\ v <= d ->
            least_obtrusive [a; b; c; d] i).
  { intros i v Hv Hl. apply least_obtrusive_4. by exists v. }
  assert (Hdir : forall i v,
            [a; b; c; d] !! i = Some v ->
            forall P : Prop,
              ((v <= a /\ v <= b /\ v <= c /\ v <= d) ->
               (forall j x y, (exists w, [a; b; c; d] !! j = Some w /\
                                         w <= a /\ w <= b /\ w <= c /\ w <= d) ->
                              [a; b; c; d] !! opposite j = Some x ->
                              [a; b; c; d] !! opposite i = Some y -> x <= y) -> P) ->
              (least_obtrusive [a; b; c; d] i /\
               (forall j x y,
                  least_obtrusive [a; b; c; d] j ->
                  [a; b; c; d] !! opposite j = Some x ->
                  [a; b; c; d] !! opposite i = Some y -> x <= y)) -> P).
  { intros i v Hv P HP [Hl Hb]. apply HP; [by eapply Hfwd|].
    intros j x y (w & Hw & Hlo). apply Hb. by eapply Hbwd. }
  assert (Hrev : forall i v,
            [a; b; c; d] !! i = Some v ->
            (v <= a /\ v <= b /\ v <= c /\ v <= d) ->
            (forall j w x y,
               [a; b; c; d] !! j = Some w ->
               (w <= a /\ w <= b /\ w <= c /\ w <= d) ->
               [a; b; c; d] !! opposite j = Some x ->
               [a; b; c; d] !! opposite i = Some y -> x <= y) ->
            least_obtrusive [a; b; c; d] i /\
            (forall j x y,
               least_obtrusive [a; b; c; d] j ->
               [a; b; c; d] !! opposite j = Some x ->
               [a; b; c; d] !! opposite i = Some y -> x <= y)).
  { intros i v Hv Hlo H. split; [by eapply Hbwd|].
    intros j x y Hj. apply least_obtrusive_4 in Hj as (w & Hw & Hl). by eapply H. }
  split; [|split; [|split]]; split.
  1: apply (Hdir 0%nat a eq_refl).
  3: apply (Hdir 1%nat b eq_refl).
  5: apply (Hdir 2%nat c eq_refl).
  7: apply (Hdir 3%nat d eq_refl).
  1,3,5,7: intros Hlo Hb; (split; [exact Hlo|]); repeat split; intros Hj;
    first [ by eapply (Hb 0%nat); [eexists; split; [reflexivity|exact Hj]|..]
          | by eapply (Hb 1%nat); [eexists; split; [reflexivity|exact Hj]|..]
          | by eapply (Hb 2%nat); [eexists; split; [reflexivity|exact Hj]|..]
          | by eapply (Hb 3%nat); [eexists; split; [reflexivity|exact Hj]|..] ].
  1: intros (Hl & H1 & H2 & H3); apply (Hrev 0%nat a eq_refl Hl).
  2: intros (Hl & H1 & H2 & H3); apply (Hrev 1%nat b eq_refl Hl).
  3: intros (Hl & H1 & H2 & H3); apply (Hrev 2%nat c eq_refl Hl).
  4: intros (Hl & H1 & H2 & H3); apply (Hrev 3%nat d eq_refl Hl).
  all: intros j w x y Hw Hlo Hx Hy.
  all: destruct j as [|[|[|[|j]]]]; [| | | |done].
  all: injection Hy as <-; injection Hx as <-; injection Hw as <-.
  all: try lia.
  all: first [by apply H1|by apply H2|by apply H3].
Qed.


Lemma filter_zip_map {A : Type} (h : A -> bool) (xs : list A) :
  (List.filter (fun p : A * bool => p.2) (zip xs (map h xs))).*1 = List.filter h xs.
Proof.
  induction xs as [|x xs IH]; [reflexivity|].
  simpl. destruct (h x); simpl; [f_equal|]; exact IH.
Qed.

Lemma sublist_List_filter {A : Type} (h : A -> bool) (xs : list A) :
  sublist (List.filter h xs) xs.
Proof.
  induction xs as [|x xs IH]; [constructor|].
  simpl. destruct (h x); by constructor.
Qed.

Lemma take_each_map {A : Type} (dflt : A) (l : list A) (idx : list Z) :
  Forall (fun i => 0 <= i < Z.of_nat (length l)) idx ->
  take_each l idx = Ok (map (fun i => default dflt (l !! Z.to_nat i)) idx).
Proof.
  unfold take_each. intros Hidx.
  assert (Hgen : forall acc,
            for_each idx
              (fun acc i =>
                 rbind (np_index (length l) i)
                   (fun i' =>
                      match l !! i' with
                      | Some v => Ok (acc ++ [v])
                      | None => Raise IndexError
                      end)) acc
            = Ok (acc ++ map (fun i => default dflt (l !! Z.to_nat i)) idx)).
  { induction Hidx as [|i idx Hi Hidx IH]; intros acc.
    - simpl. by rewrite app_nil_r.
    - simpl. unfold np_index. rewrite decide_True by done. cbn [rbind].
      destruct (lookup_lt_is_Some_2 l (Z.to_nat i)) as [v Hv]; [lia|].
      rewrite Hv. cbn [rbind default]. rewrite IH, <- app_assoc. reflexivity. }
  apply Hgen.
Qed.

Lemma foldl_max_spec (l : list Z) (v : Z) :
  (foldl Z.max v l = v \/ foldl Z.max v l ∈ l) /\
  v <= foldl Z.max v l /\ forall x, x ∈ l -> x <= foldl Z.max v l.
Proof.
  revert v. induction l as [|y l IH]; intros v.
  - simpl. split; [by left|]. split; [lia|]. intros x Hx. by apply elem_of_nil in Hx.
  - simpl. destruct (IH (Z.max v y)) as (Hin & Hle & Hall).
    split; [|split; [lia|]].
    + destruct Hin as [Heq|Hin]; [|right; by right].
      destruct (Z.max_spec v y) as [[_ Hm]|[_ Hm]]; rewrite Hm in *.
      * right. rewrite Heq. by left.
      * by left.
    + intros x Hx. apply elem_of_cons in Hx as [->|Hx]; [lia|by apply Hall].
Qed.

Lemma np_max_spec (vs : list Z) (hi : Z) :
  np_max vs = Ok hi -> hi ∈ vs /\ forall x, x ∈ vs -> x <= hi.
Proof.
  destruct vs as [|v vs]; [discriminate|]. intros [= <-].
  destruct (foldl_max_spec vs v) as (Hin & Hle & Hall). split.
  - destruct Hin as [->|Hin]; [by left|by right].
  - intros x Hx. apply elem_of_cons in Hx as [->|Hx]; [done|by apply Hall].
Qed.

Lemma elem_of_List_filter {A : Type} (h : A -> bool) (xs : list A) (x : A) :
  x ∈ List.filter h xs <-> x ∈ xs /\ h x = true.
Proof. rewrite !list_elem_of_In. apply List.filter_In. Qed.

(** X22: for any four obtrusiveness values (north, east, south, west),
    [getOptimalFacingDirection] returns, never raises, and returns a list
    that is not empty, so that a choice among its elements is always
    possible; the list keeps the order north, east, south, west without
    repetition, and a direction is in it exactly when it is among the
    least obtrusive directions and none of these has a more obtrusive
    opposite direction. *)
Theorem facing_choice_is_least_obstructed (a b c d : Z) :
  exists winners,
    getOptimalFacingDirection [a; b; c; d] = Ok winners /\
    winners <> [] /\
    sublist winners directions /\
    forall i dir, directions !! i = Some dir ->
      (dir ∈ winners <-> best_facing [a; b; c; d] i).
Proof.
  set (o := [a; b; c; d]).
  set (m := Z.min (Z.min (Z.min a b) c) d).
  set (get := fun i : Z => default 0 (o !! Z.to_nat i)).
  set (f := fun i : Z => (i + 2) mod 4).
  set (dirOf := fun i : Z => default ""%string (directions !! Z.to_nat i)).
  set (h1 := fun i : Z => bool_decide (get i = m)).
  set (cands := List.filter h1 [0; 1; 2; 3]).
  assert (Hcands : forall i, i ∈ cands <-> i ∈ [0; 1; 2; 3] /\ get i = m).
  { intros i. unfold cands. rewrite elem_of_List_filter. unfold h1.
    by rewrite bool_decide_eq_true. }
  assert (Hrange : forall i, i ∈ [0; 1; 2; 3] <-> 0 <= i < 4).
  { intros i. rewrite !elem_of_cons, elem_of_nil. lia. }
  assert (Hsome : exists j, j ∈ cands).
  { assert (a = m \/ b = m \/ c = m \/ d = m) as [H|[H|[H|H]]] by lia.
    - exists 0. apply Hcands. split; [apply Hrange; lia|exact H].
    - exists 1. apply Hcands. split; [apply Hrange; lia|exact H].
    - exists 2. apply Hcands. split; [apply Hrange; lia|exact H].
    - exists 3. apply Hcands. split; [apply Hrange; lia|exact H]. }
  assert (Hopp : take_each o (map f cands) = Ok (map (fun c => get (f c)) cands)).
  { rewrite (take_each_map 0).
    - by rewrite map_map.
    - apply Forall_forall. intros i Hi. apply list_elem_of_fmap in Hi as (j & -> & Hj).
      apply Hcands in Hj as [Hj _]. apply Hrange in Hj. unfold f. simpl.
      pose proof (Z.mod_pos_bound (j + 2) 4). lia. }
  destruct (np_max (map (fun c => get (f c)) cands)) as [hi|e] eqn:Emax.
  2: { destruct Hsome as [j Hj]. destruct cands; [by apply elem_of_nil in Hj|done]. }
  apply np_max_spec in Emax as [Hhi_in Hhi_max].
  apply list_elem_of_fmap in Hhi_in as (jhi & Hjhi & Hjhi_in).
  set (h2 := fun c : Z => bool_decide (get (f c) = hi)).
  set (winners := List.filter h2 cands).
  assert (Hwinners : forall i, i ∈ winners <-> (0 <= i < 4 /\ get i = m) /\ get (f i) = hi).
  { intros i. unfold winners. rewrite elem_of_List_filter, Hcands, Hrange. unfold h2.
    by rewrite bool_decide_eq_true. }
  assert (Hrun : getOptimalFacingDirection o = Ok (map dirOf winners)).
  { unfold getOptimalFacingDirection. cbn [np_min rbind foldl o]. fold m.
    change (np_nonzero (np_equal o m))
      with ((List.filter (fun p : Z * bool => p.2)
               (zip [0; 1; 2; 3] (map h1 [0; 1; 2; 3]))).*1).
    rewrite filter_zip_map. fold cands.
    change (fun c0 : Z => (c0 + 2) mod 4) with f. rewrite Hopp. cbn [rbind].
    assert (np_max (map (fun c => get (f c)) cands) = Ok hi) as ->.
    { destruct (np_max (map (fun c => get (f c)) cands)) as [hi'|e] eqn:E.
      - apply np_max_spec in E as [Hin' Hmax'].
        apply list_elem_of_fmap in Hin' as (j' & -> & Hj').
        f_equal. apply Z.le_antisymm.
        + apply Hhi_max. apply list_elem_of_fmap. by exists j'.
        + rewrite Hjhi. apply Hmax'. apply list_elem_of_fmap. by exists jhi.
      - destruct Hsome as [j Hj]. destruct cands; [by apply elem_of_nil in Hj|done]. }
    cbn [rbind]. unfold np_compress, np_equal. rewrite map_map.
    rewrite decide_True by (by rewrite length_map).
    change (map (fun x => bool_decide (get (f x) = hi)) cands) with (map h2 cands).
    rewrite filter_zip_map. fold winners. cbn [rbind].
    rewrite (take_each_map ""%string); [reflexivity|].
    apply Forall_forall. intros i Hi. apply Hwinners in Hi as [[Hi _] _].
    simpl. lia. }
  exists (map dirOf winners). split; [exact Hrun|].
  assert (Hjw : jhi ∈ winners).
  { apply Hwinners. apply Hcands in Hjhi_in as [Hr Hm]. apply Hrange in Hr. done. }
  split; [|split].
  - intros Hnil. apply fmap_nil_inv in Hnil. rewrite Hnil in Hjw.
    by apply elem_of_nil in Hjw.
  - change directions with (dirOf <$> [0; 1; 2; 3]). apply fmap_sublist.
    unfold winners, cands.
    etrans; apply sublist_List_filter.
  - intros i dir Hi.
    assert (Hmem : dir ∈ map dirOf winners <-> Z.of_nat i ∈ winners).
    { rewrite list_elem_of_fmap. split.
      - intros (w & Hw & Hin). pose proof Hin as Hin'.
        apply Hwinners in Hin' as [[Hr _] _].
        assert (w = Z.of_nat i); [|by subst].
        assert (w = 0 \/ w = 1 \/ w = 2 \/ w = 3) as [-> | [-> | [-> | ->]]] by lia;
          destruct i as [|[|[|[|i]]]]; try done;
          injection Hi as <-; discriminate Hw.
      - intros Hin. exists (Z.of_nat i). split; [|done].
        destruct i as [|[|[|[|i]]]]; try done; by injection Hi as <-. }
    rewrite Hmem, Hwinners. clear Hmem.
    assert (Hi4 : (i < 4)%nat).
    { apply lookup_lt_Some in Hi. exact Hi. }
    assert (Hleast : forall j : nat, (j < 4)%nat ->
              (least_obtrusive o j <-> get (Z.of_nat j) = m)).
    { intros j Hj. unfold o. rewrite least_obtrusive_4.
      destruct j as [|[|[|[|j]]]]; [| | | |lia]; unfold get, o; simpl; split.
      all: try (intros (v & [= <-] & Hv); lia).
      all: intros Hv; eexists; (split; [reflexivity|]); lia. }
    assert (Hoppn : forall j : nat, (j < 4)%nat ->
              o !! opposite j = Some (get (f (Z.of_nat j)))).
    { intros j Hj. destruct j as [|[|[|[|j]]]]; [| | | |lia]; reflexivity. }
    unfold best_facing. rewrite (Hleast i Hi4). split.
    + intros [[_ Hm] Hh]. split; [exact Hm|].
      intros j x y Hj Hx Hy.
      assert (Hj4 : (j < 4)%nat).
      { destruct Hj as (v & Hv & _). apply lookup_lt_Some in Hv. exact Hv. }
      rewrite (Hoppn j Hj4) in Hx. rewrite (Hoppn i Hi4) in Hy.
      injection Hx as <-. injection Hy as <-. rewrite Hh.
      apply Hhi_max. apply list_elem_of_fmap. exists (Z.of_nat j). split; [done|].
      apply Hcands. split; [apply Hrange; lia|]. by apply (Hleast j Hj4).
    + intros [Hm Hb]. split; [split; [lia|exact Hm]|].
      apply Z.le_antisymm.
      * apply Hhi_max. apply list_elem_of_fmap. exists (Z.of_nat i). split; [done|].
        apply Hcands. split; [apply Hrange; lia|done].
      * apply Hcands in Hjhi_in as [Hr Hjm]. apply Hrange in Hr.
        rewrite Hjhi.
        assert (Hjn : (Z.to_nat jhi < 4)%nat) by lia.
        apply (Hb (Z.to_nat jhi)).
        -- apply (Hleast _ Hjn). by rewrite Z2Nat.id by lia.
        -- rewrite (Hoppn _ Hjn). by rewrite Z2Nat.id by lia.
        -- apply (Hoppn i Hi4).
Qed.

(** * The properties on the concrete host *)

Section loader_examples.

(** C8 on the section Y = 4 of the example chunk. *)
Lemma section_bit_widths_witness :
  exists s,
    load_section 0 0 [] demo.section4 = Ok ([] ++ [s]) /\
    [demo.air; demo.stone] = blockPalette s /\
    bitsPerEntry (blockStatesBitArray s)
    = Z.max 4 (Z.log2_up (Z.of_nat (length (blockPalette s)))) /\
    bitsPerEntry (biomesBitArray s)
    = Z.max 1 (Z.log2_up (Z.of_nat (length (biomesPalette s)))).
Proof.
  evar (secs' : list CachedSection).
  assert (E : load_section 0 0 [] demo.section4 = Ok secs')
    by (subst secs'; vm_compute; reflexivity).
  destruct (section_bit_widths 0 0 [] secs' demo.section4 E)
    as [[He _]|(_ & s & bs & bio & Hs & Hbs & Hpal & _ & _ & H)];
    [discriminate He|].
  exists s. rewrite <- Hs. split; [exact E|].
  cbn [sec_block_states demo.section4] in Hbs. injection Hbs as <-.
  cbn [bs_palette] in Hpal. injection Hpal as Hpal.
  destruct H as (_ & _ & _ & _ & Hb & Hm & _).
  split; [exact Hpal|]. split; [exact Hb|exact Hm].
Defined.

(** C9 on the example chunk, whose section Y = 5 has no block states. *)
Lemma omitted_section_reads_void_witness :
  exists ws,
    WorldSlice_init demo.getChunks 0 0 1 1 None = Ok ws /\
    getBlockCompoundAt ws 0 80 0 = Ok None /\
    getBlockAt ws 0 80 0 = Ok "minecraft:void_air"%string.
Proof.
  eexists. split; [vm_compute; reflexivity|].
  apply (omitted_section_reads_void demo.getChunks 0 0 1 1 None _ 0 80 0).
  - vm_compute. reflexivity.
  - intros chunk section Hchunk Hin HY.
    vm_compute in Hchunk. injection Hchunk as <-.
    cbn [chunk_sections demo.chunk0] in Hin.
    apply elem_of_cons in Hin as [->|Hin]; [vm_compute in HY; discriminate|].
    apply elem_of_cons in Hin as [->|Hin]; [reflexivity|].
    by apply elem_of_nil in Hin.
Defined.



End loader_examples.

Import demo.

Section editor_examples.
Open Scope string_scope.

(** C2, as stated, fails: with limit 2, after the second staging call
    the buffer has reached its limit, holds both writes, and nothing was
    flushed. *)
Lemma staging_to_the_limit_does_not_flush :
  let st := demo.new_Editor true 2 false in
  let writes := [((0, 64, 0), "minecraft:stone"); ((1, 64, 0), "minecraft:stone")] in
  exists st',
    stage_each writes None st = (Ok tt, st') /\
    Z.of_nat (length (buffer st')) = bufferLimit st' /\
    buffer st' = writes /\
    trace st' = [] /\
    bufferFlushFutures st' = [].
Proof.
  cbv zeta. eexists. split; [vm_compute; reflexivity|]. repeat split.
Defined.

(** C2, as amended, with limit 2 and a third write. *)
Lemma buffer_flushes_when_limit_is_exceeded_witness :
  let st := demo.new_Editor true 2 false in
  let writes := [((0, 64, 0), "minecraft:stone"); ((1, 64, 0), "minecraft:stone")] in
  let st1 := set_buffer writes st in
  stage_each writes None st = (Ok tt, st1) /\
  _placeSingleBlockGlobalBuffered (2, 64, 0) "minecraft:dirt" None st1
    = (Ok true, set_buffer [((2, 64, 0), "minecraft:dirt")] (sent default_retries st1)) /\
  placeBlocks_events (trace (sent default_retries st1))
    = [EvPlaceBlocks writes true (Some default_retries)].
Proof.
  cbv zeta.
  destruct (buffer_flushes_when_limit_is_exceeded (demo.new_Editor true 2 false)
              [((0, 64, 0), "minecraft:stone"); ((1, 64, 0), "minecraft:stone")]
              (2, 64, 0) "minecraft:dirt" None)
    as (Hstage & Hplace & Hsync & _).
  - reflexivity.
  - reflexivity.
  - discriminate.
  - apply (bool_decide_unpack _). vm_compute. reflexivity.
  - reflexivity.
  - split; [exact (Hstage 2%nat (le_n 2))|]. split; [exact Hplace|].
    exact (Hsync eq_refl).
Defined.

(** C3 at the failing input: on a new editor with caching on, the host
    holds air at the position and the filter lists only dirt, so the
    write is to report success and change nothing.  The read made for
    the filter looks the position up in the empty cache; the lookup
    raises [KeyError], which [except TypeError] does not catch, and the
    write raises.  With caching off the same write returns [True]. *)
Theorem filtered_write_raises_on_cache_miss :
  let st := demo.new_Editor false 1024 true in
  let st0 := demo.new_Editor false 1024 false in
  iface_getBlocks (trace st) (5, 70, 5) true false = [((5, 70, 5), "minecraft:air")] /\
  block_in "minecraft:air" (replace_list (ReplaceStr "minecraft:dirt")) = false /\
  _placeSingleBlockGlobal (5, 70, 5) "minecraft:stone"
    (Some (ReplaceStr "minecraft:dirt")) None st = (Raise KeyError, st) /\
  (_placeSingleBlockGlobal (5, 70, 5) "minecraft:stone"
     (Some (ReplaceStr "minecraft:dirt")) None st0).1 = Ok true.
Proof.
  cbv zeta. split; [reflexivity|]. split; [reflexivity|].
  split; vm_compute; reflexivity.
Qed.

(** C5 at the failing input: on a new editor with caching on, a read
    looks the position up in the empty cache; the lookup raises
    [KeyError], which [except TypeError] does not catch, so the read
    raises without a request, where the order of the sources goes on to
    the write buffer, the slice and the host.  It raises as well when a
    block waits in the write buffer for the position.  With caching off
    the two reads return, from the host and from the buffer. *)
Theorem read_raises_on_cache_miss :
  let p := (0, 64, 0) in
  let st := demo.new_Editor true 1024 true in
  let st0 := demo.new_Editor true 1024 false in
  let staged0 := (placeBlockGlobal (OnePosition p) "minecraft:dirt" None None st0).2 in
  let staged1 := (caching_setter true staged0).2 in
  getBlockGlobal p true false st = (Raise KeyError, st) /\
  getBlockGlobal p true false st0
  = (Ok "minecraft:air", set_trace [EvGetBlocks p true false] st0) /\
  caching staged1 = true /\
  dict_get (buffer staged1) p = Some "minecraft:dirt" /\
  getBlockGlobal p true false staged1 = (Raise KeyError, staged1) /\
  getBlockGlobal p true false staged0 = (Ok "minecraft:dirt", staged0).
Proof.
  cbv zeta. repeat split; vm_compute; reflexivity.
Qed.

(** The filtered write on the same host, with caching off. *)
Lemma filtered_write_is_noop_witness :
  let st := demo.new_Editor true 1024 false in
  exists st1,
    getBlockGlobal (5, 70, 5) true false st = (Ok "minecraft:air", st1) /\
    _placeSingleBlockGlobal (5, 70, 5) "minecraft:stone"
      (Some (ReplaceStr "minecraft:dirt")) None st = (Ok true, st1) /\
    buffer st1 = buffer st /\
    cache st1 = cache st /\
    trace st1 = [EvGetBlocks (5, 70, 5) true false].
Proof.
  cbv zeta.
  evar (st1 : demo.Editor).
  assert (Hread : getBlockGlobal (5, 70, 5) true false (demo.new_Editor true 1024 false)
                  = (Ok "minecraft:air", st1))
    by (subst st1; vm_compute; reflexivity).
  exists st1. split; [exact Hread|].
  destruct (filtered_write_is_noop (demo.new_Editor true 1024 false) st1 (5, 70, 5)
              "minecraft:stone" "minecraft:air" (ReplaceStr "minecraft:dirt") None
              Hread eq_refl)
    as (Hnoop & Hbuf & _ & _ & _ & _ & _ & Hcache).
  split; [exact Hnoop|]. split; [exact Hbuf|]. split; [exact (Hcache eq_refl)|].
  reflexivity.
Defined.

(** C4, as stated, fails twice.  A write inside the region that the
    [replace] filter skips returns [True], and the next read at the
    position is still answered by the slice.  And a write inside the
    region that finds the buffer full flushes it: the block staged at a
    position outside the region is rejected by the host, and the read
    there, answered by the buffer before, is answered by the host after. *)
Lemma skipped_write_leaves_snapshot_in_use :
  let p := (0, 64, 0) in
  let q := (5, 64, 5) in
  (* a write that the replace filter turns into a no-op *)
  let st := demo.with_slice (demo.new_Editor false 1024 false) in
  let out := _placeSingleBlockGlobal p "minecraft:dirt"
               (Some (ReplaceStr "minecraft:dirt")) None st in
  (* a write that makes the full buffer flush a rejected block *)
  let st2 := set_buffer [(q, "invalid:block")]
               (demo.with_slice (demo.new_Editor true 1 false)) in
  let out2 := _placeSingleBlockGlobal p "minecraft:dirt" None None st2 in
  (Rect_contains demo.region (dropY p) = true /\
   out.1 = Ok true /\
   (slice_to_read p out.2).1 = Ok (worldSlice st) /\
   is_Some (worldSlice st) /\
   (getBlockGlobal p true false out.2).1 = Ok "minecraft:stone" /\
   trace (getBlockGlobal p true false out.2).2 = trace out.2) /\
  (Rect_contains demo.region (dropY q) = false /\
   out2.1 = Ok true /\
   (getBlockGlobal q true false st2).1 = Ok "invalid:block" /\
   (getBlockGlobal q true false out2.2).1 = Ok "minecraft:air").
Proof.
  cbv zeta. split.
  - split; [reflexivity|]. split; [vm_compute; reflexivity|].
    split; [vm_compute; reflexivity|]. split; [vm_compute; eauto|].
    split; vm_compute; reflexivity.
  - split; [reflexivity|]. split; [vm_compute; reflexivity|].
    split; vm_compute; reflexivity.
Defined.

(** C4, as amended, for a buffered write inside the region. *)
Lemma decay_mask_contract_witness :
  let p := (0, 64, 0) in
  let st := demo.with_slice (demo.new_Editor true 1024 false) in
  let out := _placeSingleBlockGlobal p "minecraft:dirt" None None st in
  exists ws,
    worldSlice st = Some ws /\
    out.1 = Ok true /\
    decayed_at st ws p = Ok false /\
    decayed_at out.2 ws p = Ok true /\
    slice_to_read p out.2 = (Ok None, out.2).
Proof.
  cbv zeta.
  evar (ws : worldLoader.WorldSlice).
  assert (Hws : worldSlice (demo.with_slice (demo.new_Editor true 1024 false)) = Some ws)
    by (subst ws; vm_compute; reflexivity).
  exists ws. split; [exact Hws|].
  split; [vm_compute; reflexivity|]. split; [vm_compute; reflexivity|].
  destruct (decay_mask_contract (demo.with_slice (demo.new_Editor true 1024 false))
              (0, 64, 0) "minecraft:dirt" None None (5, 64, 5) true false)
    as (_ & _ & _ & Hread & _).
  apply (Hread ws "minecraft:dirt").
  - vm_compute. reflexivity.
  - vm_compute. reflexivity.
  - exact Hws.
  - vm_compute. reflexivity.
Defined.

(** C7, as stated, fails: the token made of the one character U+00B2,
    superscript two, is not the writing of a non-negative integer, and
    [str.isnumeric] accepts it; in a response it is passed over like
    ["1"], and only the third token is reported. *)
Lemma numeric_character_counts_as_success :
  let st := demo.new_Editor true 1024 false in
  let response := ["1"; superscript_two; "unknown block"] in
  isnumeric superscript_two = true /\
  ~ nonneg_integer_syntax superscript_two /\
  rejected response = ["unknown block"] /\
  warn_lines WarnPlacingBufferedBlock response st
  = (Ok tt, set_warnings [WarnPlacingBufferedBlock "unknown block"] st).
Proof.
  cbv zeta. split; [vm_compute; reflexivity|]. split.
  - intros H. apply all_digits_syntax in H as [_ H]. vm_compute in H. discriminate H.
  - split; vm_compute; reflexivity.
Defined.

(** C7, as amended, for a direct placement that the host rejects. *)
Lemma result_token_contract_witness :
  let st := demo.new_Editor false 1024 false in
  iface_placeBlocks (trace st) [((0, 64, 0), "invalid:block")] true None
    = ["unknown block"] /\
  exists st',
    _placeSingleBlockGlobalDirect (0, 64, 0) "invalid:block" None st = (Ok false, st') /\
    warnings st' = [WarnPlacingBlock ["unknown block"]].
Proof.
  cbv zeta. split; [reflexivity|].
  destruct (result_token_contract (demo.new_Editor false 1024 false) (0, 64, 0)
              "invalid:block" None 5 "unknown block" [])
    as (_ & _ & Hdirect & _).
  exact (Hdirect eq_refl).
Defined.

(** C10 on a run that switches the flag twice: two batches go out, each
    under the flag of its blocks. *)
Lemma buffer_holds_one_doBlockUpdates_setting_witness :
  let st := demo.new_Editor true 1024 false in
  let ops :=
    [OpPlace (0, 64, 0) "minecraft:sand" (Some true);
     OpPlace (0, 65, 0) "minecraft:sand" None;
     OpPlace (1, 64, 0) "minecraft:stone" (Some false);
     OpSetDoBlockUpdates false;
     OpPlace (2, 64, 0) "minecraft:dirt" None;
     OpSend 5] in
  (run_ops ops st).1 = Ok tt /\
  uniform demo.sand_updates (run_ops ops st).2 /\
  placeBlocks_events (trace (run_ops ops st).2) =
    [EvPlaceBlocks [((0, 64, 0), "minecraft:sand"); ((0, 65, 0), "minecraft:sand")]
       true (Some 5);
     EvPlaceBlocks [((1, 64, 0), "minecraft:stone"); ((2, 64, 0), "minecraft:dirt")]
       false (Some 5)].
Proof.
  cbv zeta.
  destruct (buffer_holds_one_doBlockUpdates_setting demo.sand_updates
              [OpPlace (0, 64, 0) "minecraft:sand" (Some true);
               OpPlace (0, 65, 0) "minecraft:sand" None;
               OpPlace (1, 64, 0) "minecraft:stone" (Some false);
               OpSetDoBlockUpdates false;
               OpPlace (2, 64, 0) "minecraft:dirt" None;
               OpSend 5]
              (demo.new_Editor true 1024 false))
    as (Hok & Hu).
  - repeat split; constructor.
  - vm_compute. repeat split.
  - split; [exact Hok|]. split; [exact Hu|]. vm_compute. reflexivity.
Defined.

(** C1 fails on the code: after a write has decayed a cell of the
    cached slice, [updateWorldSlice] fetches and returns a slice, but the
    cached slice and the decay mask stay as they were (the cell is still
    decayed), whereas [loadWorldSlice] with [cache=True] resets the mask. *)
Example updateWorldSlice_returns_without_caching :
  let p := (0, 64, 0) in
  let st0 := demo.with_slice (demo.new_Editor true 1024 false) in
  let st := (_placeSingleBlockGlobal p "minecraft:dirt" None None st0).2 in
  let out := updateWorldSlice st in
  exists ws,
    worldSlice st = Some ws /\
    decayed_at st ws p = Ok true /\
    out.1 = Ok ws /\
    worldSlice out.2 = Some ws /\
    worldSliceDecay out.2 = worldSliceDecay st /\
    decayed_at out.2 ws p = Ok true /\
    (loadWorldSlice (Some demo.region) true st).1 = Ok ws /\
    decayed_at (loadWorldSlice (Some demo.region) true st).2 ws p = Ok false.
Proof.
  cbv zeta. eexists. split; [vm_compute; reflexivity|].
  repeat split; vm_compute; reflexivity.
Qed.

End editor_examples.

(** * Further properties on the concrete host *)

Section further_loader_examples.

(** X1 on the rectangle [-3, 20) x [14, 17): three chunks along X, two
    along Z. *)
Lemma chunk_rectangle_covers_region_witness :
  let cr := make_chunkRect (make_rect (-3) 14 20 17) in
  cr = (-1, 0, 3, 2) /\
  (forall x z, -3 <= x < 20 -> 14 <= z < 17 ->
     0 <= Z.shiftr x 4 - cr.1.1.1 < cr.1.2 /\
     0 <= Z.shiftr z 4 - cr.1.1.2 < cr.2) /\
  (forall cx cz, 0 <= cx < cr.1.2 -> 0 <= cz < cr.2 ->
     exists x z, -3 <= x < 20 /\ 14 <= z < 17 /\
       Z.shiftr x 4 - cr.1.1.1 = cx /\ Z.shiftr z 4 - cr.1.1.2 = cz).
Proof.
  split; [reflexivity|].
  apply (chunk_rectangle_covers_region (-3) 14 20 17); lia.
Defined.

(** X2 on the example chunk: the block at (0, 64, 0) is read from the
    section Y = 4 of the payload. *)
Lemma loaded_section_is_read_back_witness :
  exists ws chunk,
    WorldSlice_init demo.getChunks 0 0 1 1 None = Ok ws /\
    chunk_at (nbtfile ws)
      ((Z.shiftr 0 4 - (chunkRect ws).1.1.1)
       + (Z.shiftr 0 4 - (chunkRect ws).1.1.2) * (chunkRect ws).1.2) = Ok chunk /\
    getBlockCompoundAt ws 0 64 0 =
      match payload_section chunk (Z.shiftr 64 4) with
      | None => Ok None
      | Some section => rbind (decode_block section 0 64 0) (fun c => Ok (Some c))
      end /\
    getBlockCompoundAt ws 0 64 0 = Ok (Some demo.stone).
Proof.
  evar (ws : WorldSlice).
  assert (E : WorldSlice_init demo.getChunks 0 0 1 1 None = Ok ws)
    by (subst ws; vm_compute; reflexivity).
  exists ws.
  destruct (loaded_section_is_read_back demo.getChunks 0 0 1 1 None ws 0 64 0 E)
    as (chunk & Hc & Hread); [lia|lia|].
  exists chunk. split; [exact E|]. split; [exact Hc|]. split; [exact Hread|].
  vm_compute. reflexivity.
Defined.

(** A height-map of 36 words, one short of the 37 that 256 elements of
    9 bits take, is refused: the construction raises. *)
Lemma short_heightmap_payload_is_refused :
  let short := replicate 36 0 in
  let chunk :=
    mkChunkNBT
      [("MOTION_BLOCKING", short); ("MOTION_BLOCKING_NO_LEAVES", short);
       ("OCEAN_FLOOR", short); ("WORLD_SURFACE", short)]%string
      [demo.section4] in
  bitarray.wordsNeeded 9 (16 * 16) = 37 /\
  WorldSlice_init (fun _ => mkNBTFile [chunk]) 0 0 1 1 None = Raise DecodeFailure.
Proof. cbv zeta. split; vm_compute; reflexivity. Qed.

(** X3 on the example payload, which is well formed. *)
Lemma construction_succeeds_iff_payload_is_well_formed_witness :
  payload_ok (demo.getChunks (0, 0, 1, 1)) (0, 0, 1, 1) default_heightmapTypes.
Proof.
  apply (construction_succeeds_iff_payload_is_well_formed demo.getChunks 0 0 1 1 None);
    [lia|lia|].
  eexists. vm_compute. reflexivity.
Defined.

(** X4 on the example chunk: the block (0, 65, 0) is in a loaded
    section, and its block index 256 is past the biome array. *)
Lemma biome_reads_reach_only_64_cells_witness :
  exists ws,
    WorldSlice_init demo.getChunks 0 0 1 1 None = Ok ws /\
    getBiomeAt ws 0 65 0 = Raise IndexError /\
    match getBiomeAt ws 0 65 0 with
    | Ok None => getBlockCompoundAt ws 0 65 0 = Ok None
    | Ok (Some _) => 65 mod 16 = 0 /\ 0 mod 16 < 4
    | Raise e => e = IndexError
    end.
Proof.
  evar (ws : WorldSlice).
  assert (E : WorldSlice_init demo.getChunks 0 0 1 1 None = Ok ws)
    by (subst ws; vm_compute; reflexivity).
  exists ws. split; [exact E|]. split; [vm_compute; reflexivity|].
  exact (biome_reads_reach_only_64_cells demo.getChunks 0 0 1 1 None ws 0 65 0 E).
Defined.

Lemma reads_outside_the_chunks_answer_void_witness :
  exists ws,
    WorldSlice_init demo.getChunks 0 0 1 1 None = Ok ws /\
    getBlockCompoundAt ws 16 64 0 = Ok None /\
    getBlockAt ws 16 64 0 = Ok "minecraft:void_air"%string /\
    getBiomeAt ws 16 64 0 = Ok None.
Proof.
  evar (ws : WorldSlice).
  assert (E : WorldSlice_init demo.getChunks 0 0 1 1 None = Ok ws)
    by (subst ws; vm_compute; reflexivity).
  exists ws. split; [exact E|].
  apply (reads_outside_the_chunks_answer_void demo.getChunks 0 0 1 1 None ws 16 64 0 E).
  vm_compute. intros [[_ H] _]. discriminate H.
Defined.

End further_loader_examples.

Section further_editor_examples.
Open Scope string_scope.

(** X5 on a run that places three blocks at once with buffering off, then
    turns buffering on, defers a command, places a block and turns
    buffering off again. *)
Lemma nothing_is_pending_while_buffering_is_off_witness :
  exists st',
    st' = after_calls (new_Editor false 2 false)
            [CallPlaceBlockGlobal (ManyPositions [(0, 64, 0); (1, 64, 0); (2, 64, 0)])
               "minecraft:stone" None None;
             CallSetBuffering true;
             CallRunCommand "say done" true;
             CallPlaceBlockGlobal (OnePosition (0, 65, 0)) "minecraft:dirt" None None;
             CallSetBuffering false] /\
    buffering st' = false /\ buffer st' = [] /\ commandBuffer st' = [] /\
    length (trace st') = 4%nat.
Proof.
  eexists. split; [reflexivity|]. split; [vm_compute; reflexivity|].
  match goal with
  | |- buffer (after_calls ?st ?calls) = [] /\ _ =>
      destruct (nothing_is_pending_while_buffering_is_off st calls) as [Hb Hc]
  end.
  - intros _. split; reflexivity.
  - vm_compute. reflexivity.
  - split; [exact Hb|]. split; [exact Hc|]. vm_compute. reflexivity.
Defined.

(** X6 on a run with a limit of two that is then lowered to one. *)
Lemma buffer_stays_within_its_limit_witness :
  exists st',
    st' = after_calls (new_Editor true 2 false)
            [CallPlaceBlockGlobal (ManyPositions [(0, 64, 0); (1, 64, 0); (2, 64, 0)])
               "minecraft:stone" None None;
             CallSetBufferLimit 1;
             CallPlaceBlockGlobal (OnePosition (0, 65, 0)) "minecraft:dirt" None None] /\
    within_limit (new_Editor true 2 false) /\
    within_limit st' /\ length (buffer st') = 1%nat.
Proof.
  eexists. split; [reflexivity|].
  assert (H0 : within_limit (new_Editor true 2 false)) by (vm_compute; discriminate).
  split; [exact H0|]. split; [|vm_compute; reflexivity].
  apply (buffer_stays_within_its_limit (new_Editor true 2 false)). exact H0.
Defined.

(** The host that refuses rectangles of negative size only returns slices
    of non-negative size. *)
Lemma sized_collaborators_have_size :
  @slices_have_size _ _ _ demo.sized_collaborators.
Proof.
  split; [by vm_compute|].
  intros tr r ws Hws. cbn [iface_WorldSlice demo.sized_collaborators] in Hws.
  destruct (decide _) as [[Hx Hz]|]; [|discriminate].
  apply WorldSlice_init_fields in Hws as (Hr & _).
  cbn [ws_rect demo.sized_collaborators size]. rewrite Hr. unfold make_rect.
  cbn [fst snd]. lia.
Qed.

(** X7 on that host: a slice is cached, a block is placed in it, a slice
    of negative width is refused, and the slice is reloaded. *)
Lemma mask_always_matches_slice_witness :
  exists st',
    st' = @after_calls _ _ _ demo.sized_collaborators (new_Editor true 2 false)
            [CallLoadWorldSlice (Some region) true;
             CallPlaceBlockGlobal (OnePosition (0, 64, 0)) "minecraft:dirt" None None;
             CallLoadWorldSlice (Some (mkRect (0, 0) (-1, 1))) true;
             CallUpdateWorldSlice] /\
    @mask_matches_slice _ _ _ demo.sized_collaborators st' /\
    option_map (@ws_rect _ _ _ demo.sized_collaborators) (worldSlice st') = Some region.
Proof.
  eexists. split; [reflexivity|]. split; [|vm_compute; reflexivity].
  apply (@mask_always_matches_slice _ _ _ demo.sized_collaborators).
  - exact sized_collaborators_have_size.
  - exact Logic.I.
Defined.

(** The mask of the example slice is in shape. *)
Lemma with_slice_mask_in_shape (buffering_ : bool) :
  mask_matches_slice (with_slice (new_Editor buffering_ 1024 false)).
Proof.
  destruct buffering_; vm_compute; (split; [reflexivity|]); repeat constructor.
Qed.

(** X8 on the example slice: a read at Y = 320, above the build height,
    raises; a read at Y = 64 does not fail on the mask. *)
Lemma read_in_slice_depends_on_height_witness :
  let st := with_slice (new_Editor false 1024 false) in
  exists ws,
    worldSlice st = Some ws /\
    getBlockGlobal (0, 320, 0) true false st = (Raise IndexError, st) /\
    exists d, read_source st (0, 64, 0)
              = Ok (if d : bool then FromNetwork else FromSnapshot ws).
Proof.
  cbv zeta.
  evar (ws : worldLoader.WorldSlice).
  assert (Hws : worldSlice (with_slice (new_Editor false 1024 false)) = Some ws)
    by (subst ws; vm_compute; reflexivity).
  exists ws. split; [exact Hws|]. split.
  - apply (read_in_slice_depends_on_height
             (with_slice (new_Editor false 1024 false)) ws (0, 320, 0) true false);
      [apply with_slice_mask_in_shape|exact Hws|vm_compute; reflexivity
      |reflexivity|reflexivity|simpl; lia].
  - apply (read_in_slice_depends_on_height
             (with_slice (new_Editor false 1024 false)) ws (0, 64, 0) true false);
      [apply with_slice_mask_in_shape|exact Hws|vm_compute; reflexivity
      |reflexivity|reflexivity|simpl; lia].
Defined.

(** X9 on the example slice, at Y = 320. *)
Lemma write_outside_build_height_raises_after_staging_witness :
  let st := with_slice (new_Editor true 1024 false) in
  let out := placeBlockGlobal (OnePosition (0, 320, 0)) "minecraft:dirt" None None st in
  out = (Raise IndexError, staged (0, 320, 0) (chooseId "minecraft:dirt") None st) /\
  dict_get (buffer out.2) (0, 320, 0) = Some (chooseId "minecraft:dirt").
Proof.
  cbv zeta.
  evar (ws : worldLoader.WorldSlice).
  assert (Hws : worldSlice (with_slice (new_Editor true 1024 false)) = Some ws)
    by (subst ws; vm_compute; reflexivity).
  apply (write_outside_build_height_raises_after_staging
           (with_slice (new_Editor true 1024 false)) ws (0, 320, 0) "minecraft:dirt" None);
    [apply with_slice_mask_in_shape|exact Hws|vm_compute; reflexivity
    |simpl; lia|reflexivity|reflexivity|vm_compute; discriminate].
Defined.

(** X10 for two blocks that the host rejects: the call returns [True]
    and the rejections are only warned about. *)
Lemma placing_at_many_positions_reports_success_witness :
  let st := new_Editor false 1024 false in
  exists st',
    placeBlockGlobal (ManyPositions [(0, 64, 0); (1, 64, 0)]) "invalid:block" None None st
      = (Ok true, st') /\
    warnings st' = [WarnPlacingBufferedBlock "unknown block";
                    WarnPlacingBufferedBlock "unknown block"] /\
    buffering st' = false /\ buffer st' = [] /\ commandBuffer st' = [].
Proof.
  cbv zeta.
  evar (st' : Editor).
  assert (E : placeBlockGlobal (ManyPositions [(0, 64, 0); (1, 64, 0)]) "invalid:block"
                None None (new_Editor false 1024 false) = (Ok true, st'))
    by (subst st'; vm_compute; reflexivity).
  exists st'. split; [exact E|]. split; [vm_compute; reflexivity|].
  destruct (placing_at_many_positions_reports_success _ _ _ _ _ _ _ E)
    as (_ & Hb & Hempty).
  split; [exact Hb|]. by apply Hempty.
Defined.

(** X11 on the example slice, with buffering off before the call: the
    second position is above the build height, the call raises, buffering
    stays on and the two staged blocks stay in the buffer. *)
Lemma interrupted_placing_leaves_buffering_on_witness :
  let st := with_slice (new_Editor false 1024 false) in
  exists st',
    placeBlockGlobal (ManyPositions [(0, 64, 0); (0, 320, 0); (0, 65, 0)])
      "minecraft:dirt" None None st = (Raise IndexError, st') /\
    buffering st = false /\ buffering st' = true /\
    buffer st' = [((0, 64, 0), "minecraft:dirt"); ((0, 320, 0), "minecraft:dirt")] /\
    trace st' = trace st.
Proof.
  cbv zeta.
  evar (st' : Editor).
  assert (E : placeBlockGlobal (ManyPositions [(0, 64, 0); (0, 320, 0); (0, 65, 0)])
                "minecraft:dirt" None None (with_slice (new_Editor false 1024 false))
              = (Raise IndexError, st'))
    by (subst st'; vm_compute; reflexivity).
  exists st'. split; [exact E|]. split; [reflexivity|].
  split; [exact (interrupted_placing_leaves_buffering_on _ _ _ _ _ _ _ E)|].
  split; vm_compute; reflexivity.
Defined.

(** X12 with one block and one command already buffered. *)
Lemma deferred_commands_follow_the_blocks_witness :
  let st := set_commandBuffer ["say one"]
              (set_buffer [((0, 64, 0), "minecraft:stone")]
                 (new_Editor true 1024 false)) in
  let st1 := set_commandBuffer ["say one"; "say two"] st in
  runCommand "say two" true st = (Ok tt, st1) /\
  trace st1 = [] /\
  exists st2,
    sendBufferedBlocks 5 st1 = (Ok tt, st2) /\
    trace st2 =
      [EvPlaceBlocks [((0, 64, 0), "minecraft:stone")] true (Some 5);
       EvRunCommand ("say one" +:+ newline +:+ "say two")] /\
    buffer st2 = [] /\ commandBuffer st2 = [].
Proof.
  cbv zeta.
  exact (deferred_commands_follow_the_blocks
           (set_commandBuffer ["say one"]
              (set_buffer [((0, 64, 0), "minecraft:stone")]
                 (new_Editor true 1024 false)))
           "say two" 5 eq_refl eq_refl).
Defined.

(** X15 on a fresh editor with buffering on. *)
Lemma buffered_write_is_read_back_witness :
  let st := new_Editor true 1024 false in
  let st' := (placeBlockGlobal (OnePosition (0, 64, 0)) "minecraft:dirt" None None st).2 in
  trace st' = trace (staged (0, 64, 0) (chooseId "minecraft:dirt") None st) /\
  getBlockGlobal (0, 64, 0) true false st' = (Ok (chooseId "minecraft:dirt"), st').
Proof.
  cbv zeta.
  apply (buffered_write_is_read_back (new_Editor true 1024 false) (0, 64, 0)
           "minecraft:dirt" None true false);
    [reflexivity|reflexivity|vm_compute; discriminate].
Defined.

(** X16 on the example slice: the host rejects the block. *)
Lemma rejected_direct_write_is_not_recorded_witness :
  let st := with_slice (new_Editor false 1024 false) in
  exists st',
    placeBlockGlobal (OnePosition (0, 64, 0)) "invalid:block" None None st
      = (Ok false, st') /\
    trace st' =
      (trace st ++ [EvPlaceBlocks [((0, 64, 0), chooseId "invalid:block")]
                      (effective_flag st None) None])%list /\
    warnings st' = (warnings st ++ [WarnPlacingBlock ["unknown block"]])%list /\
    cache st' = cache st /\ worldSliceDecay st' = worldSliceDecay st /\
    buffer st' = buffer st.
Proof.
  cbv zeta.
  apply (rejected_direct_write_is_not_recorded
           (with_slice (new_Editor false 1024 false)) (0, 64, 0) "invalid:block" None
           "unknown block" []);
    [reflexivity|reflexivity|vm_compute; discriminate|reflexivity|reflexivity].
Defined.

(** X17 with caching off: the stone block of the example chunk is read
    from the slice, and the only request made is the one for the chunks. *)
Lemma fresh_slice_answers_reads_witness :
  let st := new_Editor false 1024 false in
  exists ws st1,
    loadWorldSlice (Some region) true st = (Ok ws, st1) /\
    read_source st1 (0, 64, 0) = Ok (FromSnapshot ws) /\
    getBlockGlobal (0, 64, 0) true false st1
      = (Ok "minecraft:stone", cached (0, 64, 0) "minecraft:stone" st1) /\
    trace st1 = [EvGetChunks region].
Proof.
  cbv zeta.
  evar (ws : worldLoader.WorldSlice). evar (st1 : Editor).
  assert (E : loadWorldSlice (Some region) true (new_Editor false 1024 false)
              = (Ok ws, st1))
    by (subst ws st1; vm_compute; reflexivity).
  exists ws, st1. split; [exact E|].
  destruct (fresh_slice_answers_reads _ _ _ _ (0, 64, 0) true false E)
    as [Hsrc Hread];
    [vm_compute; reflexivity|simpl; lia|reflexivity|reflexivity|].
  split; [exact Hsrc|]. split; [|vm_compute; reflexivity].
  rewrite Hread. vm_compute. reflexivity.
Defined.

(** X18 with a limit of two: five writes, the third to the position of
    the first, go out as two batches and leave one block buffered. *)
Lemma staged_writes_are_sent_once_in_order_witness :
  let st := new_Editor true 2 false in
  let writes := [((0, 64, 0), "minecraft:stone"); ((1, 64, 0), "minecraft:dirt");
                 ((0, 64, 0), "minecraft:sand"); ((2, 64, 0), "minecraft:dirt");
                 ((3, 64, 0), "minecraft:dirt")] in
  let st' := (stage_each writes None st).2 in
  (batches (trace st') =
     [[((0, 64, 0), "minecraft:stone"); ((1, 64, 0), "minecraft:dirt")];
      [((0, 64, 0), "minecraft:sand"); ((2, 64, 0), "minecraft:dirt")]] /\
   buffer st' = [((3, 64, 0), "minecraft:dirt")]) /\
  exists segs cur,
    writes = (concat segs ++ cur)%list /\
    Forall (fun seg => seg <> []) segs /\
    batches (trace st') = (batches (trace st) ++ map build segs)%list /\
    buffer st' = build cur.
Proof.
  cbv zeta. split; [split; vm_compute; reflexivity|].
  apply (staged_writes_are_sent_once_in_order (new_Editor true 2 false)); reflexivity.
Defined.

(** X26 on a new editor with caching on: the cache is empty, and both
    the read and the placement raise [KeyError]. *)
Lemma lookup_failure_ends_reads_and_writes_witness :
  let p := (0, 64, 0) in
  let st := new_Editor true 1024 true in
  getBlockGlobal p true false st = (Raise KeyError, st) /\
  placeBlockGlobal (OnePosition p) "minecraft:dirt" None None st = (Raise KeyError, st).
Proof.
  cbv zeta.
  destruct (lookup_failure_ends_reads_and_writes (new_Editor true 1024 true) (0, 64, 0)
              "minecraft:dirt" None None true false KeyError)
    as [Hread Hplace]; [reflexivity|reflexivity|discriminate|].
  split; [exact Hread|]. apply Hplace. right. vm_compute. discriminate.
Defined.

(** X27 on a new editor with caching on: reads and placements, with
    caching turned off and on again, leave the cache empty; the only
    requests are those made while caching was off. *)
Lemma failing_cache_is_never_filled_witness :
  let st := new_Editor false 1024 true in
  let calls :=
    [CallGetBlockGlobal (0, 64, 0) true false;
     CallSetCaching false;
     CallPlaceBlockGlobal (ManyPositions [(0, 64, 0); (1, 64, 0)]) "minecraft:dirt"
       None None;
     CallGetBlockGlobal (0, 64, 0) true false;
     CallSetCaching true;
     CallGetBlockGlobal (0, 64, 0) true false;
     CallPlaceBlockGlobal (OnePosition (2, 64, 0)) "minecraft:stone" None None] in
  utility.entries (cache st) = [] /\
  cache (after_calls st calls) = cache st /\
  trace (after_calls st calls)
  = [EvPlaceBlocks [((0, 64, 0), "minecraft:dirt"); ((1, 64, 0), "minecraft:dirt")]
       true (Some 5);
     EvGetBlocks (0, 64, 0) true false].
Proof.
  cbv zeta. split; [reflexivity|]. split; [|vm_compute; reflexivity].
  apply failing_cache_is_never_filled.
  intros p. exists KeyError. split; [reflexivity|discriminate].
Defined.

End further_editor_examples.

Section further_tools_examples.

(** The command for a box of 5 x 4 x 1 blocks, and the choice among four
    obtrusiveness values: north and east are the least obtrusive, and
    north has the more obtrusive opposite. *)
Lemma centering_command_example :
  setbuildarea_command (radius_of (5, 4, 1))
  = "execute at @p run setbuildarea ~-2 ~-1 ~0 ~2 ~1 ~0"%string /\
  (centerBuildAreaOnPlayer (5, 4, 1) (new_Editor true 1024 false)).1
  = Ok (mkRect (0, 0) (1, 1)).
Proof. split; vm_compute; reflexivity. Qed.

Lemma facing_choice_example :
  getOptimalFacingDirection [0; 0; 5; 1] = Ok ["north"%string] /\
  getOptimalFacingDirection [2; 2; 2; 2]
  = Ok ["north"; "east"; "south"; "west"]%string.
Proof. split; vm_compute; reflexivity. Qed.

End further_tools_examples.
